(** * Vani AI: audio feature extraction and voice-parameter mapping

    A shallow embedding of [scripts/analyze_audio.py] (class [AudioAnalyzer])
    and of [get_dialogue_settings_version_b] from
    [scripts/test_audio_comparison.py], with the properties the design
    document states about them.

    Numbers.  The Python code computes with binary64 floats.  Here a float is
    an exact rational ([Q]): every arithmetic step is the exact one, without
    rounding, overflow or infinities.  The one place where the analysed code
    produces a NaN ([np.std] of an empty array) is modelled by the extra
    value [NaN] of [npfloat].  The band ratios of [_analyze_audio_quality],
    whose sum the design document states up to floating tolerance, are given
    a second time with the rounding of binary64, in the module [Binary64].
    The signal-processing calls into librosa and
    the FFT (onset detection, pitch tracking, RMS framing, spectral
    centroid, the spectrum itself) are inputs of the model: the functions
    below start from what those calls return. *)

From Stdlib Require Import QArith Qpower Qround Qabs Lqa ZArith List Lia Bool Ascii String.
From stdpp Require Import gmap strings.

Open Scope Q_scope.

(** ** Python and numpy primitives *)

(** [max(a, b)]: the second argument replaces the first only when it is
    strictly greater. *)
Definition py_max (a b : Q) : Q := if Qlt_le_dec a b then b else a.

(** [min(a, b)]: the second argument replaces the first only when it is
    strictly smaller. *)
Definition py_min (a b : Q) : Q := if Qlt_le_dec b a then b else a.

(** [a > b] as a truth value. *)
Definition Qgtb (a b : Q) : bool := if Qlt_le_dec b a then true else false.

(** [int(x)]: truncation toward zero. *)
Definition py_int (x : Q) : Z := Z.quot (Qnum x) (Zpos (Qden x)).

(** Rounding to the nearest integer, ties to the even one. *)
Definition round_half_even (x : Q) : Z :=
  let f := Qfloor x in
  match Qcompare (x - inject_Z f) (1 # 2) with
  | Lt => f
  | Gt => (f + 1)%Z
  | Eq => if Z.even f then f else (f + 1)%Z
  end.

(** [round(x, 2)]. *)
Definition py_round2 (x : Q) : Q := inject_Z (round_half_even (x * 100)) / 100.

(** A slice bound [i] of a sequence of length [len]: negative bounds count
    from the end, and every bound is clipped to [0 .. len]. *)
Definition py_index (len i : Z) : Z :=
  if (i <? 0)%Z then Z.max (i + len) 0 else Z.min i len.

(** [l[lo:hi]]; [None] is an omitted bound. *)
Definition py_slice {A : Type} (l : list A) (lo hi : option Z) : list A :=
  let n := Z.of_nat (length l) in
  let a := match lo with Some i => py_index n i | None => 0%Z end in
  let b := match hi with Some j => py_index n j | None => n end in
  firstn (Z.to_nat (b - a)) (skipn (Z.to_nat a) l).

(** [len(l)] as a Python integer. *)
Definition py_len {A : Type} (l : list A) : Z := Z.of_nat (length l).

(** [np.sum]. *)
Definition np_sum (l : list Q) : Q := fold_left Qplus l 0.

(** [np.mean]; the analysed code calls it on non-empty arrays only. *)
Definition np_mean (l : list Q) : Q := np_sum l / inject_Z (py_len l).

(** [np.max] and [np.min] of an array with first element [x]. *)
Definition np_max_from (x : Q) (l : list Q) : Q := fold_left py_max l x.
Definition np_min_from (x : Q) (l : list Q) : Q := fold_left py_min l x.

(** ** Pitch trajectory: [_determine_pitch_trajectory] *)

Definition _determine_pitch_trajectory (pitch_contour : list Q) : string :=
  if (py_len pitch_contour <? 3)%Z then "stable"
  else
    let third := (py_len pitch_contour / 3)%Z in
    let start_third :=
      if (0 <? third)%Z then np_mean (py_slice pitch_contour None (Some third))
      else 0 in
    let end_third :=
      if (0 <? third)%Z then np_mean (py_slice pitch_contour (Some (- third)%Z) None)
      else 0 in
    if Qeq_bool start_third 0 || Qeq_bool end_third 0 then "stable"
    else
      let change_ratio := (end_third - start_third) / start_third in
      if Qlt_le_dec 0.1 change_ratio then "rising"
      else if Qlt_le_dec change_ratio (-0.1) then "falling"
      else "stable".

(** The classification as the design document words it: thirds by integer
    division, the means of the first and of the last [n/3] samples, a
    relative change with a 10% band. *)
Definition first_third_mean (contour : list Q) : Q :=
  np_mean (firstn (length contour / 3) contour).

Definition last_third_mean (contour : list Q) : Q :=
  np_mean (skipn (length contour - length contour / 3) contour).

Definition trajectory_of_means (samples : nat) (first_mean last_mean : Q) : string :=
  if (samples <? 3)%nat || Qeq_bool first_mean 0 || Qeq_bool last_mean 0
  then "stable"
  else
    let change := (last_mean - first_mean) / first_mean in
    if Qlt_le_dec 0.10 change then "rising"
    else if Qlt_le_dec change (-0.10) then "falling"
    else "stable".

Definition trajectory_spec (contour : list Q) : string :=
  trajectory_of_means (length contour)
    (first_third_mean contour) (last_third_mean contour).

(** ** Standard deviation *)

(** A numpy float that may be NaN. *)
Inductive npfloat : Type :=
| Fin (q : Q)
| NaN.

(** [np.sqrt] on the rational model: the exact root when the argument is the
    square of a rational, and otherwise the root rounded down to a multiple
    of [2^-53] over the reduced denominator (binary64 rounds its root at the
    same relative scale).  The code takes roots of variances only, which are
    never negative. *)
Definition np_sqrt (x : Q) : Q :=
  let r := Qred x in
  Z.sqrt (Qnum r * Zpos (Qden r) * 2 ^ 106) # (Qden r * 2 ^ 53).

(** The step of [np_sqrt] at [x]: the root is rounded down by less than this. *)
Definition np_sqrt_step (x : Q) : Q := 1 # (Qden (Qred x) * 2 ^ 53).

(** The population variance numpy computes inside [np.std]: the mean of the
    squared deviations from the mean. *)
Definition np_var (l : list Q) : Q :=
  let arrmean := np_mean l in
  np_mean (map (fun x => (x - arrmean) * (x - arrmean)) l).

(** [np.std] of a non-empty array. *)
Definition np_std_val (l : list Q) : Q := np_sqrt (np_var l).

(** [np.std]: an empty array gives [0/0], a NaN (the script silences the
    warning numpy raises with it). *)
Definition np_std (l : list Q) : npfloat :=
  match l with
  | [] => NaN
  | _ :: _ => Fin (np_std_val l)
  end.

(** A numpy float is the number [q]. *)
Definition npfloat_is (x : npfloat) (q : Q) : Prop :=
  match x with
  | Fin v => v == q
  | NaN => False
  end.

(** [1.0 - (s / d)] where [s] may be NaN. *)
Definition one_minus_ratio (s : npfloat) (d : Q) : npfloat :=
  match s with
  | Fin q => Fin (1.0 - q / d)
  | NaN => NaN
  end.

(** ** Timing analysis: [_analyze_timing_patterns]

    [onsets] is what [librosa.onset.onset_detect] returned.  The silence
    statistics and the segment count of the record come from further librosa
    passes (RMS frames, a second onset detection) and are left out. *)

Record timing_analysis : Type := {
  average_pause_duration_seconds : Q;
  min_pause_duration : Q;
  max_pause_duration : Q;
  total_onsets : Z;
  speech_rhythm_regularity : npfloat
}.

(** The list [pause_durations] after the first loop. *)
Definition pause_durations_of (onsets : list Q) : list Q :=
  if (1 <? py_len onsets)%Z
  then map (fun i => nth (i + 1) onsets 0 - nth i onsets 0)
           (seq 0 (Z.to_nat (py_len onsets - 1)))
  else [].

Definition _analyze_timing_patterns (onsets : list Q) : timing_analysis :=
  let pause_durations := pause_durations_of onsets in
  let avg_pause :=
    match pause_durations with [] => 0.3 | _ :: _ => np_mean pause_durations end in
  let min_pause :=
    match pause_durations with [] => 0.1 | x :: l => np_min_from x l end in
  let max_pause :=
    match pause_durations with [] => 1.0 | x :: l => np_max_from x l end in
  {| average_pause_duration_seconds := avg_pause;
     min_pause_duration := min_pause;
     max_pause_duration := max_pause;
     total_onsets := py_len onsets;
     speech_rhythm_regularity :=
       if Qlt_le_dec 0 avg_pause
       then one_minus_ratio (np_std pause_durations) avg_pause
       else Fin 0.5 |}.

(** ** Spectral quality: [_analyze_audio_quality]

    [freqs] and [magnitude] are the FFT bin frequencies and the magnitude
    spectrum.  The RMS statistics and the dynamic range of the record come
    from [librosa.feature.rms] and a logarithm and are left out. *)

Record audio_quality : Type := {
  low_freq_energy_ratio : Q;
  mid_freq_energy_ratio : Q;
  high_freq_energy_ratio : Q;
  clarity_score : Q
}.

(** [np.sum(magnitude[mask])] for a mask computed from [freqs]. *)
Definition masked_sum (mask : Q -> bool) (freqs magnitude : list Q) : Q :=
  np_sum (map snd (List.filter (fun fm => mask (fst fm)) (combine freqs magnitude))).

Definition low_freq_mask (f : Q) : bool := Qle_bool 0 f && Qle_bool f 300.
Definition mid_freq_mask (f : Q) : bool := negb (Qle_bool f 300) && Qle_bool f 3000.
Definition high_freq_mask (f : Q) : bool := negb (Qle_bool f 3000) && Qle_bool f 8000.

Definition low_energy (freqs magnitude : list Q) : Q := masked_sum low_freq_mask freqs magnitude.
Definition mid_energy (freqs magnitude : list Q) : Q := masked_sum mid_freq_mask freqs magnitude.
Definition high_energy (freqs magnitude : list Q) : Q := masked_sum high_freq_mask freqs magnitude.

Definition total_energy (freqs magnitude : list Q) : Q :=
  low_energy freqs magnitude + mid_energy freqs magnitude + high_energy freqs magnitude.

Definition _analyze_audio_quality (freqs magnitude : list Q) : audio_quality :=
  let total := total_energy freqs magnitude in
  {| low_freq_energy_ratio :=
       if Qlt_le_dec 0 total then low_energy freqs magnitude / total else 0;
     mid_freq_energy_ratio :=
       if Qlt_le_dec 0 total then mid_energy freqs magnitude / total else 0;
     high_freq_energy_ratio :=
       if Qlt_le_dec 0 total then high_energy freqs magnitude / total else 0;
     clarity_score :=
       if Qlt_le_dec 0 total then mid_energy freqs magnitude / total else 0.5 |}.

(** [np.max] and [np.min]; the code guards every call by a length test. *)
Definition np_max (l : list Q) : Q :=
  match l with [] => 0 | x :: l' => np_max_from x l' end.
Definition np_min (l : list Q) : Q :=
  match l with [] => 0 | x :: l' => np_min_from x l' end.

(** [np.diff]. *)
Fixpoint np_diff (l : list Q) : list Q :=
  match l with
  | a :: (b :: _) as tl => (b - a) :: np_diff tl
  | _ => []
  end.

(** The sample range of segment [i]: from onset [i] to onset [i+1], the
    last segment running to the end of the buffer. *)
Definition segment_start (sr : Z) (onsets : list Q) (i : nat) : Z :=
  py_int (nth i onsets 0 * inject_Z sr).

Definition segment_end (sr : Z) (onsets : list Q) (len_y : Z) (i : nat) : Z :=
  if (Z.of_nat i <? py_len onsets - 1)%Z
  then py_int (nth (i + 1) onsets 0 * inject_Z sr)
  else len_y.

(** Segment [i] is analysed unless its sample range is empty. *)
Definition segment_nonempty (sr : Z) (onsets : list Q) (len_y : Z) (i : nat) : bool :=
  negb (segment_end sr onsets len_y i <=? segment_start sr onsets i)%Z.

(** The samples [y[segment_start:segment_end]] of segment [i]. *)
Definition segment_samples (sr : Z) (y : list Q) (onsets : list Q) (i : nat) : list Q :=
  py_slice y (Some (segment_start sr onsets i))
    (Some (segment_end sr onsets (py_len y) i)).

(** ** Emotion analysis: [_detect_laughter], [_detect_excitement],
    [_analyze_emotions] *)

Module Emotion.

Record segment : Type := {
  index : Z;
  emotion_type : string;
  intensity : Q;
  duration_seconds : Q
}.

(** The dictionary [emotion_counts], which has these three keys throughout. *)
Record counts : Type := {
  laughter : Z;
  excitement : Z;
  neutral : Z
}.

Record analysis : Type := {
  emotion_segments : list segment;
  emotion_distribution : counts
}.

(** The number of labels counted so far. *)
Definition total (c : counts) : Z := (laughter c + excitement c + neutral c)%Z.

(** The if/elif/else chain of the loop body: the label, its intensity and
    the counter it increments. *)
Definition classify (laughter_score excitement_score : Q) (c : counts)
  : string * Q * counts :=
  if Qlt_le_dec 0.6 laughter_score then
    ("laughter", py_min 1.0 laughter_score,
     {| laughter := laughter c + 1; excitement := excitement c; neutral := neutral c |})
  else if Qlt_le_dec 0.5 excitement_score then
    ("excitement", py_min 1.0 excitement_score,
     {| laughter := laughter c; excitement := excitement c + 1; neutral := neutral c |})
  else
    ("neutral", 0.3,
     {| laughter := laughter c; excitement := excitement c; neutral := neutral c + 1 |}).

Section WithAudio.

(** [_extract_pitch_contour(y, sr)], a wrapper around librosa's pitch
    trackers. *)
Variable _extract_pitch_contour : list Q -> list Q.
(** [np.mean(librosa.feature.spectral_centroid(y=y, sr=sr))]. *)
Variable spectral_centroid_mean : list Q -> Q.
(** [np.mean(librosa.feature.rms(y=y)[0])]. *)
Variable rms_mean : list Q -> Q.
(** The sample rate. *)
Variable sr : Z.

Definition _detect_laughter (y : list Q) : Q :=
  let pitch_contour := _extract_pitch_contour y in
  if (py_len pitch_contour <? 3)%Z then 0
  else
    let pitch_variation :=
      if Qlt_le_dec 0 (np_mean pitch_contour)
      then np_std_val pitch_contour / np_mean pitch_contour
      else 0 in
    let spectral_centroid := spectral_centroid_mean y in
    let high_freq_ratio := spectral_centroid / 2000.0 in
    py_min 1.0 (pitch_variation * 0.5 + high_freq_ratio * 0.3).

Definition _detect_excitement (y : list Q) : Q :=
  let pitch_contour := _extract_pitch_contour y in
  if (py_len pitch_contour =? 0)%Z then 0
  else
    let avg_pitch := np_mean pitch_contour in
    let pitch_score :=
      if Qlt_le_dec 150 avg_pitch then py_min 1.0 ((avg_pitch - 150) / 100) else 0 in
    let energy_score := py_min 1.0 (rms_mean y * 10) in
    let spike_score :=
      if (2 <? py_len pitch_contour)%Z then
        let pitch_changes := np_diff pitch_contour in
        if (0 <? py_len pitch_changes)%Z
        then py_min 1.0 (np_max (map Qabs pitch_changes) / 50.0)
        else 0
      else 0 in
    let excitement_score :=
      pitch_score * 0.3 + energy_score * 0.4 + spike_score * 0.3 in
    py_min 1.0 excitement_score.

(** One iteration of the loop over [range(len(onsets))]. *)
Definition step (y : list Q) (onsets : list Q) (st : analysis) (i : nat) : analysis :=
  let seg_start := segment_start sr onsets i in
  let seg_end := segment_end sr onsets (py_len y) i in
  if (seg_end <=? seg_start)%Z then st
  else
    let segment_y := py_slice y (Some seg_start) (Some seg_end) in
    let segment_duration := inject_Z (py_len segment_y) / inject_Z sr in
    let laughter_score := _detect_laughter segment_y in
    let excitement_score := _detect_excitement segment_y in
    let '(emotion_type, intensity, emotion_counts) :=
      classify laughter_score excitement_score (emotion_distribution st) in
    {| emotion_segments :=
         if Qlt_le_dec 0.4 intensity
         then emotion_segments st ++
              [ {| index := Z.of_nat i; emotion_type := emotion_type;
                   intensity := intensity; duration_seconds := segment_duration |} ]
         else emotion_segments st;
       emotion_distribution := emotion_counts |}.

(** Segment [i] is analysed and its laughter score exceeds 0.6. *)
Definition laughter_detected (y : list Q) (onsets : list Q) (i : nat) : bool :=
  segment_nonempty sr onsets (py_len y) i
  && Qgtb (_detect_laughter (segment_samples sr y onsets i)) 0.6.

(** Segment [i] is analysed, its laughter score does not exceed 0.6 and its
    excitement score exceeds 0.5. *)
Definition excitement_detected (y : list Q) (onsets : list Q) (i : nat) : bool :=
  segment_nonempty sr onsets (py_len y) i
  && negb (Qgtb (_detect_laughter (segment_samples sr y onsets i)) 0.6)
  && Qgtb (_detect_excitement (segment_samples sr y onsets i)) 0.5.

(** What iteration [i] appends to [emotion_segments], if anything. *)
Definition recorded_segment (y : list Q) (onsets : list Q) (i : nat) : option segment :=
  if segment_nonempty sr onsets (py_len y) i then
    let segment_y := segment_samples sr y onsets i in
    let '(emotion_type, intensity, _) :=
      classify (_detect_laughter segment_y) (_detect_excitement segment_y)
        {| laughter := 0; excitement := 0; neutral := 0 |} in
    if Qlt_le_dec 0.4 intensity
    then Some {| index := Z.of_nat i; emotion_type := emotion_type;
                 intensity := intensity;
                 duration_seconds := inject_Z (py_len segment_y) / inject_Z sr |}
    else None
  else None.

Definition _analyze_emotions (y : list Q) (onsets : list Q) : analysis :=
  fold_left (step y onsets) (seq 0 (length onsets))
    {| emotion_segments := [];
       emotion_distribution := {| laughter := 0; excitement := 0; neutral := 0 |} |}.

End WithAudio.

End Emotion.

(** ** Per-dialogue pitch patterns: [_analyze_dialogue_pitch_patterns] *)

Module Dialogue.

Record entry : Type := {
  index : Z;
  start_pitch_hz : Q;
  end_pitch_hz : Q;
  trajectory : string;
  pitch_range : Q;
  duration_seconds : Q
}.

Record patterns : Type := {
  average_start_pitch_hz : Q;
  average_end_pitch_hz : Q;
  common_trajectory : string;
  pitch_variation_range : Q
}.

(** The two keys the function writes into [self.pitch_analysis]; an empty
    [dialogue_patterns] dictionary is [None]. *)
Record result : Type := {
  dialogue_patterns : option patterns;
  per_dialogue : list entry
}.

(** The four lists the loop appends to. *)
Record acc : Type := {
  acc_per_dialogue : list entry;
  start_pitches : list Q;
  end_pitches : list Q;
  trajectories : list string
}.

(** [trajectories.count(t)]. *)
Definition py_count (t : string) (l : list string) : Z :=
  py_len (List.filter (String.eqb t) l).

(** [max(candidates, key=trajectories.count)]: the first candidate whose
    count is not exceeded later on. *)
Definition max_by_count (trajectories candidates : list string) : string :=
  match candidates with
  | [] => "stable"
  | c :: cs =>
      fold_left
        (fun best t =>
           if (py_count best trajectories <? py_count t trajectories)%Z then t else best)
        cs c
  end.

Section WithAudio.

(** [_extract_pitch_contour(y, sr)], a wrapper around librosa's pitch
    trackers. *)
Variable _extract_pitch_contour : list Q -> list Q.
(** The order in which Python iterates over [set(trajectories)]. *)
Variable py_set : list string -> list string.
(** The sample rate. *)
Variable sr : Z.

(** The average pitch of the first window of a segment. *)
Definition avg_start_pitch_of (segment_y : list Q) : Q :=
  let start_window := Z.min (py_int (0.5 * inject_Z sr)) (py_len segment_y / 2) in
  let start_segment := py_slice segment_y None (Some start_window) in
  let start_pitch := _extract_pitch_contour start_segment in
  if (0 <? py_len start_pitch)%Z then np_mean start_pitch else 0.

(** The average pitch of the last window of a segment. *)
Definition avg_end_pitch_of (segment_y : list Q) : Q :=
  let end_window := Z.min (py_int (0.5 * inject_Z sr)) (py_len segment_y / 2) in
  let end_segment :=
    if (end_window <? py_len segment_y)%Z
    then py_slice segment_y (Some (- end_window)%Z) None
    else segment_y in
  let end_pitch := _extract_pitch_contour end_segment in
  if (0 <? py_len end_pitch)%Z then np_mean end_pitch else 0.

(** One iteration of the loop over [range(len(onsets))]. *)
Definition step (y : list Q) (onsets : list Q) (st : acc) (i : nat) : acc :=
  let seg_start := segment_start sr onsets i in
  let seg_end := segment_end sr onsets (py_len y) i in
  if (seg_end <=? seg_start)%Z then st
  else
    let segment_y := py_slice y (Some seg_start) (Some seg_end) in
    let segment_duration := inject_Z (py_len segment_y) / inject_Z sr in
    let avg_start_pitch := avg_start_pitch_of segment_y in
    let avg_end_pitch := avg_end_pitch_of segment_y in
    let full_pitch := _extract_pitch_contour segment_y in
    let trajectory := _determine_pitch_trajectory full_pitch in
    let pitch_range :=
      if (0 <? py_len full_pitch)%Z then np_max full_pitch - np_min full_pitch else 0 in
    if Qgtb avg_start_pitch 0 && Qgtb avg_end_pitch 0 then
      {| acc_per_dialogue :=
           acc_per_dialogue st ++
           [ {| index := Z.of_nat i;
                start_pitch_hz := avg_start_pitch;
                end_pitch_hz := avg_end_pitch;
                trajectory := trajectory;
                pitch_range := pitch_range;
                duration_seconds := segment_duration |} ];
         start_pitches := start_pitches st ++ [avg_start_pitch];
         end_pitches := end_pitches st ++ [avg_end_pitch];
         trajectories := trajectories st ++ [trajectory] |}
    else st.

(** What iteration [i] appends to [per_dialogue], if anything. *)
Definition recorded_entry (y : list Q) (onsets : list Q) (i : nat) : option entry :=
  if segment_nonempty sr onsets (py_len y) i then
    let segment_y := segment_samples sr y onsets i in
    let full_pitch := _extract_pitch_contour segment_y in
    if Qgtb (avg_start_pitch_of segment_y) 0 && Qgtb (avg_end_pitch_of segment_y) 0
    then Some {| index := Z.of_nat i;
                 start_pitch_hz := avg_start_pitch_of segment_y;
                 end_pitch_hz := avg_end_pitch_of segment_y;
                 trajectory := _determine_pitch_trajectory full_pitch;
                 pitch_range :=
                   if (0 <? py_len full_pitch)%Z
                   then np_max full_pitch - np_min full_pitch else 0;
                 duration_seconds := inject_Z (py_len segment_y) / inject_Z sr |}
    else None
  else None.

(** The state after the loop. *)
Definition run_loop (y : list Q) (onsets : list Q) : acc :=
  fold_left (step y onsets) (seq 0 (length onsets))
    {| acc_per_dialogue := []; start_pitches := []; end_pitches := [];
       trajectories := [] |}.

Definition _analyze_dialogue_pitch_patterns (y : list Q) (onsets : list Q) : result :=
  if (py_len onsets <? 2)%Z then {| dialogue_patterns := None; per_dialogue := [] |}
  else
    let st := run_loop y onsets in
    match start_pitches st, end_pitches st with
    | _ :: _, _ :: _ =>
        let avg_start := np_mean (start_pitches st) in
        let avg_end := np_mean (end_pitches st) in
        let common_trajectory :=
          match trajectories st with
          | [] => "stable"
          | _ :: _ => max_by_count (trajectories st) (py_set (trajectories st))
          end in
        {| dialogue_patterns :=
             Some {| average_start_pitch_hz := avg_start;
                     average_end_pitch_hz := avg_end;
                     common_trajectory := common_trajectory;
                     pitch_variation_range :=
                       np_max (start_pitches st ++ end_pitches st)
                       - np_min (start_pitches st ++ end_pitches st) |};
           per_dialogue := acc_per_dialogue st |}
    | _, _ => {| dialogue_patterns := None; per_dialogue := [] |}
    end.

End WithAudio.

End Dialogue.

(** ** A sample recording

    A pitch tracker to run examples with: it reads every non-zero sample as
    a voiced frame of that pitch, and like [_extract_pitch_contour] answers
    [[0.0]] when no frame is voiced. *)
Definition sample_pitch_tracker (y : list Q) : list Q :=
  match List.filter (fun x => negb (Qeq_bool x 0)) y with
  | [] => [0]
  | p :: ps => p :: ps
  end.

(** Three segments of four samples at 2 Hz; the middle one is unvoiced. *)
Definition sample_recording : list Q :=
  [220; 220; 150; 150; 0; 0; 0; 0; 100; 0; 0; 130].
Definition sample_onsets : list Q := [0; 2; 4].

(** A bright and loud recording: spectral centroid 4000 Hz, RMS 0.2. *)
Definition sample_centroid (y : list Q) : Q := 4000.
Definition sample_rms (y : list Q) : Q := 0.2.

(** ** Parameter mapping: [_map_to_elevenlabs_settings] *)

Record voice_settings : Type := {
  stability : Q;
  similarity_boost : Q;
  style : Q;
  use_speaker_boost : bool;
  output_format : string;
  model_id : string;
  pause_duration_seconds : Q
}.

(** [d.get(key, default)] on a dictionary of numbers. *)
Definition dict_get (d : gmap string Q) (key : string) (dflt : Q) : Q :=
  default dflt (d !! key).

(** The three analysis dictionaries are read with [.get] and a default, so
    that a stage that failed (and left only an ["error"] entry) still maps to
    settings; [sample_rate] is [audio_properties.get('sample_rate')]. *)
Definition _map_to_elevenlabs_settings
    (voice_characteristics audio_quality timing_analysis : gmap string Q)
    (sample_rate : option Z) : voice_settings :=
  let pitch_var := dict_get voice_characteristics "pitch_variation_coefficient" 0.3 in
  let stability := py_max 0.1 (py_min 0.9 (0.6 - pitch_var * 0.5)) in
  let expressiveness := dict_get voice_characteristics "expressiveness_score" 0.5 in
  let clarity := dict_get audio_quality "clarity_score" 0.7 in
  let similarity_boost :=
    py_max 0.3 (py_min 0.9 (0.5 + clarity * 0.3 - expressiveness * 0.2)) in
  let style := py_max 0.1 (py_min 0.9 (0.3 + expressiveness * 0.4)) in
  let use_speaker_boost := Qgtb clarity 0.6 in
  let sample_rate := default 44100%Z sample_rate in
  let output_format :=
    if (44100 <=? sample_rate)%Z then "mp3_44100_128"
    else if (22050 <=? sample_rate)%Z then "mp3_22050_128"
    else "mp3_44100_128" in
  {| stability := py_round2 stability;
     similarity_boost := py_round2 similarity_boost;
     style := py_round2 style;
     use_speaker_boost := use_speaker_boost;
     output_format := output_format;
     model_id := "eleven_multilingual_v2";
     pause_duration_seconds :=
       py_round2 (dict_get timing_analysis "average_pause_duration_seconds" 0.3) |}.

(** The record the [except] branch of the mapper falls back to. *)
Definition fallback_settings : voice_settings :=
  {| stability := 0.35;
     similarity_boost := 0.75;
     style := 0.55;
     use_speaker_boost := true;
     output_format := "mp3_44100_128";
     model_id := "eleven_multilingual_v2";
     pause_duration_seconds := 0.3 |}.

(** The numeric entries of a settings record as the dictionary the report
    stores under ["recommended_elevenlabs_settings"]. *)
Definition settings_dict (s : voice_settings) : gmap string Q :=
  <["stability" := stability s]>
  (<["similarity_boost" := similarity_boost s]>
  (<["style" := style s]>
  (<["pause_duration_seconds" := pause_duration_seconds s]> ∅))).

(** ** Per-dialogue overrides: [get_dialogue_settings_version_b] *)

Module Comparison.

(** The numeric entries of [DEFAULT_SETTINGS]. *)
Definition DEFAULT_SETTINGS : gmap string Q :=
  <["stability" := 0.35]>
  (<["similarity_boost" := 0.75]>
  (<["style" := 0.55]>
  (<["pause_duration_seconds" := 0.3]> ∅))).

(** The analysis report as read back from JSON: every key may be missing. *)
Record script_opening : Type := {
  opening_pitch_trajectory : option string;
  start_pitch_hz : option Q
}.

Record script_closing : Type := {
  closing_pitch_trajectory : option string;
  end_pitch_hz : option Q
}.

Record dialogue_pitch : Type := {
  dp_trajectory : option string;
  dp_start_pitch_hz : option Q;
  dp_end_pitch_hz : option Q
}.

Record emotion_segment : Type := {
  seg_index : option Z;
  seg_emotion_type : option string;
  seg_intensity : option Q
}.

(** A missing ["pitch_analysis"] or ["emotion_analysis"] reads as one with
    no keys: no opening, no closing, empty lists. *)
Record analysis_config : Type := {
  recommended_elevenlabs_settings : option (gmap string Q);
  opening : option script_opening;
  closing : option script_closing;
  per_dialogue : list dialogue_pitch;
  emotion_segments : list emotion_segment
}.

(** [text.lower()] on ASCII letters. *)
Definition lower_ascii (c : ascii) : ascii :=
  let n := nat_of_ascii c in
  if (65 <=? n)%nat && (n <=? 90)%nat then ascii_of_nat (n + 32) else c.

Fixpoint lower (s : string) : string :=
  match s with
  | EmptyString => EmptyString
  | String c s' => String (lower_ascii c) (lower s')
  end.

(** [re.search] for a literal pattern: does [needle] occur in [s]? *)
Fixpoint occurs (needle s : string) : bool :=
  String.prefix needle s
  || match s with
     | EmptyString => false
     | String _ s' => occurs needle s'
     end.

(** The regular expressions [\(laughs?\)|\(giggles?\)|\(chuckles?\)] and
    [\(excited?\)|\(surprised?\)] match exactly these literals. *)
Definition laughter_markers : list string :=
  ["(laugh)"; "(laughs)"; "(giggle)"; "(giggles)"; "(chuckle)"; "(chuckles)"].
Definition excitement_markers : list string :=
  ["(excite)"; "(excited)"; "(surprise)"; "(surprised)"].

Definition detect_emotion_in_text (text : string) : option string :=
  let text_lower := lower text in
  if existsb (fun m => occurs m text_lower) laughter_markers then Some "laughter"
  else if existsb (fun m => occurs m text_lower) excitement_markers then Some "excitement"
  else None.

(** [o == label] for the result [o] of a [.get] without default. *)
Definition is_label (o : option string) (label : string) : bool :=
  match o with
  | Some s => String.eqb s label
  | None => false
  end.

(** [# Apply opening variation]. *)
Definition apply_opening (dialogue_index : nat) (cfg : analysis_config)
    (base_settings : gmap string Q) : gmap string Q :=
  match opening cfg with
  | Some opening =>
      if (Z.of_nat dialogue_index =? 0)%Z then
        let b1 :=
          if is_label (opening_pitch_trajectory opening) "rising" then
            let b := <["style" := py_min 0.9 (dict_get base_settings "style" 0.55 + 0.1)]>
                       base_settings in
            <["stability" := py_max 0.1 (dict_get b "stability" 0.35 - 0.05)]> b
          else if is_label (opening_pitch_trajectory opening) "falling" then
            <["style" := py_max 0.1 (dict_get base_settings "style" 0.55 - 0.05)]>
              base_settings
          else base_settings in
        if Qgtb (default 0 (start_pitch_hz opening)) 180
        then <["style" := py_min 0.9 (dict_get b1 "style" 0.55 + 0.05)]> b1
        else b1
      else base_settings
  | None => base_settings
  end.

(** [# Apply closing variation]. *)
Definition apply_closing (dialogue_index total_dialogues : nat) (cfg : analysis_config)
    (base_settings : gmap string Q) : gmap string Q :=
  match closing cfg with
  | Some closing =>
      if (Z.of_nat dialogue_index =? Z.of_nat total_dialogues - 1)%Z then
        let b1 :=
          if is_label (closing_pitch_trajectory closing) "falling" then
            let b := <["style" := py_max 0.1 (dict_get base_settings "style" 0.55 - 0.1)]>
                       base_settings in
            <["stability" := py_min 0.9 (dict_get b "stability" 0.35 + 0.05)]> b
          else base_settings in
        if Qgtb 170 (default 0 (end_pitch_hz closing))
        then <["style" := py_max 0.1 (dict_get b1 "style" 0.55 - 0.05)]> b1
        else b1
      else base_settings
  | None => base_settings
  end.

(** [# Apply per-dialogue pitch pattern]: the entry is looked up by its
    position in the list. *)
Definition apply_per_dialogue (dialogue_index : nat) (cfg : analysis_config)
    (base_settings : gmap string Q) : gmap string Q :=
  match nth_error (per_dialogue cfg) dialogue_index with
  | Some dialogue_pitch =>
      let trajectory := default "stable" (dp_trajectory dialogue_pitch) in
      let b1 :=
        if String.eqb trajectory "falling" then
          <["style" := py_min 0.9 (dict_get base_settings "style" 0.55 + 0.05)]>
            base_settings
        else if String.eqb trajectory "rising" then
          <["style" := py_max 0.1 (dict_get base_settings "style" 0.55 - 0.05)]>
            base_settings
        else base_settings in
      let start_pitch := default 0 (dp_start_pitch_hz dialogue_pitch) in
      let end_pitch := default 0 (dp_end_pitch_hz dialogue_pitch) in
      if Qgtb start_pitch 0 && Qgtb end_pitch 0 then
        let pitch_diff := start_pitch - end_pitch in
        if Qgtb pitch_diff 10 then
          <["style" := py_max 0.1 (dict_get b1 "style" 0.55 - 0.03)]> b1
        else if Qgtb (-10) pitch_diff then
          <["style" := py_min 0.9 (dict_get b1 "style" 0.55 + 0.03)]> b1
        else b1
      else b1
  | None => base_settings
  end.

(** [# Apply emotion-based adjustments], from the markers in the text. *)
Definition apply_text_emotion (text : string) (base_settings : gmap string Q)
  : gmap string Q :=
  let emotion := detect_emotion_in_text text in
  if is_label emotion "laughter" then
    <["style" := 0.75]> (<["stability" := 0.25]> base_settings)
  else if is_label emotion "excitement" then
    <["style" := 0.65]> (<["stability" := 0.35]> base_settings)
  else base_settings.

(** The body of the loop over [emotion_segments]. *)
Definition apply_emotion_segment (dialogue_index : nat)
    (base_settings : gmap string Q) (seg : emotion_segment) : gmap string Q :=
  if bool_decide (seg_index seg = Some (Z.of_nat dialogue_index)) then
    let emotion_type := seg_emotion_type seg in
    let intensity := default 0.5 (seg_intensity seg) in
    if is_label emotion_type "laughter" then
      <["style" := py_min 0.9 (0.7 + intensity * 0.1)]>
        (<["stability" := py_max 0.1 (0.3 - intensity * 0.1)]> base_settings)
    else if is_label emotion_type "excitement" then
      <["style" := py_min 0.9 (0.6 + intensity * 0.1)]>
        (<["stability" := py_max 0.1 (0.4 - intensity * 0.1)]> base_settings)
    else base_settings
  else base_settings.

(** [# Ensure values are in valid range]. *)
Definition clamp_settings (base_settings : gmap string Q) : gmap string Q :=
  let b1 := <["stability" :=
              py_max 0.1 (py_min 0.9 (dict_get base_settings "stability" 0.35))]>
              base_settings in
  let b2 := <["style" := py_max 0.1 (py_min 0.9 (dict_get b1 "style" 0.55))]> b1 in
  <["similarity_boost" :=
     py_max 0.3 (py_min 0.9 (dict_get b2 "similarity_boost" 0.75))]> b2.

(** [dialogue_index] is an [enumerate] index and [total_dialogues] a [len];
    the result holds the numeric entries of the returned dictionary (the
    other entries of the base settings are carried over unchanged). *)
Definition get_dialogue_settings_version_b
    (dialogue_index total_dialogues : nat) (text : string)
    (analysis_config : analysis_config) : gmap string Q :=
  let base_settings :=
    default DEFAULT_SETTINGS (recommended_elevenlabs_settings analysis_config) in
  let base_settings := apply_opening dialogue_index analysis_config base_settings in
  let base_settings :=
    apply_closing dialogue_index total_dialogues analysis_config base_settings in
  let base_settings := apply_per_dialogue dialogue_index analysis_config base_settings in
  let base_settings := apply_text_emotion text base_settings in
  let base_settings :=
    fold_left (apply_emotion_segment dialogue_index)
      (emotion_segments analysis_config) base_settings in
  clamp_settings base_settings.

(** Two reports for a script of two dialogues, the first dropping from
    220 Hz to 150 Hz: in one its trajectory is labelled "stable", in the
    other "falling".  Neither has recommended settings, so the base is
    [DEFAULT_SETTINGS], with style 0.55. *)
Definition report_with_first_trajectory (label : string) : analysis_config :=
  {| recommended_elevenlabs_settings := None;
     opening := None;
     closing := None;
     per_dialogue :=
       [ {| dp_trajectory := Some label;
            dp_start_pitch_hz := Some 220; dp_end_pitch_hz := Some 150 |};
         {| dp_trajectory := Some "stable";
            dp_start_pitch_hz := Some 180; dp_end_pitch_hz := Some 176 |} ];
     emotion_segments := [] |}.

End Comparison.

(** ** Special float values

    The clamp [max(lo, min(hi, x))] as Python evaluates it when [x] is not
    a finite number: every comparison with a NaN is false. *)

Inductive xfloat : Type :=
| XFin (q : Q)
| XNaN
| XPosInf
| XNegInf.

(** [a < b] on floats. *)
Definition x_lt (a b : xfloat) : bool :=
  match a, b with
  | XNaN, _ | _, XNaN => false
  | XFin p, XFin q => Qgtb q p
  | XFin _, XPosInf => true
  | XFin _, XNegInf => false
  | XPosInf, _ => false
  | XNegInf, XNegInf => false
  | XNegInf, _ => true
  end.

(** [max(a, b)] and [min(a, b)] on floats. *)
Definition x_max (a b : xfloat) : xfloat := if x_lt a b then b else a.
Definition x_min (a b : xfloat) : xfloat := if x_lt b a then b else a.

(** [max(lo, min(hi, x))]. *)
Definition x_clamp (lo hi : Q) (x : xfloat) : xfloat :=
  x_max (XFin lo) (x_min (XFin hi) x).

(** ** The documented ranges *)

(** A settings dictionary holds the three bounded controls, within their
    documented ranges. *)
Definition dict_in_bounds (d : gmap string Q) : Prop :=
  exists stability similarity_boost style : Q,
    d !! "stability" = Some stability /\
    d !! "similarity_boost" = Some similarity_boost /\
    d !! "style" = Some style /\
    0.1 <= stability <= 0.9 /\
    0.3 <= similarity_boost <= 0.9 /\
    0.1 <= style <= 0.9.

(** The three controls are within their ranges wherever a dictionary holds
    them; a missing control is read with a default that is within range. *)
Definition entries_in_bounds (d : gmap string Q) : Prop :=
  (forall v, d !! "stability" = Some v -> 0.1 <= v <= 0.9) /\
  (forall v, d !! "similarity_boost" = Some v -> 0.3 <= v <= 0.9) /\
  (forall v, d !! "style" = Some v -> 0.1 <= v <= 0.9).

Definition settings_in_bounds (s : voice_settings) : Prop :=
  0.1 <= stability s <= 0.9 /\
  0.3 <= similarity_boost s <= 0.9 /\
  0.1 <= style s <= 0.9.

(** ** Voice characteristics: [_analyze_voice_characteristics]

    [frames] is what [librosa.piptrack] returned, frame by frame: the
    column of candidate pitches and the column of their magnitudes, one
    entry per frequency bin. *)

(** [a.argmax()]: the index of the first maximum; numpy raises on an empty
    array, which is [None] here. *)
Fixpoint argmax_from (best : nat) (best_value : Q) (i : nat) (a : list Q) : nat :=
  match a with
  | [] => best
  | v :: a' =>
      if Qgtb v best_value then argmax_from i v (S i) a'
      else argmax_from best best_value (S i) a'
  end.

Definition np_argmax (a : list Q) : option nat :=
  match a with
  | [] => None
  | x :: a' => Some (argmax_from 0 x 1 a')
  end.

(** The loop over the frames: the pitch at the strongest bin of each frame is
    kept when it is positive.  An exception (an empty column) is [None]. *)
Fixpoint piptrack_pitch_values (frames : list (list Q * list Q)) : option (list Q) :=
  match frames with
  | [] => Some []
  | (pitch_column, magnitude_column) :: rest =>
      match np_argmax magnitude_column with
      | None => None
      | Some index =>
          match nth_error pitch_column index with
          | None => None
          | Some pitch =>
              match piptrack_pitch_values rest with
              | None => None
              | Some pitch_values =>
                  Some (if Qgtb pitch 0 then pitch :: pitch_values else pitch_values)
              end
          end
      end
  end.

Record voice_characteristics : Type := {
  average_pitch_hz : Q;
  pitch_std : Q;
  pitch_range : Q;
  pitch_variation_coefficient : Q;
  speech_rate_wpm : Q;
  formant_f1_hz : Q;
  formant_f2_hz : Q;
  expressiveness_score : Q
}.

(** [freqs[region]] and [magnitude[region]] for a region of frequencies. *)
Definition region_bins (lo hi : Q) (freqs magnitude : list Q) : list (Q * Q) :=
  List.filter (fun fm => Qle_bool lo (fst fm) && Qle_bool (fst fm) hi)
    (combine freqs magnitude).

(** The formant of a region: the frequency of its strongest bin, but 0 when
    the region is empty or that bin is the first of the region (the code
    tests [f1_idx > 0]). *)
Definition formant_of (lo hi : Q) (freqs magnitude : list Q) : Q :=
  let region := region_bins lo hi freqs magnitude in
  let idx :=
    match np_argmax (map snd region) with
    | Some i => i
    | None => 0%nat
    end in
  if (0 <? idx)%nat then nth idx (map fst region) 0 else 0.

(** The statistics of the pitch values, the speech rate from the number of
    onsets and the duration in [audio_properties] (which may be missing), the
    two formants and the expressiveness. *)
Definition voice_characteristics_of (pitch_values : list Q) (onsets : list Q)
    (duration : option Q) (freqs magnitude : list Q) : voice_characteristics :=
  let avg_pitch := match pitch_values with [] => 0 | _ :: _ => np_mean pitch_values end in
  let pitch_std := match pitch_values with [] => 0 | _ :: _ => np_std_val pitch_values end in
  let pitch_range :=
    match pitch_values with
    | [] => 0
    | _ :: _ => np_max pitch_values - np_min pitch_values
    end in
  let pitch_variation :=
    match pitch_values with
    | [] => 0
    | _ :: _ => if Qgtb avg_pitch 0 then pitch_std / avg_pitch else 0
    end in
  let speech_rate_wpm :=
    if Qgtb (default 0 duration) 0
    then inject_Z (py_len onsets) * 60 / default 1 duration
    else 0 in
  {| average_pitch_hz := avg_pitch;
     pitch_std := pitch_std;
     pitch_range := pitch_range;
     pitch_variation_coefficient := pitch_variation;
     speech_rate_wpm := speech_rate_wpm;
     formant_f1_hz := formant_of 500 800 freqs magnitude;
     formant_f2_hz := formant_of 1000 2500 freqs magnitude;
     expressiveness_score := py_min (pitch_variation * 2) 1.0 |}.

(** [None] is the ["error"] dictionary the [except] branch leaves. *)
Definition _analyze_voice_characteristics (frames : list (list Q * list Q))
    (onsets : list Q) (duration : option Q) (freqs magnitude : list Q)
  : option voice_characteristics :=
  match piptrack_pitch_values frames with
  | Some pitch_values =>
      Some (voice_characteristics_of pitch_values onsets duration freqs magnitude)
  | None => None
  end.

(** The dictionary [self.voice_characteristics] as the mapper reads it. *)
Definition voice_characteristics_dict (v : option voice_characteristics) : gmap string Q :=
  match v with
  | Some v =>
      <["pitch_variation_coefficient" := pitch_variation_coefficient v]>
      (<["expressiveness_score" := expressiveness_score v]>
      (<["average_pitch_hz" := average_pitch_hz v]>
      (<["pitch_std" := pitch_std v]>
      (<["pitch_range" := pitch_range v]>
      (<["speech_rate_wpm" := speech_rate_wpm v]>
      (<["formant_f1_hz" := formant_f1_hz v]>
      (<["formant_f2_hz" := formant_f2_hz v]> ∅)))))))
  | None => ∅
  end.

(** The numeric entries of [self.audio_quality] and [self.timing_analysis]
    that the mapper reads. *)
Definition audio_quality_dict (q : audio_quality) : gmap string Q :=
  <["clarity_score" := clarity_score q]>
  (<["low_freq_energy_ratio" := low_freq_energy_ratio q]>
  (<["mid_freq_energy_ratio" := mid_freq_energy_ratio q]>
  (<["high_freq_energy_ratio" := high_freq_energy_ratio q]> ∅))).

Definition timing_analysis_dict (t : timing_analysis) : gmap string Q :=
  <["average_pause_duration_seconds" := average_pause_duration_seconds t]>
  (<["min_pause_duration" := min_pause_duration t]>
  (<["max_pause_duration" := max_pause_duration t]> ∅)).

(** ** Pitch contour: [_extract_pitch_contour]

    [pyin] is what [librosa.pyin] returned, with a NaN at every unvoiced
    frame, or [None] when librosa has no [pyin] or the call raised;
    [piptrack] is what [librosa.piptrack] returned, or [None] when it
    raised. *)

(** [pitches[~np.isnan(pitches)]]. *)
Fixpoint drop_nan (pitches : list npfloat) : list Q :=
  match pitches with
  | [] => []
  | Fin p :: rest => p :: drop_nan rest
  | NaN :: rest => drop_nan rest
  end.

(** The fallback on piptrack; [[0.0]] stands for "no pitch". *)
Definition piptrack_contour (piptrack : option (list (list Q * list Q))) : list Q :=
  match piptrack with
  | Some frames =>
      match piptrack_pitch_values frames with
      | Some (p :: ps) => p :: ps
      | Some [] => [0]
      | None => [0]
      end
  | None => [0]
  end.

Definition _extract_pitch_contour (pyin : option (list npfloat))
    (piptrack : option (list (list Q * list Q))) : list Q :=
  match pyin with
  | Some pitches =>
      let valid_pitches := drop_nan pitches in
      if (0 <? py_len valid_pitches)%Z then valid_pitches
      else piptrack_contour piptrack
  | None => piptrack_contour piptrack
  end.

(** ** Onset sets *)

(** The onsets returned by onset detection are strictly increasing times. *)
Fixpoint strictly_increasing (l : list Q) : Prop :=
  match l with
  | a :: (b :: _) as tl => a < b /\ strictly_increasing tl
  | _ => True
  end.

Fixpoint non_decreasing (l : list Q) : Prop :=
  match l with
  | a :: (b :: _) as tl => a <= b /\ non_decreasing tl
  | _ => True
  end.

(** [f] is the frequency of a bin of the region than which no bin of the
    region is stronger. *)
Definition is_region_peak (lo hi : Q) (freqs magnitude : list Q) (f : Q) : Prop :=
  lo <= f <= hi /\
  exists m : Q,
    In (f, m) (region_bins lo hi freqs magnitude) /\
    Forall (fun fm => snd fm <= m) (region_bins lo hi freqs magnitude).

(** No bin of the region is stronger than its first one (or the region is
    empty). *)
Definition first_bin_strongest (lo hi : Q) (freqs magnitude : list Q) : Prop :=
  match region_bins lo hi freqs magnitude with
  | [] => True
  | (_, m0) :: rest => Forall (fun fm => snd fm <= m0) rest
  end.

(** ** Script opening and closing: [_analyze_script_pitch_patterns] *)

Module Script.

Record opening : Type := {
  start_pitch_hz : Q;
  opening_trajectory : string;
  opening_energy : Q;
  opening_seconds : Q
}.

Record closing : Type := {
  end_pitch_hz : Q;
  closing_trajectory : string;
  closing_energy : Q;
  closing_seconds : Q
}.

Record result : Type := {
  script_opening : opening;
  script_closing : closing
}.

Section WithAudio.

(** [_extract_pitch_contour(y, sr)]. *)
Variable _extract_pitch_contour : list Q -> list Q.
(** [np.mean(librosa.feature.rms(y=y)[0])]; [None] when the call raises. *)
Variable rms_mean : list Q -> option Q.
(** The sample rate. *)
Variable sr : Z.

Definition duration (y : list Q) : Q := inject_Z (py_len y) / inject_Z sr.

(** The first and the last 2 seconds, or 10% of the audio if that is less. *)
Definition opening_duration (y : list Q) : Q := py_min 2.0 (duration y * 0.1).
Definition closing_duration (y : list Q) : Q := py_min 2.0 (duration y * 0.1).

Definition opening_end (y : list Q) : Z :=
  Z.min (py_int (opening_duration y * inject_Z sr)) (py_len y).

Definition opening_y (y : list Q) : list Q := py_slice y None (Some (opening_end y)).

Definition closing_start (y : list Q) : Z :=
  Z.max 0 (py_len y - py_int (closing_duration y * inject_Z sr)).

Definition closing_y (y : list Q) : list Q := py_slice y (Some (closing_start y)) None.

(** The whole body is in a [try] block whose [except] branch leaves an
    ["error"] dictionary, [None] here.  [len(y) / sr] raises for a sample
    rate of 0, and the two calls of [librosa.feature.rms] can raise;
    [_extract_pitch_contour] catches what its own calls raise. *)
Definition _analyze_script_pitch_patterns (y : list Q) : option result :=
  if (sr =? 0)%Z then None
  else
    let opening_pitch := _extract_pitch_contour (opening_y y) in
    let opening_trajectory := _determine_pitch_trajectory opening_pitch in
    match rms_mean (opening_y y) with
    | None => None
    | Some opening_energy =>
        let closing_pitch := _extract_pitch_contour (closing_y y) in
        let closing_trajectory := _determine_pitch_trajectory closing_pitch in
        match rms_mean (closing_y y) with
        | None => None
        | Some closing_energy =>
            Some
              {| script_opening :=
                   {| start_pitch_hz :=
                        if (0 <? py_len opening_pitch)%Z then np_mean opening_pitch else 0.0;
                      opening_trajectory := opening_trajectory;
                      opening_energy := opening_energy;
                      opening_seconds := opening_duration y |};
                 script_closing :=
                   {| end_pitch_hz :=
                        if (0 <? py_len closing_pitch)%Z then np_mean closing_pitch else 0.0;
                      closing_trajectory := closing_trajectory;
                      closing_energy := closing_energy;
                      closing_seconds := closing_duration y |} |}
        end
    end.

End WithAudio.

End Script.

(** ** Flat settings: [get_dialogue_settings_version_a] *)

(** A copy of [DEFAULT_SETTINGS], whatever the dialogue. *)
Definition get_dialogue_settings_version_a (dialogue_index total_dialogues : nat)
    (text : string) : gmap string Q :=
  Comparison.DEFAULT_SETTINGS.

(** A report without any key: what [analysis_config or {}] is when no
    analysis was loaded. *)
Definition no_analysis : Comparison.analysis_config :=
  {| Comparison.recommended_elevenlabs_settings := None;
     Comparison.opening := None;
     Comparison.closing := None;
     Comparison.per_dialogue := [];
     Comparison.emotion_segments := [] |}.

(** A report with its ["script_opening"] and ["script_closing"] entries
    replaced. *)
Definition with_script_ends (o : option Comparison.script_opening)
    (c : option Comparison.script_closing) (cfg : Comparison.analysis_config)
  : Comparison.analysis_config :=
  {| Comparison.recommended_elevenlabs_settings :=
       Comparison.recommended_elevenlabs_settings cfg;
     Comparison.opening := o;
     Comparison.closing := c;
     Comparison.per_dialogue := Comparison.per_dialogue cfg;
     Comparison.emotion_segments := Comparison.emotion_segments cfg |}.

(** A report whose only content is a laughter segment of intensity 0.8 on
    the first dialogue. *)
Definition report_with_laughter : Comparison.analysis_config :=
  {| Comparison.recommended_elevenlabs_settings := None;
     Comparison.opening := None;
     Comparison.closing := None;
     Comparison.per_dialogue := [];
     Comparison.emotion_segments :=
       [ {| Comparison.seg_index := Some 0%Z;
            Comparison.seg_emotion_type := Some "laughter";
            Comparison.seg_intensity := Some 0.8 |} ] |}.

(** ** Silence statistics of [_analyze_timing_patterns]

    [rms] is the row of frame energies that [librosa.feature.rms] returned
    (at least one frame). *)

(** [np.sort], by insertion. *)
Fixpoint insert_sorted (x : Q) (l : list Q) : list Q :=
  match l with
  | [] => [x]
  | y :: l' => if Qle_bool x y then x :: l else y :: insert_sorted x l'
  end.

Definition np_sort (a : list Q) : list Q := fold_right insert_sorted [] a.

(** [np.percentile(a, q)] with numpy's default linear interpolation: the
    virtual index [(n - 1) * q / 100] in the sorted array, and between its two
    neighbours the point at the fractional part of the index; the upper
    neighbour is clipped to the last element. *)
Definition np_percentile (a : list Q) (q : Q) : Q :=
  let sorted := np_sort a in
  let virtual_index := inject_Z (py_len a - 1) * (q / 100) in
  let previous_index := Qfloor virtual_index in
  let gamma := virtual_index - inject_Z previous_index in
  let previous := nth (Z.to_nat previous_index) sorted 0 in
  let next := nth (Z.to_nat (previous_index + 1)) sorted previous in
  previous + (next - previous) * gamma.

Definition hop_length : Z := 512.

(** [librosa.frames_to_time(frame, sr=sr, hop_length=hop_length)]. *)
Definition frames_to_time (sr : Z) (frame : Z) : Q :=
  inject_Z (frame * hop_length) / inject_Z sr.

(** [rms < rms_threshold], frame by frame. *)
Definition silence_frames (rms : list Q) : list bool :=
  let rms_threshold := np_percentile rms 20 in
  map (fun x => Qgtb rms_threshold x) rms.

(** The number of entries of [l] that are below [t]. *)
Definition count_below (t : Q) (l : list Q) : nat :=
  length (List.filter (fun x => Qgtb t x) l).

(** [np.where(silence_frames)[0]]. *)
Definition np_where (mask : list bool) : list nat :=
  List.filter (fun i => nth i mask false) (seq 0 (length mask)).

(** The state of the loop over the frames. *)
Record silence_scan : Type := {
  silence_durations : list Q;
  current_silence_start : option Q
}.

Definition silence_step (sr : Z) (st : silence_scan) (frame : nat * bool) : silence_scan :=
  let '(i, is_silent) := frame in
  let time := frames_to_time sr (Z.of_nat i) in
  match is_silent, current_silence_start st with
  | true, None =>
      {| silence_durations := silence_durations st; current_silence_start := Some time |}
  | false, Some start =>
      {| silence_durations := silence_durations st ++ [time - start];
         current_silence_start := None |}
  | _, _ => st
  end.

(** The loop over [enumerate(silence_frames)]. *)
Definition scan_silence (sr : Z) (frames : list bool) : silence_scan :=
  fold_left (silence_step sr) (combine (seq 0 (length frames)) frames)
    {| silence_durations := []; current_silence_start := None |}.

(** The entry ["average_silence_duration"]. *)
Definition average_silence_duration (sr : Z) (rms : list Q) (avg_pause : Q) : Q :=
  let frames := silence_frames rms in
  let silence_times := map (fun i => frames_to_time sr (Z.of_nat i)) (np_where frames) in
  if (0 <? py_len silence_times)%Z then
    match silence_durations (scan_silence sr frames) with
    | [] => avg_pause
    | _ :: _ => np_mean (silence_durations (scan_silence sr frames))
    end
  else avg_pause.

(** Frames [j] to [i - 1] are a run of silent frames that ends within the
    recording: they are all silent, the frame before them, if there is one,
    is not silent, and frame [i] is not silent. *)
Definition silent_run (frames : list bool) (j i : nat) : Prop :=
  (j < i < length frames)%nat /\
  (forall k : nat, (j <= k < i)%nat -> nth k frames false = true) /\
  nth i frames true = false /\
  (j = 0%nat \/ nth (j - 1) frames true = false).

(** [time - current_silence_start], for a silence that starts at frame [j]
    and ends at frame [i]. *)
Definition run_duration (sr : Z) (j i : nat) : Q :=
  frames_to_time sr (Z.of_nat i) - frames_to_time sr (Z.of_nat j).

(** [d] is the duration recorded for a run of silent frames. *)
Definition recorded_run (sr : Z) (frames : list bool) (d : Q) : Prop :=
  exists j i : nat, silent_run frames j i /\ d = run_duration sr j i.

(** [d] is, in exact arithmetic, the time of a whole number of frames, at
    least one. *)
Definition whole_frames (sr : Z) (d : Q) : Prop :=
  exists r : Z, (1 <= r)%Z /\ d == frames_to_time sr r.

(** The invariant of the loop before frame [k]: every duration recorded so
    far is that of a run of silent frames, a silence that is under way
    started at an earlier frame and has lasted since, and when no silence is
    under way the frame before [k], if there is one, is not silent. *)
Definition scan_invariant (sr : Z) (frames : list bool) (k : nat) (st : silence_scan) : Prop :=
  Forall (recorded_run sr frames) (silence_durations st) /\
  match current_silence_start st with
  | None => k = 0%nat \/ nth (k - 1) frames true = false
  | Some start =>
      exists j : nat,
        (j < k)%nat /\ start = frames_to_time sr (Z.of_nat j) /\
        (forall m : nat, (j <= m < k)%nat -> nth m frames false = true) /\
        (j = 0%nat \/ nth (j - 1) frames true = false)
  end.

(** ** From the analysis report to the comparison script *)

(** An entry of ["emotion_segments"] as the comparison script reads it back
    from the JSON report. *)
Definition emotion_segment_entry (s : Emotion.segment) : Comparison.emotion_segment :=
  {| Comparison.seg_index := Some (Emotion.index s);
     Comparison.seg_emotion_type := Some (Emotion.emotion_type s);
     Comparison.seg_intensity := Some (Emotion.intensity s) |}.

(** A report that holds the emotion analysis and nothing else. *)
Definition report_with_emotions (a : Emotion.analysis) : Comparison.analysis_config :=
  {| Comparison.recommended_elevenlabs_settings := None;
     Comparison.opening := None;
     Comparison.closing := None;
     Comparison.per_dialogue := [];
     Comparison.emotion_segments := map emotion_segment_entry (Emotion.emotion_segments a) |}.

(** ** Text for the synthesiser: [clean_text_for_tts]

    Strings are sequences of ASCII characters, as for [lower]. *)

(** [\s], and the characters [str.strip] removes. *)
Definition is_space (c : ascii) : bool :=
  let n := nat_of_ascii c in
  ((9 <=? n)%nat && (n <=? 13)%nat) || ((28 <=? n)%nat && (n <=? 31)%nat) || (n =? 32)%nat.

(** Does the lower-case literal [pattern] match at the start of [s], whatever
    the case of the letters of [s]? *)
Fixpoint prefix_ci (pattern s : string) : bool :=
  match pattern, s with
  | EmptyString, _ => true
  | String _ _, EmptyString => false
  | String p pattern', String c s' =>
      Ascii.eqb p (Comparison.lower_ascii c) && prefix_ci pattern' s'
  end.

(** [re.sub(pattern, replacement, s, flags=re.IGNORECASE)] for a pattern that
    matches the literals [variants]: the text is scanned from the left, a
    match is replaced and the scan goes on after it.  [skip] counts the
    characters of a match that are still to be passed over. *)
Fixpoint sub_markers (variants : list string) (replacement : string) (skip : nat)
    (s : string) : string :=
  match s with
  | EmptyString => EmptyString
  | String c s' =>
      match skip with
      | S k => sub_markers variants replacement k s'
      | O =>
          match find (fun v => prefix_ci v s) variants with
          | Some v =>
              (replacement ++ sub_markers variants replacement (String.length v - 1) s')%string
          | None => String c (sub_markers variants replacement 0 s')
          end
      end
  end.

(** The dictionary [emotion_markers], in its order: the literals each
    pattern matches (the [?] makes the last letter optional) and the
    replacement. *)
Definition emotion_markers : list (list string * string) :=
  [ (["(laughs)"; "(laugh)"], "haha");
    (["(giggles)"; "(giggle)"], "hehe");
    (["(chuckles)"; "(chuckle)"], "heh");
    (["(surprised)"; "(surprise)"], "arey");
    (["(excited)"; "(excite)"], "");
    (["(thinking)"; "(thinkin)"], "hmm") ]%string.

(** Is there a closing parenthesis in [s]? *)
Fixpoint has_close (s : string) : bool :=
  match s with
  | EmptyString => false
  | String c s' => Ascii.eqb c ")" || has_close s'
  end.

(** [re.sub(r'\([^)]*\)', '', s)]: an opening parenthesis that has a closing
    one somewhere after it is removed with everything up to the first
    closing one.  [inside] tells that the scan is within such a match. *)
Fixpoint remove_parenthetical (inside : bool) (s : string) : string :=
  match s with
  | EmptyString => EmptyString
  | String c s' =>
      if inside then
        if Ascii.eqb c ")" then remove_parenthetical false s'
        else remove_parenthetical true s'
      else if Ascii.eqb c "(" && has_close s' then remove_parenthetical true s'
      else String c (remove_parenthetical false s')
  end.

(** [re.sub(r'\s+', ' ', s)]; [in_run] tells that the previous character was
    white space. *)
Fixpoint collapse_spaces (in_run : bool) (s : string) : string :=
  match s with
  | EmptyString => EmptyString
  | String c s' =>
      if is_space c then
        if in_run then collapse_spaces true s'
        else String " " (collapse_spaces true s')
      else String c (collapse_spaces false s')
  end.

(** [s.strip()]. *)
Fixpoint lstrip (s : string) : string :=
  match s with
  | EmptyString => EmptyString
  | String c s' => if is_space c then lstrip s' else s
  end.

Fixpoint rstrip (s : string) : string :=
  match s with
  | EmptyString => EmptyString
  | String c s' =>
      match rstrip s' with
      | EmptyString => if is_space c then EmptyString else String c EmptyString
      | String d r => String c (String d r)
      end
  end.

Definition strip (s : string) : string := rstrip (lstrip s).

Definition clean_text_for_tts (text : string) : string :=
  let cleaned :=
    fold_left (fun cleaned marker => sub_markers (fst marker) (snd marker) 0 cleaned)
      emotion_markers text in
  let cleaned := remove_parenthetical false cleaned in
  strip (collapse_spaces false cleaned).

(** The text has an opening parenthesis with a closing one after it. *)
Fixpoint has_pair (s : string) : bool :=
  match s with
  | EmptyString => false
  | String c s' => (Ascii.eqb c "(" && has_close s') || has_pair s'
  end.

(** A marker is an opening parenthesis followed by a text with a closing
    one: it matches only where the text has a parenthetical. *)
Definition marker_shape (v : string) : bool :=
  match v with
  | String p v' => Ascii.eqb p "(" && has_close v'
  | EmptyString => false
  end.

(** ** Binary64 arithmetic for the band ratios

    The ratios of [_analyze_audio_quality] once more, now with the rounding
    of binary64: every sum and every quotient is rounded to the nearest
    number with a significand of 53 bits, ties to the even one.  The
    exponent range is not modelled, so [fl] is the rounding of binary64 for
    results that are 0 or of a magnitude between 2^-1022 and 2^1024, where
    there is neither underflow nor overflow. *)

Module Binary64.

(** The rounding of a positive number: [x] lies in [2^(k-1), 2^(k+1)) for the
    [k] computed from the sizes of its numerator and denominator, and [e] is
    the exponent of the last of its 53 bits. *)
Definition round_positive (x : Q) : Q :=
  let k := (Z.log2 (Qnum x) - Z.log2 (Zpos (Qden x)))%Z in
  let e := if Qlt_le_dec x (2 ^ k) then (k - 53)%Z else (k - 52)%Z in
  inject_Z (round_half_even (x / 2 ^ e)) * 2 ^ e.

Definition fl (x : Q) : Q :=
  if Qlt_le_dec 0 x then round_positive x
  else if Qlt_le_dec x 0 then - round_positive (- x)
  else 0.

(** The unit roundoff, 2^-53. *)
Definition unit_roundoff : Q := 1 # 9007199254740992.

(** A band energy for which [fl] is the rounding of binary64 in all that
    follows. *)
Definition in_range (x : Q) : Prop :=
  x == 0 \/ 2 ^ (-500) <= x <= 2 ^ 500.

Section WithSum.

(** [np.sum] on binary64 numbers (numpy adds them up pairwise, rounding each
    partial sum). *)
Variable np_sum : list Q -> Q.

Definition masked_sum (mask : Q -> bool) (freqs magnitude : list Q) : Q :=
  np_sum (map snd (List.filter (fun fm => mask (fst fm)) (combine freqs magnitude))).

Definition low_energy (freqs magnitude : list Q) : Q :=
  masked_sum low_freq_mask freqs magnitude.
Definition mid_energy (freqs magnitude : list Q) : Q :=
  masked_sum mid_freq_mask freqs magnitude.
Definition high_energy (freqs magnitude : list Q) : Q :=
  masked_sum high_freq_mask freqs magnitude.

Definition total_energy (freqs magnitude : list Q) : Q :=
  fl (fl (low_energy freqs magnitude + mid_energy freqs magnitude)
      + high_energy freqs magnitude).

Definition _analyze_audio_quality (freqs magnitude : list Q) : audio_quality :=
  let total := total_energy freqs magnitude in
  {| low_freq_energy_ratio :=
       if Qlt_le_dec 0 total then fl (low_energy freqs magnitude / total) else 0;
     mid_freq_energy_ratio :=
       if Qlt_le_dec 0 total then fl (mid_energy freqs magnitude / total) else 0;
     high_freq_energy_ratio :=
       if Qlt_le_dec 0 total then fl (high_energy freqs magnitude / total) else 0;
     clarity_score :=
       if Qlt_le_dec 0 total then fl (mid_energy freqs magnitude / total) else 0.5 |}.

End WithSum.

End Binary64.

(** * Properties *)

(** Division by a numeral as a multiplication, which [lra] understands. *)
Ltac qconst_div :=
  unfold Qdiv in *;
  repeat match goal with
  | |- context [Qinv (Qmake ?n ?d)] =>
      let v := eval vm_compute in (Qinv (Qmake n d)) in
      change (Qinv (Qmake n d)) with v in *
  | H : context [Qinv (Qmake ?n ?d)] |- _ =>
      let v := eval vm_compute in (Qinv (Qmake n d)) in
      change (Qinv (Qmake n d)) with v in *
  end.

(** ** Clamping and rounding *)

Lemma py_clamp_bounds (lo hi x : Q) :
  lo <= hi -> lo <= py_max lo (py_min hi x) <= hi.
Proof.
  intros Hle. unfold py_max, py_min.
  destruct (Qlt_le_dec x hi); destruct (Qlt_le_dec lo _); lra.
Qed.

(** The clamp takes a NaN and the infinities into the range as well, and on
    finite numbers it is the clamp of the rational model. *)
Lemma x_clamp_bounds (lo hi : Q) (x : xfloat) :
  lo <= hi -> exists v : Q, x_clamp lo hi x = XFin v /\ lo <= v <= hi.
Proof.
  intros Hle. unfold x_clamp, x_max, x_min, x_lt, Qgtb.
  destruct x as [q | | |].
  - destruct (Qlt_le_dec q hi); destruct (Qlt_le_dec lo _);
      eexists; (split; [reflexivity | lra]).
  - destruct (Qlt_le_dec lo hi); eexists; (split; [reflexivity | lra]).
  - destruct (Qlt_le_dec lo hi); eexists; (split; [reflexivity | lra]).
  - eexists; (split; [reflexivity | lra]).
Qed.

Lemma x_clamp_finite (lo hi q : Q) :
  x_clamp lo hi (XFin q) = XFin (py_max lo (py_min hi q)).
Proof.
  unfold x_clamp, x_max, x_min, x_lt, Qgtb, py_max, py_min.
  destruct (Qlt_le_dec q hi); destruct (Qlt_le_dec lo _); reflexivity.
Qed.

Lemma round_half_even_between (a b : Z) (y : Q) :
  inject_Z a <= y <= inject_Z b -> (a <= round_half_even y <= b)%Z.
Proof.
  intros [Ha Hb].
  assert (Hfa : (a <= Qfloor y)%Z).
  { rewrite <- (Qfloor_Z a). now apply Qfloor_resp_le. }
  assert (Hfb : (Qfloor y <= b)%Z).
  { rewrite <- (Qfloor_Z b). now apply Qfloor_resp_le. }
  pose proof (Qfloor_le y) as Hfl.
  assert (Hup : (Qfloor y = b -> y == inject_Z (Qfloor y))%Z).
  { intros E. rewrite E in *. lra. }
  unfold round_half_even.
  destruct (Qcompare_spec (y - inject_Z (Qfloor y)) (1 # 2)) as [E | E | E].
  - destruct (Z.even (Qfloor y)); [lia |].
    destruct (Z.eq_dec (Qfloor y) b) as [Eb | Nb]; [| lia].
    specialize (Hup Eb). lra.
  - lia.
  - destruct (Z.eq_dec (Qfloor y) b) as [Eb | Nb]; [| lia].
    specialize (Hup Eb). lra.
Qed.

Lemma py_round2_between (a b : Z) (x : Q) :
  inject_Z a / 100 <= x <= inject_Z b / 100 ->
  inject_Z a / 100 <= py_round2 x <= inject_Z b / 100.
Proof.
  intros [Ha Hb]. unfold py_round2.
  destruct (round_half_even_between a b (x * 100)) as [H1 H2].
  { qconst_div. generalize dependent (inject_Z a). generalize dependent (inject_Z b).
    intros; lra. }
  rewrite Zle_Qle in H1, H2. qconst_div.
  generalize dependent (inject_Z (round_half_even (x * 100))).
  generalize dependent (inject_Z a). generalize dependent (inject_Z b).
  intros; lra.
Qed.

Lemma py_round2_clamped (lo hi x : Q) (a b : Z) :
  lo == inject_Z a / 100 -> hi == inject_Z b / 100 ->
  lo <= x <= hi -> lo <= py_round2 x <= hi.
Proof.
  intros Hlo Hhi Hx. rewrite Hlo, Hhi in *. now apply py_round2_between.
Qed.

(** ** Bounds of the voice settings *)

Lemma clamp_settings_in_bounds (d : gmap string Q) :
  dict_in_bounds (Comparison.clamp_settings d).
Proof.
  unfold dict_in_bounds, Comparison.clamp_settings.
  eexists _, _, _.
  repeat split.
  - rewrite lookup_insert_ne by done. rewrite lookup_insert_ne by done.
    apply lookup_insert_eq.
  - apply lookup_insert_eq.
  - rewrite lookup_insert_ne by done. apply lookup_insert_eq.
  - apply py_clamp_bounds. lra.
  - apply py_clamp_bounds. lra.
  - apply py_clamp_bounds. lra.
  - apply py_clamp_bounds. lra.
  - apply py_clamp_bounds. lra.
  - apply py_clamp_bounds. lra.
Qed.

(** *** Every adjustment keeps the controls within range *)

Lemma entries_in_bounds_get (d : gmap string Q) :
  entries_in_bounds d ->
  0.1 <= dict_get d "stability" 0.35 <= 0.9 /\
  0.3 <= dict_get d "similarity_boost" 0.75 <= 0.9 /\
  0.1 <= dict_get d "style" 0.55 <= 0.9.
Proof.
  intros (Hst & Hsb & Hsy). unfold dict_get.
  destruct (d !! "stability") as [v1 |] eqn:E1;
    destruct (d !! "similarity_boost") as [v2 |] eqn:E2;
    destruct (d !! "style") as [v3 |] eqn:E3; cbn;
    repeat split;
    try (apply (Hst _ eq_refl)); try (apply (Hsb _ eq_refl)); try (apply (Hsy _ eq_refl));
    lra.
Qed.

Lemma entries_in_bounds_style (d : gmap string Q) (v : Q) :
  entries_in_bounds d -> 0.1 <= v <= 0.9 -> entries_in_bounds (<["style" := v]> d).
Proof.
  intros (Hst & Hsb & Hsy) Hv. split; [| split]; intros w Hw.
  - rewrite lookup_insert_ne in Hw by done. now apply Hst.
  - rewrite lookup_insert_ne in Hw by done. now apply Hsb.
  - rewrite lookup_insert_eq in Hw. injection Hw as <-. apply Hv.
Qed.

Lemma entries_in_bounds_stability (d : gmap string Q) (v : Q) :
  entries_in_bounds d -> 0.1 <= v <= 0.9 -> entries_in_bounds (<["stability" := v]> d).
Proof.
  intros (Hst & Hsb & Hsy) Hv. split; [| split]; intros w Hw.
  - rewrite lookup_insert_eq in Hw. injection Hw as <-. apply Hv.
  - rewrite lookup_insert_ne in Hw by done. now apply Hsb.
  - rewrite lookup_insert_ne in Hw by done. now apply Hsy.
Qed.

(** A control that is within range stays there under a nudge that is cut
    off at the bound it moves towards. *)
Lemma nudge_up_bounds (x delta : Q) :
  0.1 <= x <= 0.9 -> 0 <= delta -> 0.1 <= py_min 0.9 (x + delta) <= 0.9.
Proof. intros [H1 H2] Hd. unfold py_min. destruct (Qlt_le_dec _ _); lra. Qed.

Lemma nudge_down_bounds (x delta : Q) :
  0.1 <= x <= 0.9 -> 0 <= delta -> 0.1 <= py_max 0.1 (x - delta) <= 0.9.
Proof. intros [H1 H2] Hd. unfold py_max. destruct (Qlt_le_dec _ _); lra. Qed.

Ltac nudge :=
  repeat first
    [ apply entries_in_bounds_style
    | apply entries_in_bounds_stability
    | assumption
    | apply nudge_up_bounds; [| lra]
    | apply nudge_down_bounds; [| lra]
    | match goal with
      | |- _ <= dict_get ?d "style" _ <= _ =>
          apply (entries_in_bounds_get d)
      | |- _ <= dict_get ?d "stability" _ <= _ =>
          apply (entries_in_bounds_get d)
      end ].

Lemma apply_opening_in_bounds (idx : nat) (cfg : Comparison.analysis_config)
    (d : gmap string Q) :
  entries_in_bounds d -> entries_in_bounds (Comparison.apply_opening idx cfg d).
Proof.
  intros Hd. unfold Comparison.apply_opening.
  destruct (Comparison.opening cfg) as [o |]; [| assumption].
  destruct (Z.of_nat idx =? 0)%Z; [| assumption].
  destruct (Comparison.is_label _ "rising"); [| destruct (Comparison.is_label _ "falling")];
    destruct (Qgtb _ 180); nudge.
Qed.

Lemma apply_closing_in_bounds (idx total : nat) (cfg : Comparison.analysis_config)
    (d : gmap string Q) :
  entries_in_bounds d -> entries_in_bounds (Comparison.apply_closing idx total cfg d).
Proof.
  intros Hd. unfold Comparison.apply_closing.
  destruct (Comparison.closing cfg) as [c |]; [| assumption].
  destruct (Z.of_nat idx =? Z.of_nat total - 1)%Z; [| assumption].
  destruct (Comparison.is_label _ "falling"); destruct (Qgtb 170 _); nudge.
Qed.

Lemma apply_per_dialogue_in_bounds (idx : nat) (cfg : Comparison.analysis_config)
    (d : gmap string Q) :
  entries_in_bounds d -> entries_in_bounds (Comparison.apply_per_dialogue idx cfg d).
Proof.
  intros Hd. unfold Comparison.apply_per_dialogue.
  destruct (nth_error _ idx) as [dp |]; [| assumption].
  destruct (String.eqb _ "falling"); [| destruct (String.eqb _ "rising")];
    (destruct (Qgtb _ 0 && Qgtb _ 0); [| nudge]);
    (destruct (Qgtb _ 10); [| destruct (Qgtb (-10) _)]); nudge.
Qed.

Lemma apply_text_emotion_in_bounds (text : string) (d : gmap string Q) :
  entries_in_bounds d -> entries_in_bounds (Comparison.apply_text_emotion text d).
Proof.
  intros Hd. unfold Comparison.apply_text_emotion.
  destruct (Comparison.is_label _ "laughter");
    [| destruct (Comparison.is_label _ "excitement")]; nudge; lra.
Qed.

(** The emotion segments write [max(0.1, 0.3 - intensity * 0.1)] and the
    like, cut off on one side only: these stay within range for the
    intensities the analyser produces, which lie between 0 and 1. *)
Lemma apply_emotion_segment_in_bounds (idx : nat) (d : gmap string Q)
    (seg : Comparison.emotion_segment) :
  0 <= default 0.5 (Comparison.seg_intensity seg) <= 1 ->
  entries_in_bounds d -> entries_in_bounds (Comparison.apply_emotion_segment idx d seg).
Proof.
  intros [Hi0 Hi1] Hd. unfold Comparison.apply_emotion_segment.
  destruct (bool_decide _); [| assumption].
  set (i := default 0.5 (Comparison.seg_intensity seg)) in *. clearbody i.
  destruct (Comparison.is_label _ "laughter");
    [| destruct (Comparison.is_label _ "excitement")]; nudge;
    try lra; unfold py_max, py_min; destruct (Qlt_le_dec _ _); lra.
Qed.

Lemma emotion_segments_in_bounds (idx : nat) (segs : list Comparison.emotion_segment)
    (d : gmap string Q) :
  Forall (fun seg => 0 <= default 0.5 (Comparison.seg_intensity seg) <= 1) segs ->
  entries_in_bounds d ->
  entries_in_bounds (fold_left (Comparison.apply_emotion_segment idx) segs d).
Proof.
  intros H. revert d. induction H as [| seg segs Hseg _ IH]; intros d Hd; cbn [fold_left].
  - assumption.
  - apply IH. now apply apply_emotion_segment_in_bounds.
Qed.

Lemma DEFAULT_SETTINGS_in_bounds : entries_in_bounds Comparison.DEFAULT_SETTINGS.
Proof.
  unfold Comparison.DEFAULT_SETTINGS. split; [| split]; intros v Hv;
    repeat (rewrite lookup_insert_ne in Hv by done);
    rewrite lookup_insert_eq in Hv; injection Hv as <-; lra.
Qed.

(** The invariant behind the final clamp: starting from base settings that
    are within range, every rule of the override function leaves them within
    range, step after step. *)
Lemma every_adjustment_keeps_bounds (idx total : nat) (text : string)
    (cfg : Comparison.analysis_config) :
  let base := default Comparison.DEFAULT_SETTINGS
                (Comparison.recommended_elevenlabs_settings cfg) in
  let b1 := Comparison.apply_opening idx cfg base in
  let b2 := Comparison.apply_closing idx total cfg b1 in
  let b3 := Comparison.apply_per_dialogue idx cfg b2 in
  let b4 := Comparison.apply_text_emotion text b3 in
  let b5 := fold_left (Comparison.apply_emotion_segment idx)
              (Comparison.emotion_segments cfg) b4 in
  entries_in_bounds base ->
  Forall (fun seg => 0 <= default 0.5 (Comparison.seg_intensity seg) <= 1)
    (Comparison.emotion_segments cfg) ->
  entries_in_bounds b1 /\ entries_in_bounds b2 /\ entries_in_bounds b3 /\
  entries_in_bounds b4 /\ entries_in_bounds b5.
Proof.
  intros base b1 b2 b3 b4 b5 Hbase Hsegs.
  assert (H1 : entries_in_bounds b1) by now apply apply_opening_in_bounds.
  assert (H2 : entries_in_bounds b2) by now apply apply_closing_in_bounds.
  assert (H3 : entries_in_bounds b3) by now apply apply_per_dialogue_in_bounds.
  assert (H4 : entries_in_bounds b4) by now apply apply_text_emotion_in_bounds.
  split; [exact H1 |]. split; [exact H2 |]. split; [exact H3 |]. split; [exact H4 |].
  now apply emotion_segments_in_bounds.
Qed.

Lemma mapper_in_bounds (vc aq ta : gmap string Q) (rate : option Z) :
  settings_in_bounds (_map_to_elevenlabs_settings vc aq ta rate).
Proof.
  unfold settings_in_bounds, _map_to_elevenlabs_settings. cbn [stability similarity_boost style].
  split; [| split].
  - apply (py_round2_clamped _ _ _ 10 90); [reflexivity | reflexivity |].
    apply py_clamp_bounds. lra.
  - apply (py_round2_clamped _ _ _ 30 90); [reflexivity | reflexivity |].
    apply py_clamp_bounds. lra.
  - apply (py_round2_clamped _ _ _ 10 90); [reflexivity | reflexivity |].
    apply py_clamp_bounds. lra.
Qed.

Lemma settings_dict_in_bounds (s : voice_settings) :
  settings_in_bounds s -> entries_in_bounds (settings_dict s).
Proof.
  intros (Hst & Hsb & Hsy). unfold settings_dict. split; [| split]; intros v Hv;
    repeat (rewrite lookup_insert_ne in Hv by done);
    rewrite lookup_insert_eq in Hv; injection Hv as <-; assumption.
Qed.

(** C1.  Whatever the analysis dictionaries hold (any rationals, or missing
    entries), the record of the parameter mapper has stability and style in
    [0.1, 0.9] and similarity_boost in [0.3, 0.9]; so has the record of its
    fallback branch; and for every dialogue index, dialogue count, text and
    analysis report (any base settings, trajectories, boundary pitches and
    emotion segments), the per-dialogue override dictionary holds the three
    controls within the same ranges. *)
Theorem voice_settings_within_bounds :
  (forall (vc aq ta : gmap string Q) (rate : option Z),
     settings_in_bounds (_map_to_elevenlabs_settings vc aq ta rate)) /\
  settings_in_bounds fallback_settings /\
  (forall (dialogue_index total_dialogues : nat) (text : string)
          (cfg : Comparison.analysis_config),
     dict_in_bounds
       (Comparison.get_dialogue_settings_version_b
          dialogue_index total_dialogues text cfg)).
Proof.
  split; [| split].
  - apply mapper_in_bounds.
  - unfold settings_in_bounds, fallback_settings. cbn. lra.
  - intros. unfold Comparison.get_dialogue_settings_version_b.
    apply clamp_settings_in_bounds.
Qed.

(** ** Python slices *)

Lemma py_slice_prefix {A : Type} (l : list A) (k : Z) :
  (0 <= k <= py_len l)%Z ->
  py_slice l None (Some k) = firstn (Z.to_nat k) l.
Proof.
  intros Hk. unfold py_slice, py_index, py_len in *.
  destruct (Z.ltb_spec k 0); [lia |].
  rewrite Z.min_l, Z.sub_0_r by lia. reflexivity.
Qed.

Lemma py_slice_suffix {A : Type} (l : list A) (k : Z) :
  (0 < k <= py_len l)%Z ->
  py_slice l (Some (- k)%Z) None = skipn (length l - Z.to_nat k) l.
Proof.
  intros Hk. unfold py_slice, py_index, py_len in *.
  destruct (Z.ltb_spec (- k) 0); [| lia].
  rewrite Z.max_l by lia.
  replace (Z.to_nat (- k + Z.of_nat (length l))) with (length l - Z.to_nat k)%nat by lia.
  apply firstn_all2. rewrite length_skipn. lia.
Qed.

Lemma py_third (n : nat) : Z.to_nat (Z.of_nat n / 3) = (n / 3)%nat.
Proof.
  change 3%Z with (Z.of_nat 3). rewrite <- Nat2Z.inj_div. apply Nat2Z.id.
Qed.

Lemma py_third_bounds (n : nat) :
  (3 <= n)%nat -> (0 < Z.of_nat n / 3 <= Z.of_nat n)%Z.
Proof.
  intros Hn. split.
  - apply Z.div_str_pos. lia.
  - apply Z.div_le_upper_bound; lia.
Qed.

(** ** Trajectory classification *)

Lemma trajectory_by_thirds (contour : list Q) :
  _determine_pitch_trajectory contour = trajectory_spec contour.
Proof.
  unfold _determine_pitch_trajectory, trajectory_spec, trajectory_of_means,
    first_third_mean, last_third_mean, py_len.
  destruct (Z.ltb_spec (Z.of_nat (length contour)) 3) as [Hlt | Hge].
  - destruct (Nat.ltb_spec (length contour) 3) as [_ | Hge]; [reflexivity | lia].
  - destruct (Nat.ltb_spec (length contour) 3) as [Hlt | _]; [lia |].
    assert (Hn : (3 <= length contour)%nat) by lia.
    pose proof (py_third_bounds _ Hn) as Hthird.
    destruct (Z.ltb_spec 0 (Z.of_nat (length contour) / 3)) as [_ | Hbad]; [| lia].
    rewrite py_slice_prefix by (unfold py_len; lia).
    rewrite py_slice_suffix by (unfold py_len; lia).
    rewrite py_third. cbn [orb].
    destruct (_ || _); [reflexivity |].
    set (change := (_ - _) / _).
    destruct (Qlt_le_dec 0.1 change), (Qlt_le_dec 0.10 change),
      (Qlt_le_dec change (-0.1)), (Qlt_le_dec change (-0.10));
      try reflexivity; exfalso; lra.
Qed.

(** C3.  The trajectory of a pitch contour is the one the design document
    describes: "stable" when the contour has fewer than three samples or the
    mean of its first or of its last third (the first and the last [n/3]
    samples, integer division) is zero; otherwise, with
    [change = (last mean - first mean) / first mean], "rising" when
    [change > 0.10], "falling" when [change < -0.10], and "stable" in
    between. *)
Theorem determine_pitch_trajectory_meets_spec (contour : list Q) :
  _determine_pitch_trajectory contour = trajectory_spec contour.
Proof. apply trajectory_by_thirds. Qed.

(** *** Sums and means *)

Lemma fold_left_Qplus (l : list Q) (a : Q) :
  fold_left Qplus l a == a + np_sum l.
Proof.
  unfold np_sum. revert a. induction l as [| x l IH]; intros a; simpl.
  - lra.
  - rewrite (IH (a + x)), (IH (0 + x)). lra.
Qed.

Lemma np_sum_cons (x : Q) (l : list Q) : np_sum (x :: l) == x + np_sum l.
Proof. unfold np_sum at 1. simpl. rewrite fold_left_Qplus. lra. Qed.

Lemma np_sum_app (l1 l2 : list Q) : np_sum (l1 ++ l2) == np_sum l1 + np_sum l2.
Proof.
  unfold np_sum at 1. rewrite fold_left_app, fold_left_Qplus. reflexivity.
Qed.

Lemma np_sum_rev (l : list Q) : np_sum (rev l) == np_sum l.
Proof.
  induction l as [| x l IH]; simpl.
  - reflexivity.
  - rewrite np_sum_app, IH, !np_sum_cons. change (np_sum []) with 0. lra.
Qed.

Lemma np_mean_rev (l : list Q) : np_mean (rev l) == np_mean l.
Proof.
  unfold np_mean, py_len. rewrite length_rev, np_sum_rev. reflexivity.
Qed.

Lemma np_sum_nonneg (l : list Q) : Forall (Qle 0) l -> 0 <= np_sum l.
Proof.
  induction 1 as [| x l Hx _ IH].
  - unfold np_sum. simpl. lra.
  - rewrite np_sum_cons. lra.
Qed.

Lemma np_mean_nonneg (l : list Q) : Forall (Qle 0) l -> 0 <= np_mean l.
Proof.
  intros Hl. unfold np_mean, py_len, Qdiv.
  apply Qmult_le_0_compat; [apply np_sum_nonneg; assumption |].
  apply Qinv_le_0_compat. change 0 with (inject_Z 0). rewrite <- Zle_Qle. lia.
Qed.

(** *** Reversal and flat contours *)

Lemma first_third_mean_rev (c : list Q) :
  first_third_mean (rev c) == last_third_mean c.
Proof.
  unfold first_third_mean, last_third_mean.
  rewrite length_rev, firstn_rev. apply np_mean_rev.
Qed.

Lemma last_third_mean_rev (c : list Q) :
  last_third_mean (rev c) == first_third_mean c.
Proof.
  unfold first_third_mean, last_third_mean.
  rewrite length_rev, skipn_rev.
  assert (Hk : (length c / 3 <= length c)%nat) by (apply Nat.Div0.div_le_upper_bound; lia).
  replace (length c - (length c - length c / 3))%nat with (length c / 3)%nat by lia.
  apply np_mean_rev.
Qed.

Lemma trajectory_of_means_proper (n : nat) (s s' e e' : Q) :
  s == s' -> e == e' ->
  trajectory_of_means n s e = trajectory_of_means n s' e'.
Proof.
  intros Hs He. unfold trajectory_of_means.
  assert (E1 : Qeq_bool s 0 = Qeq_bool s' 0).
  { destruct (Qeq_bool s 0) eqn:A, (Qeq_bool s' 0) eqn:B; try reflexivity.
    - apply Qeq_bool_iff in A. apply Qeq_bool_neq in B. lra.
    - apply Qeq_bool_iff in B. apply Qeq_bool_neq in A. lra. }
  assert (E2 : Qeq_bool e 0 = Qeq_bool e' 0).
  { destruct (Qeq_bool e 0) eqn:A, (Qeq_bool e' 0) eqn:B; try reflexivity.
    - apply Qeq_bool_iff in A. apply Qeq_bool_neq in B. lra.
    - apply Qeq_bool_iff in B. apply Qeq_bool_neq in A. lra. }
  rewrite E1, E2. destruct (_ || _ || _); [reflexivity |].
  assert (Hc : (e - s) / s == (e' - s') / s') by (rewrite Hs, He; reflexivity).
  cbv zeta.
  destruct (Qlt_le_dec 0.10 ((e - s) / s)), (Qlt_le_dec 0.10 ((e' - s') / s')),
    (Qlt_le_dec ((e - s) / s) (-0.10)), (Qlt_le_dec ((e' - s') / s') (-0.10));
    try reflexivity; exfalso; lra.
Qed.

Lemma trajectory_rev (c : list Q) :
  _determine_pitch_trajectory (rev c)
  = trajectory_of_means (length c) (last_third_mean c) (first_third_mean c).
Proof.
  rewrite trajectory_by_thirds. unfold trajectory_spec. rewrite length_rev.
  apply trajectory_of_means_proper.
  - apply first_third_mean_rev.
  - apply last_third_mean_rev.
Qed.

(** What each label says about the two means, when both are non-negative. *)
Lemma trajectory_of_means_cases (n : nat) (s e : Q) :
  0 <= s -> 0 <= e ->
  (trajectory_of_means n s e = "rising" /\ (3 <= n)%nat /\ 0 < s /\ 0 < e /\ 1.1 * s < e) \/
  (trajectory_of_means n s e = "falling" /\ (3 <= n)%nat /\ 0 < s /\ 0 < e /\ e < 0.9 * s) \/
  (trajectory_of_means n s e = "stable" /\
   ((n < 3)%nat \/ s == 0 \/ e == 0 \/ (0 < s /\ 0.9 * s <= e <= 1.1 * s))).
Proof.
  intros Hs He. unfold trajectory_of_means.
  destruct (Nat.ltb_spec n 3) as [Hn | Hn]; cbn [orb].
  { right; right. split; [reflexivity | left; assumption]. }
  destruct (Qeq_bool s 0) eqn:Es; cbn [orb].
  { right; right. apply Qeq_bool_iff in Es. split; [reflexivity | right; left; assumption]. }
  destruct (Qeq_bool e 0) eqn:Ee.
  { right; right. apply Qeq_bool_iff in Ee.
    split; [reflexivity | right; right; left; assumption]. }
  apply Qeq_bool_neq in Es, Ee.
  assert (Hs' : 0 < s) by lra. assert (He' : 0 < e) by lra.
  assert (Hr : (e - s) / s * s == e - s) by (field; lra).
  cbv zeta. set (r := (e - s) / s) in *.
  destruct (Qlt_le_dec 0.10 r) as [H1 | H1].
  { left. repeat split; try assumption. nra. }
  destruct (Qlt_le_dec r (-0.10)) as [H2 | H2].
  { right; left. repeat split; try assumption. nra. }
  right; right. split; [reflexivity |]. do 3 right. split; [assumption |]. split; nra.
Qed.

Lemma trajectory_of_means_flat (n : nat) (s : Q) :
  trajectory_of_means n s s = "stable".
Proof.
  unfold trajectory_of_means. destruct (_ || _ || _); [reflexivity |].
  assert (Hc : (s - s) / s == 0).
  { unfold Qdiv. assert (E : s - s == 0) by lra. rewrite E. apply Qmult_0_l. }
  cbv zeta.
  destruct (Qlt_le_dec 0.10 ((s - s) / s)); [exfalso; lra |].
  destruct (Qlt_le_dec ((s - s) / s) (-0.10)); [exfalso; lra | reflexivity].
Qed.

Lemma third_means_nonneg (c : list Q) :
  Forall (Qle 0) c -> 0 <= first_third_mean c /\ 0 <= last_third_mean c.
Proof.
  intros Hc. unfold first_third_mean, last_third_mean. split; apply np_mean_nonneg.
  - now apply Forall_take.
  - now apply Forall_drop.
Qed.

(** C4, as the code has it.  Every constant contour is "stable".  Reversing
    a contour of non-negative pitches turns "falling" into "rising"; it
    turns "rising" into "falling" only when the first-third mean is below
    0.9 times the last-third mean (a rise of more than one ninth), and into
    "stable" otherwise: the change is measured relative to the mean the
    contour starts with, so the 10% band is not symmetric. *)
Theorem trajectory_under_reversal :
  (forall (v : Q) (n : nat),
     _determine_pitch_trajectory (replicate n v) = "stable") /\
  (forall contour : list Q,
     Forall (Qle 0) contour ->
     (_determine_pitch_trajectory contour = "falling" ->
      _determine_pitch_trajectory (rev contour) = "rising") /\
     (_determine_pitch_trajectory contour = "rising" ->
      _determine_pitch_trajectory (rev contour)
      = if Qlt_le_dec (first_third_mean contour) (0.9 * last_third_mean contour)
        then "falling" else "stable")).
Proof.
  split.
  - intros v n. rewrite trajectory_by_thirds.
    unfold trajectory_spec, first_third_mean, last_third_mean.
    rewrite length_replicate, take_replicate, drop_replicate.
    assert (Hk : (n / 3 <= n)%nat) by (apply Nat.Div0.div_le_upper_bound; lia).
    replace (Nat.min (n / 3) n) with (n / 3)%nat by lia.
    replace (n - (n - n / 3))%nat with (n / 3)%nat by lia.
    apply trajectory_of_means_flat.
  - intros c Hc. destruct (third_means_nonneg c Hc) as [Hs He].
    rewrite trajectory_rev, trajectory_by_thirds. unfold trajectory_spec.
    set (s := first_third_mean c) in *. set (e := last_third_mean c) in *.
    destruct (trajectory_of_means_cases (length c) s e Hs He)
      as [(L & Hn & Hs' & He' & H) | [(L & Hn & Hs' & He' & H) | (L & H)]];
    destruct (trajectory_of_means_cases (length c) e s He Hs)
      as [(L' & Hn' & _ & _ & H') | [(L' & Hn' & _ & _ & H')
          | (L' & [H' | [H' | [H' | (_ & H' & H'')]]])]];
    rewrite L, L'; split; intros Hlab; try discriminate Hlab;
    destruct (Qlt_le_dec s (0.9 * e)); try reflexivity; exfalso;
    solve [lia | lra].
Qed.

Lemma trajectory_under_reversal_witness :
  Forall (Qle 0) [220; 200; 150] /\
  _determine_pitch_trajectory [220; 200; 150] = "falling" /\
  _determine_pitch_trajectory (rev [220; 200; 150]) = "rising".
Proof.
  assert (H : Forall (Qle 0) [220; 200; 150]).
  { repeat constructor; unfold Qle; simpl; lia. }
  split; [exact H |]. split; [reflexivity |].
  apply (proj1 (proj2 trajectory_under_reversal [220; 200; 150] H)). reflexivity.
Defined.

(** C4 as stated fails: this rising contour (a rise of 10.5%) read backwards
    is a fall of 9.5% only, which is "stable", not "falling". *)
Lemma rising_contour_reversed_is_stable :
  _determine_pitch_trajectory [100; 100; 110.5] = "rising" /\
  _determine_pitch_trajectory (rev [100; 100; 110.5]) = "stable".
Proof. split; reflexivity. Qed.

(** ** Timing statistics *)

Lemma pause_durations_length (onsets : list Q) :
  length (pause_durations_of onsets) = (length onsets - 1)%nat.
Proof.
  unfold pause_durations_of, py_len.
  destruct (Z.ltb_spec 1 (Z.of_nat (length onsets))).
  - rewrite length_map, length_seq. lia.
  - simpl. lia.
Qed.

Lemma pause_durations_none (onsets : list Q) :
  (length onsets <= 1)%nat -> pause_durations_of onsets = [].
Proof.
  intros H. apply length_zero_iff_nil. rewrite pause_durations_length. lia.
Qed.

Lemma pause_durations_two (a b : Q) : pause_durations_of [a; b] = [b - a].
Proof. reflexivity. Qed.

(** C7.  With no onset or a single one there is no pause to measure, and the
    three pause statistics are the fallback constants: minimum 0.1 s,
    average 0.3 s, maximum 1.0 s. *)
Theorem timing_fallback_constants (onsets : list Q) :
  (length onsets <= 1)%nat ->
  min_pause_duration (_analyze_timing_patterns onsets) = 0.1 /\
  average_pause_duration_seconds (_analyze_timing_patterns onsets) = 0.3 /\
  max_pause_duration (_analyze_timing_patterns onsets) = 1.0.
Proof.
  intros H. unfold _analyze_timing_patterns.
  rewrite (pause_durations_none onsets H). cbn. repeat split.
Qed.

Lemma timing_fallback_constants_witness :
  min_pause_duration (_analyze_timing_patterns [2.5]) = 0.1 /\
  average_pause_duration_seconds (_analyze_timing_patterns [2.5]) = 0.3 /\
  max_pause_duration (_analyze_timing_patterns [2.5]) = 1.0.
Proof. apply (timing_fallback_constants [2.5]). simpl. lia. Defined.

(** *** Rhythm regularity *)

Lemma np_sqrt_zero (x : Q) : x == 0 -> np_sqrt x == 0.
Proof.
  intros Hx. unfold np_sqrt. rewrite (Qred_complete x 0 Hx). reflexivity.
Qed.

(** The rational root is the true root rounded down by less than one step:
    its square does not exceed the argument, and the square of the next
    value does. *)
Lemma np_sqrt_nonneg (x : Q) : 0 <= np_sqrt x.
Proof.
  unfold np_sqrt, Qle. cbn [Qnum Qden]. rewrite Z.mul_1_r. cbn.
  apply Z.sqrt_nonneg.
Qed.

Lemma np_sqrt_lower (x : Q) : 0 <= x -> np_sqrt x * np_sqrt x <= x.
Proof.
  intros Hx. apply Qle_trans with (Qred x); [| rewrite Qred_correct; apply Qle_refl].
  assert (Hr : 0 <= Qred x) by now rewrite Qred_correct.
  unfold np_sqrt. destruct (Qred x) as [a b].
  unfold Qle in Hr. cbn [Qnum Qden] in Hr.
  unfold Qle, Qmult. cbn [Qnum Qden].
  rewrite !Pos2Z.inj_mul.
  set (K := Z.pos (2 ^ 53)).
  assert (HK : (2 ^ 106 = K * K)%Z) by reflexivity. rewrite HK.
  assert (HKpos : (0 < K)%Z) by reflexivity. clearbody K.
  pose proof (Z.sqrt_spec (a * Z.pos b * (K * K))) as Hs.
  set (s := Z.sqrt _) in *.
  assert (Hb : (0 < Z.pos b)%Z) by lia. set (B := Z.pos b) in *. clearbody B s.
  assert (H : (0 <= a * B * (K * K))%Z) by nia. destruct (Hs H) as [Hlo _].
  apply Z.le_trans with (a * B * (K * K) * B)%Z.
  - apply Z.mul_le_mono_nonneg_r; lia.
  - apply Z.eq_le_incl. ring.
Qed.

Lemma np_sqrt_upper (x : Q) :
  0 <= x -> x < (np_sqrt x + np_sqrt_step x) * (np_sqrt x + np_sqrt_step x).
Proof.
  intros Hx. apply Qle_lt_trans with (Qred x); [rewrite Qred_correct; apply Qle_refl |].
  assert (Hr : 0 <= Qred x) by now rewrite Qred_correct.
  unfold np_sqrt, np_sqrt_step. destruct (Qred x) as [a b].
  unfold Qle in Hr. cbn [Qnum Qden] in Hr.
  assert (Hsum : forall (s : Z) (d : positive), (s # d) + (1 # d) == (s + 1 # d)).
  { intros s d. unfold Qeq, Qplus. cbn [Qnum Qden]. rewrite !Pos2Z.inj_mul. ring. }
  rewrite Hsum. unfold Qlt, Qmult. cbn [Qnum Qden].
  rewrite !Pos2Z.inj_mul.
  set (K := Z.pos (2 ^ 53)).
  assert (HK : (2 ^ 106 = K * K)%Z) by reflexivity. rewrite HK.
  assert (HKpos : (0 < K)%Z) by reflexivity. clearbody K.
  pose proof (Z.sqrt_spec (a * Z.pos b * (K * K))) as Hs.
  set (s := Z.sqrt _) in *.
  assert (Hb : (0 < Z.pos b)%Z) by lia. set (B := Z.pos b) in *. clearbody B s.
  assert (H : (0 <= a * B * (K * K))%Z) by nia. destruct (Hs H) as [_ Hhi].
  apply Z.le_lt_trans with (a * B * (K * K) * B)%Z.
  - apply Z.eq_le_incl. ring.
  - apply Z.mul_lt_mono_pos_r; [lia |]. unfold Z.succ in Hhi. exact Hhi.
Qed.

Lemma np_var_single (p : Q) : np_var [p] == 0.
Proof.
  unfold np_var, np_mean, np_sum, py_len. cbn [map fold_left length].
  change (inject_Z (Z.of_nat 1)) with 1. unfold Qdiv. change (/ 1) with 1. ring.
Qed.

Lemma np_mean_single (p : Q) : np_mean [p] == p.
Proof.
  unfold np_mean, np_sum, py_len. cbn [fold_left length].
  change (inject_Z (Z.of_nat 1)) with 1. unfold Qdiv. change (/ 1) with 1. ring.
Qed.

(** C2, as the code has it.  With at least two onsets (at least one pause):
    when the mean pause is positive the regularity is 1 minus the standard
    deviation of the pauses divided by their mean; when it is not, the
    regularity is the default 0.5; and with exactly one pause, of positive
    length, the deviation is 0 and the regularity is 1. *)
Theorem rhythm_regularity_of_pauses (onsets : list Q) :
  (2 <= length onsets)%nat ->
  let pauses := pause_durations_of onsets in
  let regularity := speech_rhythm_regularity (_analyze_timing_patterns onsets) in
  (0 < np_mean pauses ->
   regularity = Fin (1.0 - np_std_val pauses / np_mean pauses)) /\
  (np_mean pauses <= 0 -> regularity = Fin 0.5) /\
  (length onsets = 2%nat -> 0 < np_mean pauses -> npfloat_is regularity 1).
Proof.
  intros Hlen pauses regularity.
  assert (Hne : exists p ps, pauses = p :: ps).
  { pose proof (pause_durations_length onsets) as Hl. fold pauses in Hl.
    destruct pauses as [| p ps]; [simpl in Hl; lia | eauto]. }
  destruct Hne as (p & ps & Hp).
  assert (Hreg : regularity =
                 if Qlt_le_dec 0 (np_mean pauses)
                 then Fin (1.0 - np_std_val pauses / np_mean pauses) else Fin 0.5).
  { unfold regularity, _analyze_timing_patterns. fold pauses. rewrite Hp.
    cbn [speech_rhythm_regularity np_std one_minus_ratio]. reflexivity. }
  split; [| split].
  - intros Hpos. rewrite Hreg. destruct (Qlt_le_dec 0 (np_mean pauses)); [reflexivity | lra].
  - intros Hnpos. rewrite Hreg. destruct (Qlt_le_dec 0 (np_mean pauses)); [lra | reflexivity].
  - intros H2 Hpos. rewrite Hreg.
    destruct (Qlt_le_dec 0 (np_mean pauses)); [| lra].
    assert (Hps : ps = []).
    { pose proof (pause_durations_length onsets) as Hl. fold pauses in Hl.
      rewrite Hp in Hl. simpl in Hl. apply length_zero_iff_nil. lia. }
    subst ps. rewrite Hp in *. unfold npfloat_is, np_std_val.
    rewrite (np_sqrt_zero _ (np_var_single p)).
    unfold Qdiv. rewrite Qmult_0_l. reflexivity.
Qed.

Lemma rhythm_regularity_of_pauses_witness :
  npfloat_is (speech_rhythm_regularity (_analyze_timing_patterns [0.5; 1.25])) 1.
Proof.
  apply (rhythm_regularity_of_pauses [0.5; 1.25]).
  - simpl. lia.
  - reflexivity.
  - vm_compute. reflexivity.
Defined.

(** C2 as stated fails below two pauses: a single pause gives regularity 1,
    and no pause at all gives a NaN; neither is the default 0.5. *)
Lemma regularity_below_two_pauses_is_not_default :
  pause_durations_of [0.5; 1.25] = [1.25 - 0.5] /\
  npfloat_is (speech_rhythm_regularity (_analyze_timing_patterns [0.5; 1.25])) 1 /\
  ~ npfloat_is (speech_rhythm_regularity (_analyze_timing_patterns [0.5; 1.25])) 0.5 /\
  pause_durations_of [0.5] = [] /\
  speech_rhythm_regularity (_analyze_timing_patterns [0.5]) = NaN.
Proof.
  split; [reflexivity |]. split; [vm_compute; reflexivity |].
  split; [vm_compute; discriminate |]. split; reflexivity.
Qed.

(** ** Spectral bands *)

Lemma np_sum_filter_split (p p1 p2 : Q * Q -> bool) (l : list (Q * Q)) :
  (forall x, p x = p1 x || p2 x) ->
  (forall x, p1 x && p2 x = false) ->
  np_sum (map snd (List.filter p l))
  == np_sum (map snd (List.filter p1 l)) + np_sum (map snd (List.filter p2 l)).
Proof.
  intros Hp Hdisj. induction l as [| x l IH]; cbn [List.filter map].
  - reflexivity.
  - rewrite Hp. specialize (Hdisj x).
    destruct (p1 x), (p2 x); try discriminate Hdisj; cbn [orb map];
      rewrite ?np_sum_cons, IH; lra.
Qed.

(** The three bands are disjoint and together cover the bins from 0 Hz to
    8000 Hz: the total is the energy of exactly these bins. *)
Lemma total_energy_is_0_to_8000 (freqs magnitude : list Q) :
  total_energy freqs magnitude
  == masked_sum (fun f => Qle_bool 0 f && Qle_bool f 8000) freqs magnitude.
Proof.
  unfold total_energy, low_energy, mid_energy, high_energy, masked_sum.
  set (l := combine freqs magnitude).
  rewrite (np_sum_filter_split
             (fun fm => Qle_bool 0 (fst fm) && Qle_bool (fst fm) 8000)
             (fun fm => Qle_bool 0 (fst fm) && Qle_bool (fst fm) 3000)
             (fun fm => high_freq_mask (fst fm))).
  - rewrite (np_sum_filter_split
               (fun fm => Qle_bool 0 (fst fm) && Qle_bool (fst fm) 3000)
               (fun fm => low_freq_mask (fst fm))
               (fun fm => mid_freq_mask (fst fm))).
    + reflexivity.
    + intros [f m]. unfold low_freq_mask, mid_freq_mask. cbn [fst].
      destruct (Qle_bool 0 f) eqn:E0, (Qle_bool f 300) eqn:E1, (Qle_bool f 3000) eqn:E2;
        try reflexivity; exfalso;
        rewrite ?Qle_bool_iff in *; rewrite <- ?not_true_iff_false, ?Qle_bool_iff in *; lra.
    + intros [f m]. unfold low_freq_mask, mid_freq_mask. cbn [fst].
      destruct (Qle_bool 0 f), (Qle_bool f 300), (Qle_bool f 3000); reflexivity.
  - intros [f m]. unfold high_freq_mask. cbn [fst].
    destruct (Qle_bool 0 f) eqn:E0, (Qle_bool f 3000) eqn:E1, (Qle_bool f 8000) eqn:E2;
      try reflexivity; exfalso;
      rewrite ?Qle_bool_iff in *; rewrite <- ?not_true_iff_false, ?Qle_bool_iff in *; lra.
  - intros [f m]. unfold high_freq_mask. cbn [fst].
    destruct (Qle_bool 0 f), (Qle_bool f 3000), (Qle_bool f 8000); reflexivity.
Qed.

(** In exact arithmetic the low (0-300 Hz), mid (300-3000 Hz) and high
    (3000-8000 Hz) band ratios, each band energy over the sum of the three,
    add up to exactly 1 when that sum is positive, and are all 0 when it is
    0.  The sum of the three band energies is the energy of the bins between
    0 Hz and 8000 Hz; bins outside do not count. *)
Lemma band_ratios_in_exact_arithmetic (freqs magnitude : list Q) :
  let q := _analyze_audio_quality freqs magnitude in
  (0 < total_energy freqs magnitude ->
   low_freq_energy_ratio q == low_energy freqs magnitude / total_energy freqs magnitude /\
   mid_freq_energy_ratio q == mid_energy freqs magnitude / total_energy freqs magnitude /\
   high_freq_energy_ratio q == high_energy freqs magnitude / total_energy freqs magnitude /\
   low_freq_energy_ratio q + mid_freq_energy_ratio q + high_freq_energy_ratio q == 1) /\
  (total_energy freqs magnitude == 0 ->
   low_freq_energy_ratio q = 0 /\
   mid_freq_energy_ratio q = 0 /\
   high_freq_energy_ratio q = 0) /\
  total_energy freqs magnitude
  == masked_sum (fun f => Qle_bool 0 f && Qle_bool f 8000) freqs magnitude.
Proof.
  cbv zeta.
  match goal with
  | |- ?A /\ ?B /\ _ =>
      enough (H : A /\ B)
        by exact (conj (proj1 H) (conj (proj2 H) (total_energy_is_0_to_8000 _ _)))
  end.
  unfold _analyze_audio_quality.
  cbn [low_freq_energy_ratio mid_freq_energy_ratio high_freq_energy_ratio].
  destruct (Qlt_le_dec 0 (total_energy freqs magnitude)) as [Hpos | Hnpos].
  - split; [| intros H0; lra].
    intros _. repeat split; try reflexivity.
    unfold total_energy in *.
    set (l := low_energy freqs magnitude) in *.
    set (m := mid_energy freqs magnitude) in *.
    set (h := high_energy freqs magnitude) in *.
    field. lra.
  - split; [intros Hpos; lra |]. intros _. repeat split.
Qed.

(** C6, as the code has it.  When the total band energy is positive, the
    clarity score is the mid-band ratio, the mid-band energy over the sum of
    the three band energies.  When the total is not positive the two part:
    the clarity score is 0.5 and the mid-band ratio is 0. *)
Theorem clarity_is_mid_band_ratio (freqs magnitude : list Q) :
  let q := _analyze_audio_quality freqs magnitude in
  (0 < total_energy freqs magnitude ->
   clarity_score q = mid_freq_energy_ratio q /\
   clarity_score q
   = mid_energy freqs magnitude
     / (low_energy freqs magnitude + mid_energy freqs magnitude
        + high_energy freqs magnitude)) /\
  (total_energy freqs magnitude <= 0 ->
   clarity_score q = 0.5 /\ mid_freq_energy_ratio q = 0).
Proof.
  cbv zeta. unfold _analyze_audio_quality. cbn [clarity_score mid_freq_energy_ratio].
  destruct (Qlt_le_dec 0 (total_energy freqs magnitude)) as [Hpos | Hnpos].
  - split; [intros _; split; reflexivity | intros H0; lra].
  - split; [intros Hpos; lra | intros _; split; reflexivity].
Qed.

(** C6 as stated fails on a spectrum without energy: the clarity score is
    0.5 there, the mid-band ratio 0. *)
Lemma clarity_of_silent_spectrum_is_not_mid_ratio :
  total_energy [0; 440; 5000] [0; 0; 0] == 0 /\
  clarity_score (_analyze_audio_quality [0; 440; 5000] [0; 0; 0]) = 0.5 /\
  mid_freq_energy_ratio (_analyze_audio_quality [0; 440; 5000] [0; 0; 0]) = 0.
Proof. repeat split. Qed.

(** ** Emotion labels *)

Lemma classify_label (l e : Q) (c : Emotion.counts) :
  (0.6 < l /\ (Emotion.classify l e c).1 = ("laughter", py_min 1.0 l)) \/
  (l <= 0.6 /\ 0.5 < e /\ (Emotion.classify l e c).1 = ("excitement", py_min 1.0 e)) \/
  (l <= 0.6 /\ e <= 0.5 /\ (Emotion.classify l e c).1 = ("neutral", 0.3)).
Proof.
  unfold Emotion.classify.
  destruct (Qlt_le_dec 0.6 l); [left; split; [assumption | reflexivity] |].
  destruct (Qlt_le_dec 0.5 e); right; [left | right]; repeat split; assumption.
Qed.

Lemma classify_counts (l e : Q) (c : Emotion.counts) :
  let c' := (Emotion.classify l e c).2 in
  (Emotion.laughter c' + Emotion.excitement c' + Emotion.neutral c'
   = Emotion.laughter c + Emotion.excitement c + Emotion.neutral c + 1)%Z.
Proof.
  unfold Emotion.classify.
  destruct (Qlt_le_dec 0.6 l); [| destruct (Qlt_le_dec 0.5 e)]; cbn; lia.
Qed.

Lemma classify_counts_by_label (l e : Q) (c : Emotion.counts) :
  let c' := (Emotion.classify l e c).2 in
  Emotion.laughter c' = (Emotion.laughter c + if Qgtb l 0.6 then 1 else 0)%Z /\
  Emotion.excitement c'
  = (Emotion.excitement c + if negb (Qgtb l 0.6) && Qgtb e 0.5 then 1 else 0)%Z.
Proof.
  unfold Emotion.classify, Qgtb.
  destruct (Qlt_le_dec 0.6 l); [| destruct (Qlt_le_dec 0.5 e)]; cbn; lia.
Qed.

Lemma classify_label_any_counts (l e : Q) (c c' : Emotion.counts) :
  (Emotion.classify l e c).1 = (Emotion.classify l e c').1.
Proof.
  unfold Emotion.classify.
  destruct (Qlt_le_dec 0.6 l); [| destruct (Qlt_le_dec 0.5 e)]; reflexivity.
Qed.

Section EmotionLoop.

Variable extract_pitch_contour : list Q -> list Q.
Variable spectral_centroid_mean : list Q -> Q.
Variable rms_mean : list Q -> Q.
Variable sr : Z.

Local Abbreviation laughter_score :=
  (Emotion._detect_laughter extract_pitch_contour spectral_centroid_mean).
Local Abbreviation excitement_score :=
  (Emotion._detect_excitement extract_pitch_contour rms_mean).
Local Abbreviation step :=
  (Emotion.step extract_pitch_contour spectral_centroid_mean rms_mean sr).
Local Abbreviation recorded :=
  (Emotion.recorded_segment extract_pitch_contour spectral_centroid_mean rms_mean sr).
Local Abbreviation analyze :=
  (Emotion._analyze_emotions extract_pitch_contour spectral_centroid_mean rms_mean sr).

Lemma emotion_step_segments (y onsets : list Q) (st : Emotion.analysis) (i : nat) :
  Emotion.emotion_segments (step y onsets st i)
  = Emotion.emotion_segments st ++ option_list (recorded y onsets i).
Proof.
  unfold Emotion.step, Emotion.recorded_segment, segment_nonempty, segment_samples.
  destruct (Z.leb_spec (segment_end sr onsets (py_len y) i) (segment_start sr onsets i));
    cbn [negb].
  { now rewrite app_nil_r. }
  set (sy := py_slice y _ _).
  pose proof (classify_label_any_counts (laughter_score sy) (excitement_score sy)
                (Emotion.emotion_distribution st)
                {| Emotion.laughter := 0; Emotion.excitement := 0; Emotion.neutral := 0 |})
    as Hsame.
  destruct (Emotion.classify _ _ (Emotion.emotion_distribution st)) as [[t v] c1].
  destruct (Emotion.classify _ _ {| Emotion.laughter := 0 |}) as [[t' v'] c2].
  cbn in Hsame. injection Hsame as -> ->. cbn [Emotion.emotion_segments].
  destruct (Qlt_le_dec 0.4 v'); cbn; [reflexivity | now rewrite app_nil_r].
Qed.

Lemma emotion_step_counts (y onsets : list Q) (st : Emotion.analysis) (i : nat) :
  Emotion.total (Emotion.emotion_distribution (step y onsets st i))
  = (Emotion.total (Emotion.emotion_distribution st)
     + if segment_nonempty sr onsets (py_len y) i then 1 else 0)%Z.
Proof.
  unfold Emotion.step, segment_nonempty, Emotion.total.
  destruct (Z.leb_spec (segment_end sr onsets (py_len y) i) (segment_start sr onsets i));
    cbn [negb]; [lia |].
  set (sy := py_slice y _ _).
  pose proof (classify_counts (laughter_score sy) (excitement_score sy)
                (Emotion.emotion_distribution st)) as Hc.
  destruct (Emotion.classify _ _ _) as [[t v] c1]. cbn in Hc |- *. exact Hc.
Qed.

Lemma emotion_step_counts_by_label (y onsets : list Q) (st : Emotion.analysis) (i : nat) :
  Emotion.laughter (Emotion.emotion_distribution (step y onsets st i))
  = (Emotion.laughter (Emotion.emotion_distribution st)
     + if Emotion.laughter_detected extract_pitch_contour spectral_centroid_mean sr
            y onsets i then 1 else 0)%Z /\
  Emotion.excitement (Emotion.emotion_distribution (step y onsets st i))
  = (Emotion.excitement (Emotion.emotion_distribution st)
     + if Emotion.excitement_detected extract_pitch_contour spectral_centroid_mean
            rms_mean sr y onsets i then 1 else 0)%Z.
Proof.
  unfold Emotion.step, Emotion.laughter_detected, Emotion.excitement_detected,
    segment_nonempty, segment_samples.
  destruct (Z.leb_spec (segment_end sr onsets (py_len y) i) (segment_start sr onsets i));
    cbn [negb andb]; [lia |].
  set (sy := py_slice y _ _).
  pose proof (classify_counts_by_label (laughter_score sy) (excitement_score sy)
                (Emotion.emotion_distribution st)) as Hc.
  destruct (Emotion.classify _ _ _) as [[t v] c1]. cbn in Hc |- *. exact Hc.
Qed.

Lemma emotion_loop_counts_by_label (y onsets : list Q) (l : list nat)
    (st : Emotion.analysis) :
  Emotion.laughter (Emotion.emotion_distribution (fold_left (step y onsets) l st))
  = (Emotion.laughter (Emotion.emotion_distribution st)
     + Z.of_nat (length (List.filter
         (Emotion.laughter_detected extract_pitch_contour spectral_centroid_mean sr
            y onsets) l)))%Z /\
  Emotion.excitement (Emotion.emotion_distribution (fold_left (step y onsets) l st))
  = (Emotion.excitement (Emotion.emotion_distribution st)
     + Z.of_nat (length (List.filter
         (Emotion.excitement_detected extract_pitch_contour spectral_centroid_mean
            rms_mean sr y onsets) l)))%Z.
Proof.
  revert st. induction l as [| i l IH]; intros st; cbn [fold_left List.filter].
  - cbn. lia.
  - destruct (IH (step y onsets st i)) as [IH1 IH2]. rewrite IH1, IH2.
    destruct (emotion_step_counts_by_label y onsets st i) as [S1 S2]. rewrite S1, S2.
    destruct (Emotion.laughter_detected _ _ _ _ _ _);
      destruct (Emotion.excitement_detected _ _ _ _ _ _ _); cbn [length]; lia.
Qed.

Lemma emotion_loop_segments (y onsets : list Q) (l : list nat) (st : Emotion.analysis) :
  Emotion.emotion_segments (fold_left (step y onsets) l st)
  = Emotion.emotion_segments st ++ omap (recorded y onsets) l.
Proof.
  revert st. induction l as [| i l IH]; intros st; cbn [fold_left].
  - now rewrite app_nil_r.
  - rewrite IH, emotion_step_segments, <- app_assoc. f_equal.
    cbn. destruct (recorded y onsets i); reflexivity.
Qed.

Lemma emotion_loop_counts (y onsets : list Q) (l : list nat) (st : Emotion.analysis) :
  Emotion.total (Emotion.emotion_distribution (fold_left (step y onsets) l st))
  = (Emotion.total (Emotion.emotion_distribution st)
     + Z.of_nat (length (List.filter (segment_nonempty sr onsets (py_len y)) l)))%Z.
Proof.
  revert st. induction l as [| i l IH]; intros st; cbn [fold_left List.filter].
  - cbn. lia.
  - rewrite IH, emotion_step_counts.
    destruct (segment_nonempty sr onsets (py_len y) i); cbn [length]; lia.
Qed.

Lemma recorded_index (y onsets : list Q) (i : nat) (s : Emotion.segment) :
  recorded y onsets i = Some s -> Emotion.index s = Z.of_nat i.
Proof.
  unfold Emotion.recorded_segment.
  destruct (segment_nonempty _ _ _ _); [| discriminate].
  destruct (Emotion.classify _ _ _) as [[t v] c].
  destruct (Qlt_le_dec 0.4 v); [| discriminate].
  intros [= <-]. reflexivity.
Qed.

Lemma recorded_indices_NoDup (y onsets : list Q) (l : list nat) :
  NoDup l -> NoDup (map Emotion.index (omap (recorded y onsets) l)).
Proof.
  induction 1 as [| i l Hi Hl IH]; cbn; [constructor |].
  destruct (recorded y onsets i) as [s |] eqn:Hs; [| exact IH].
  cbn. constructor; [| exact IH].
  rewrite (recorded_index _ _ _ _ Hs). intros Hin.
  apply list_elem_of_In, in_map_iff in Hin. destruct Hin as (s' & Hidx & Hin).
  apply list_elem_of_In, list_elem_of_omap in Hin. destruct Hin as (j & Hj & Hrec).
  apply recorded_index in Hrec. assert (j = i) by lia. subst j. contradiction.
Qed.

Lemma recorded_label (y onsets : list Q) (i : nat) (s : Emotion.segment) :
  recorded y onsets i = Some s ->
  segment_nonempty sr onsets (py_len y) i = true /\
  ((0.6 < laughter_score (segment_samples sr y onsets i) /\
    Emotion.emotion_type s = "laughter") \/
   (laughter_score (segment_samples sr y onsets i) <= 0.6 /\
    0.5 < excitement_score (segment_samples sr y onsets i) /\
    Emotion.emotion_type s = "excitement")).
Proof.
  unfold Emotion.recorded_segment.
  destruct (segment_nonempty _ _ _ _); [| discriminate].
  set (sy := segment_samples sr y onsets i).
  destruct (classify_label (laughter_score sy) (excitement_score sy)
              {| Emotion.laughter := 0; Emotion.excitement := 0; Emotion.neutral := 0 |})
    as [(Hl & E) | [(Hl & He & E) | (Hl & He & E)]];
    destruct (Emotion.classify _ _ _) as [[t v] c]; cbn in E; injection E as -> ->;
    (destruct (Qlt_le_dec 0.4 _) as [Hv | Hv]; [| discriminate]);
    intros [= <-]; cbn; split; try reflexivity.
  - left. split; [assumption | reflexivity].
  - right. repeat split; assumption.
  - exfalso. lra.
Qed.

Lemma laughter_is_recorded (y onsets : list Q) (i : nat) :
  segment_nonempty sr onsets (py_len y) i = true ->
  0.6 < laughter_score (segment_samples sr y onsets i) ->
  exists s, recorded y onsets i = Some s /\ Emotion.emotion_type s = "laughter".
Proof.
  intros Hne Hl. unfold Emotion.recorded_segment. rewrite Hne.
  set (sy := segment_samples sr y onsets i) in *.
  destruct (classify_label (laughter_score sy) (excitement_score sy)
              {| Emotion.laughter := 0; Emotion.excitement := 0; Emotion.neutral := 0 |})
    as [(_ & E) | [(Hl' & _) | (Hl' & _)]]; try lra.
  destruct (Emotion.classify _ _ _) as [[t v] c]; cbn in E; injection E as -> ->.
  destruct (Qlt_le_dec 0.4 _) as [Hv | Hv].
  - eexists. split; reflexivity.
  - exfalso. unfold py_min in Hv. destruct (Qlt_le_dec _ _); lra.
Qed.

(** C5.  The emotion timeline holds at most one entry per segment.  Each
    entry belongs to an analysed segment and is labelled "laughter" exactly
    when the laughter score of that segment exceeds 0.6, whatever its
    excitement score; it is labelled "excitement" only when the laughter
    score does not exceed 0.6 and the excitement score exceeds 0.5.  Every
    analysed segment whose laughter score exceeds 0.6 is in the timeline as
    "laughter".  Each analysed segment increments exactly one of the three
    counters: the laughter counter when its laughter score exceeds 0.6, the
    excitement counter when it does not and the excitement score exceeds
    0.5. *)
Theorem emotion_labels_exclusive (y onsets : list Q) :
  NoDup (map Emotion.index (Emotion.emotion_segments (analyze y onsets))) /\
  (forall s : Emotion.segment,
     In s (Emotion.emotion_segments (analyze y onsets)) ->
     exists i : nat,
       (i < length onsets)%nat /\ Emotion.index s = Z.of_nat i /\
       segment_nonempty sr onsets (py_len y) i = true /\
       ((0.6 < laughter_score (segment_samples sr y onsets i) /\
         Emotion.emotion_type s = "laughter") \/
        (laughter_score (segment_samples sr y onsets i) <= 0.6 /\
         0.5 < excitement_score (segment_samples sr y onsets i) /\
         Emotion.emotion_type s = "excitement"))) /\
  (forall i : nat,
     (i < length onsets)%nat ->
     segment_nonempty sr onsets (py_len y) i = true ->
     0.6 < laughter_score (segment_samples sr y onsets i) ->
     exists s : Emotion.segment,
       In s (Emotion.emotion_segments (analyze y onsets)) /\
       Emotion.index s = Z.of_nat i /\ Emotion.emotion_type s = "laughter") /\
  Emotion.total (Emotion.emotion_distribution (analyze y onsets))
  = Z.of_nat (length (List.filter (segment_nonempty sr onsets (py_len y))
                        (seq 0 (length onsets)))) /\
  Emotion.laughter (Emotion.emotion_distribution (analyze y onsets))
  = Z.of_nat (length (List.filter
      (Emotion.laughter_detected extract_pitch_contour spectral_centroid_mean sr
         y onsets) (seq 0 (length onsets)))) /\
  Emotion.excitement (Emotion.emotion_distribution (analyze y onsets))
  = Z.of_nat (length (List.filter
      (Emotion.excitement_detected extract_pitch_contour spectral_centroid_mean
         rms_mean sr y onsets) (seq 0 (length onsets)))).
Proof.
  unfold Emotion._analyze_emotions.
  destruct (emotion_loop_counts_by_label y onsets (seq 0 (length onsets))
              {| Emotion.emotion_segments := [];
                 Emotion.emotion_distribution :=
                   {| Emotion.laughter := 0; Emotion.excitement := 0;
                      Emotion.neutral := 0 |} |}) as [Hlaugh Hexc].
  rewrite Hlaugh, Hexc.
  rewrite emotion_loop_segments, emotion_loop_counts. cbn [Emotion.emotion_segments app].
  split; [| split; [| split; [| split; [| split; reflexivity]]]].
  - apply recorded_indices_NoDup, NoDup_seq.
  - intros s Hs. apply list_elem_of_In, list_elem_of_omap in Hs.
    destruct Hs as (i & Hi & Hrec).
    apply list_elem_of_In, in_seq in Hi.
    destruct (recorded_label _ _ _ _ Hrec) as [Hne Hlab].
    exists i. repeat split; [lia | now apply recorded_index in Hrec | exact Hne | exact Hlab].
  - intros i Hi Hne Hl.
    destruct (laughter_is_recorded y onsets i Hne Hl) as (s & Hrec & Hlab).
    exists s. split; [| split; [now apply recorded_index in Hrec | exact Hlab]].
    apply list_elem_of_In, list_elem_of_omap. exists i. split; [| exact Hrec].
    apply list_elem_of_In, in_seq. lia.
  - cbn [Emotion.emotion_distribution]. unfold Emotion.total at 1.
    cbn [Emotion.laughter Emotion.excitement Emotion.neutral]. lia.
Qed.

End EmotionLoop.

(** ** Per-dialogue pitch entries *)

Section DialogueLoop.

Variable extract_pitch_contour : list Q -> list Q.
Variable py_set : list string -> list string.
Variable sr : Z.

Local Abbreviation step := (Dialogue.step extract_pitch_contour sr).
Local Abbreviation recorded := (Dialogue.recorded_entry extract_pitch_contour sr).
Local Abbreviation run_loop := (Dialogue.run_loop extract_pitch_contour sr).
Local Abbreviation avg_start := (Dialogue.avg_start_pitch_of extract_pitch_contour sr).
Local Abbreviation avg_end := (Dialogue.avg_end_pitch_of extract_pitch_contour sr).
Local Abbreviation analyze :=
  (Dialogue._analyze_dialogue_pitch_patterns extract_pitch_contour py_set sr).

Lemma dialogue_step_spec (y onsets : list Q) (st : Dialogue.acc) (i : nat) :
  let new := option_list (recorded y onsets i) in
  Dialogue.acc_per_dialogue (step y onsets st i) = Dialogue.acc_per_dialogue st ++ new /\
  Dialogue.start_pitches (step y onsets st i)
  = Dialogue.start_pitches st ++ map Dialogue.start_pitch_hz new /\
  Dialogue.end_pitches (step y onsets st i)
  = Dialogue.end_pitches st ++ map Dialogue.end_pitch_hz new /\
  Dialogue.trajectories (step y onsets st i)
  = Dialogue.trajectories st ++ map Dialogue.trajectory new.
Proof.
  unfold Dialogue.step, Dialogue.recorded_entry, segment_nonempty, segment_samples.
  destruct (Z.leb_spec (segment_end sr onsets (py_len y) i) (segment_start sr onsets i));
    cbn [negb].
  { cbn. now rewrite !app_nil_r. }
  destruct (Qgtb _ 0 && Qgtb _ 0); cbn.
  - repeat split.
  - now rewrite !app_nil_r.
Qed.

Lemma dialogue_loop_spec (y onsets : list Q) (l : list nat) (st : Dialogue.acc) :
  let new := omap (recorded y onsets) l in
  let st' := fold_left (step y onsets) l st in
  Dialogue.acc_per_dialogue st' = Dialogue.acc_per_dialogue st ++ new /\
  Dialogue.start_pitches st' = Dialogue.start_pitches st ++ map Dialogue.start_pitch_hz new /\
  Dialogue.end_pitches st' = Dialogue.end_pitches st ++ map Dialogue.end_pitch_hz new /\
  Dialogue.trajectories st' = Dialogue.trajectories st ++ map Dialogue.trajectory new.
Proof.
  revert st. induction l as [| i l IH]; intros st; cbn [fold_left].
  - cbn. now rewrite !app_nil_r.
  - destruct (IH (step y onsets st i)) as (H1 & H2 & H3 & H4).
    destruct (dialogue_step_spec y onsets st i) as (S1 & S2 & S3 & S4).
    cbv zeta in *. rewrite H1, H2, H3, H4, S1, S2, S3, S4, <- !app_assoc.
    cbn [omap list_omap]. destruct (recorded y onsets i); cbn; repeat split.
Qed.

Lemma run_loop_spec (y onsets : list Q) :
  let entries := omap (recorded y onsets) (seq 0 (length onsets)) in
  Dialogue.acc_per_dialogue (run_loop y onsets) = entries /\
  Dialogue.start_pitches (run_loop y onsets) = map Dialogue.start_pitch_hz entries /\
  Dialogue.end_pitches (run_loop y onsets) = map Dialogue.end_pitch_hz entries /\
  Dialogue.trajectories (run_loop y onsets) = map Dialogue.trajectory entries.
Proof. apply dialogue_loop_spec. Qed.

Lemma recorded_entry_spec (y onsets : list Q) (i : nat) (e : Dialogue.entry) :
  recorded y onsets i = Some e <->
  segment_nonempty sr onsets (py_len y) i = true /\
  0 < avg_start (segment_samples sr y onsets i) /\
  0 < avg_end (segment_samples sr y onsets i) /\
  e = {| Dialogue.index := Z.of_nat i;
         Dialogue.start_pitch_hz := avg_start (segment_samples sr y onsets i);
         Dialogue.end_pitch_hz := avg_end (segment_samples sr y onsets i);
         Dialogue.trajectory :=
           _determine_pitch_trajectory
             (extract_pitch_contour (segment_samples sr y onsets i));
         Dialogue.pitch_range :=
           (let full_pitch := extract_pitch_contour (segment_samples sr y onsets i) in
            if (0 <? py_len full_pitch)%Z
            then np_max full_pitch - np_min full_pitch else 0);
         Dialogue.duration_seconds :=
           inject_Z (py_len (segment_samples sr y onsets i)) / inject_Z sr |}.
Proof.
  unfold Dialogue.recorded_entry, Qgtb.
  destruct (segment_nonempty _ _ _ _).
  2: { split; [discriminate | intros [? _]; discriminate]. }
  destruct (Qlt_le_dec 0 (avg_start _)) as [Hs | Hs];
    destruct (Qlt_le_dec 0 (avg_end _)) as [He | He]; cbn [andb].
  - split.
    + intros [= <-]. repeat split; assumption.
    + intros (_ & _ & _ & ->). reflexivity.
  - split; [discriminate | intros (_ & _ & He' & _); lra].
  - split; [discriminate | intros (_ & Hs' & _ & _); lra].
  - split; [discriminate | intros (_ & Hs' & _ & _); lra].
Qed.

Lemma per_dialogue_spec (y onsets : list Q) :
  Dialogue.per_dialogue (analyze y onsets)
  = if (py_len onsets <? 2)%Z then []
    else omap (recorded y onsets) (seq 0 (length onsets)).
Proof.
  unfold Dialogue._analyze_dialogue_pitch_patterns.
  destruct (py_len onsets <? 2)%Z; [reflexivity |].
  destruct (run_loop_spec y onsets) as (H1 & H2 & H3 & _). cbv zeta in *.
  rewrite H2, H3, H1.
  destruct (omap _ _) as [| e es]; reflexivity.
Qed.

Lemma dialogue_patterns_spec (y onsets : list Q) (p : Dialogue.patterns) :
  Dialogue.dialogue_patterns (analyze y onsets) = Some p ->
  let entries := Dialogue.per_dialogue (analyze y onsets) in
  Dialogue.average_start_pitch_hz p = np_mean (map Dialogue.start_pitch_hz entries) /\
  Dialogue.average_end_pitch_hz p = np_mean (map Dialogue.end_pitch_hz entries) /\
  Dialogue.pitch_variation_range p
  = np_max (map Dialogue.start_pitch_hz entries ++ map Dialogue.end_pitch_hz entries)
    - np_min (map Dialogue.start_pitch_hz entries ++ map Dialogue.end_pitch_hz entries) /\
  Dialogue.common_trajectory p
  = Dialogue.max_by_count (map Dialogue.trajectory entries)
      (py_set (map Dialogue.trajectory entries)).
Proof.
  unfold Dialogue._analyze_dialogue_pitch_patterns.
  destruct (py_len onsets <? 2)%Z; [discriminate |].
  destruct (run_loop_spec y onsets) as (H1 & H2 & H3 & H4). cbv zeta in *.
  rewrite H2, H3, H4, H1.
  destruct (omap _ _) as [| e es]; [discriminate |].
  cbn [map Dialogue.dialogue_patterns Dialogue.per_dialogue].
  intros [= <-]. repeat split.
Qed.

Lemma recorded_indices_sublist (y onsets : list Q) (l : list nat) :
  sublist (map Dialogue.index (omap (recorded y onsets) l)) (map Z.of_nat l).
Proof.
  induction l as [| i l IH]; cbn; [constructor |].
  destruct (recorded y onsets i) as [e |] eqn:He.
  - apply recorded_entry_spec in He. destruct He as (_ & _ & _ & ->).
    cbn. now apply sublist_skip.
  - now apply sublist_cons.
Qed.

End DialogueLoop.

(** C10.  Every entry of [per_dialogue] comes from an analysed segment whose
    start-window and end-window average pitches are both strictly positive,
    and carries these two averages and the segment's position as its index;
    with at least two onsets every such segment has its entry.  The indices
    form a subsequence of [0 .. len(onsets)-1], so there are at most as many
    entries as segments, and the averages, the range and the common
    trajectory of [dialogue_patterns] are taken over these entries alone.
    The subsequence can be a proper one with a gap: in the sample recording
    the unvoiced middle segment is left out and the indices are 0 and 2. *)
Theorem per_dialogue_only_voiced_segments :
  (forall (extract_pitch_contour : list Q -> list Q)
          (py_set : list string -> list string) (sr : Z) (y onsets : list Q),
     let r := Dialogue._analyze_dialogue_pitch_patterns
                extract_pitch_contour py_set sr y onsets in
     let avg_start := Dialogue.avg_start_pitch_of extract_pitch_contour sr in
     let avg_end := Dialogue.avg_end_pitch_of extract_pitch_contour sr in
     (forall e : Dialogue.entry,
        In e (Dialogue.per_dialogue r) ->
        exists i : nat,
          (i < length onsets)%nat /\ Dialogue.index e = Z.of_nat i /\
          segment_nonempty sr onsets (py_len y) i = true /\
          Dialogue.start_pitch_hz e = avg_start (segment_samples sr y onsets i) /\
          Dialogue.end_pitch_hz e = avg_end (segment_samples sr y onsets i) /\
          0 < Dialogue.start_pitch_hz e /\ 0 < Dialogue.end_pitch_hz e) /\
     (forall i : nat,
        (2 <= length onsets)%nat -> (i < length onsets)%nat ->
        segment_nonempty sr onsets (py_len y) i = true ->
        0 < avg_start (segment_samples sr y onsets i) ->
        0 < avg_end (segment_samples sr y onsets i) ->
        exists e : Dialogue.entry,
          In e (Dialogue.per_dialogue r) /\ Dialogue.index e = Z.of_nat i) /\
     sublist (map Dialogue.index (Dialogue.per_dialogue r))
             (map Z.of_nat (seq 0 (length onsets))) /\
     (length (Dialogue.per_dialogue r) <= length onsets)%nat /\
     (forall p : Dialogue.patterns,
        Dialogue.dialogue_patterns r = Some p ->
        Dialogue.average_start_pitch_hz p
        = np_mean (map Dialogue.start_pitch_hz (Dialogue.per_dialogue r)) /\
        Dialogue.average_end_pitch_hz p
        = np_mean (map Dialogue.end_pitch_hz (Dialogue.per_dialogue r)) /\
        Dialogue.pitch_variation_range p
        = np_max (map Dialogue.start_pitch_hz (Dialogue.per_dialogue r)
                  ++ map Dialogue.end_pitch_hz (Dialogue.per_dialogue r))
          - np_min (map Dialogue.start_pitch_hz (Dialogue.per_dialogue r)
                    ++ map Dialogue.end_pitch_hz (Dialogue.per_dialogue r)) /\
        Dialogue.common_trajectory p
        = Dialogue.max_by_count (map Dialogue.trajectory (Dialogue.per_dialogue r))
            (py_set (map Dialogue.trajectory (Dialogue.per_dialogue r))))) /\
  (let r := Dialogue._analyze_dialogue_pitch_patterns
              sample_pitch_tracker (fun l => l) 2
              sample_recording sample_onsets in
   List.filter (segment_nonempty 2 sample_onsets
                  (py_len sample_recording))
     (seq 0 (length sample_onsets)) = [0; 1; 2]%nat /\
   map Dialogue.index (Dialogue.per_dialogue r) = [0; 2]%Z).
Proof.
  split; [| split; reflexivity].
  intros extract py_set sr y onsets r avg_start avg_end.
  assert (Hsub : sublist (map Dialogue.index (Dialogue.per_dialogue r))
                   (map Z.of_nat (seq 0 (length onsets)))).
  { unfold r. rewrite per_dialogue_spec. destruct (py_len onsets <? 2)%Z.
    - apply sublist_nil_l.
    - apply recorded_indices_sublist. }
  split; [| split; [| split; [exact Hsub | split]]].
  - intros e He. unfold r in He. rewrite per_dialogue_spec in He.
    destruct (py_len onsets <? 2)%Z; [destruct He |].
    apply list_elem_of_In, list_elem_of_omap in He. destruct He as (i & Hi & Hrec).
    apply list_elem_of_In, in_seq in Hi.
    apply recorded_entry_spec in Hrec. destruct Hrec as (Hne & Hs & He & ->).
    exists i. cbn. repeat split; try assumption. lia.
  - intros i H2 Hi Hne Hs He. unfold r. rewrite per_dialogue_spec.
    destruct (Z.ltb_spec (py_len onsets) 2) as [Hlt | _]; [unfold py_len in Hlt; lia |].
    eexists. split.
    + apply list_elem_of_In, list_elem_of_omap. exists i. split.
      * apply list_elem_of_In, in_seq. lia.
      * apply recorded_entry_spec. repeat split; try eassumption.
    + reflexivity.
  - apply sublist_length in Hsub. rewrite !length_map, length_seq in Hsub. exact Hsub.
  - intros p Hp. exact (dialogue_patterns_spec _ _ _ _ _ _ Hp).
Qed.

(** ** The pitch-drop rule of the per-dialogue overrides *)

Lemma emotion_segments_skipped (idx : nat) (segs : list Comparison.emotion_segment)
    (b : gmap string Q) :
  Forall (fun seg => Comparison.seg_index seg <> Some (Z.of_nat idx)) segs ->
  fold_left (Comparison.apply_emotion_segment idx) segs b = b.
Proof.
  intros H. revert b. induction H as [| seg segs Hseg _ IH]; intros b; cbn [fold_left].
  - reflexivity.
  - unfold Comparison.apply_emotion_segment at 2.
    rewrite bool_decide_eq_false_2 by exact Hseg. apply IH.
Qed.

Lemma clamp_settings_style (b : gmap string Q) :
  Comparison.clamp_settings b !! "style"
  = Some (py_max 0.1 (py_min 0.9 (dict_get b "style" 0.55))).
Proof.
  unfold Comparison.clamp_settings.
  rewrite lookup_insert_ne by done. rewrite lookup_insert_eq.
  unfold dict_get. rewrite lookup_insert_ne by done. reflexivity.
Qed.

(** The pitch-drop rule on its own: it lowers by 0.03, and not below 0.1, the
    style the trajectory rule has left, which is the incoming style plus 0.05
    for a "falling" entry and minus 0.05 for a "rising" one. *)
Lemma pitch_drop_rule (idx : nat) (cfg : Comparison.analysis_config)
    (dp : Comparison.dialogue_pitch) (b : gmap string Q) :
  let start_pitch := default 0 (Comparison.dp_start_pitch_hz dp) in
  let end_pitch := default 0 (Comparison.dp_end_pitch_hz dp) in
  let trajectory := default "stable" (Comparison.dp_trajectory dp) in
  let incoming := dict_get b "style" 0.55 in
  let after_trajectory :=
    if String.eqb trajectory "falling" then py_min 0.9 (incoming + 0.05)
    else if String.eqb trajectory "rising" then py_max 0.1 (incoming - 0.05)
    else incoming in
  nth_error (Comparison.per_dialogue cfg) idx = Some dp ->
  0 < end_pitch -> 10 < start_pitch - end_pitch ->
  Comparison.apply_per_dialogue idx cfg b !! "style"
  = Some (py_max 0.1 (after_trajectory - 0.03)).
Proof.
  intros start_pitch end_pitch trajectory incoming after_trajectory Hdp Hend Hdiff.
  unfold Comparison.apply_per_dialogue. rewrite Hdp.
  fold start_pitch end_pitch trajectory. unfold Qgtb.
  destruct (Qlt_le_dec 0 start_pitch); [| exfalso; lra].
  destruct (Qlt_le_dec 0 end_pitch); [| exfalso; lra].
  destruct (Qlt_le_dec 10 (start_pitch - end_pitch)); [| exfalso; lra].
  cbn [andb]. unfold after_trajectory, incoming.
  destruct (String.eqb trajectory "falling"); [| destruct (String.eqb trajectory "rising")];
    rewrite lookup_insert_eq; unfold dict_get; rewrite ?lookup_insert_eq; reflexivity.
Qed.




(** ** The theorems at work on sample inputs *)

Lemma clarity_is_mid_band_ratio_witness :
  let q := _analyze_audio_quality [0; 100; 500; 4000; 9000; -100] [1; 2; 3; 4; 5; 6] in
  clarity_score q = mid_freq_energy_ratio q.
Proof.
  apply (proj1 (clarity_is_mid_band_ratio [0; 100; 500; 4000; 9000; -100] [1; 2; 3; 4; 5; 6])).
  reflexivity.
Defined.

(** The first segment of the sample recording scores above both thresholds
    and is in the timeline as "laughter". *)
Lemma emotion_labels_exclusive_witness :
  0.6 < Emotion._detect_laughter sample_pitch_tracker sample_centroid
          (segment_samples 2%Z sample_recording sample_onsets 0) /\
  0.5 < Emotion._detect_excitement sample_pitch_tracker sample_rms
          (segment_samples 2%Z sample_recording sample_onsets 0) /\
  exists s : Emotion.segment,
    In s (Emotion.emotion_segments
            (Emotion._analyze_emotions sample_pitch_tracker sample_centroid sample_rms 2%Z
               sample_recording sample_onsets)) /\
    Emotion.index s = 0%Z /\ Emotion.emotion_type s = "laughter".
Proof.
  assert (Hl : 0.6 < Emotion._detect_laughter sample_pitch_tracker sample_centroid
                       (segment_samples 2%Z sample_recording sample_onsets 0))
    by (vm_compute; reflexivity).
  split; [exact Hl |]. split; [vm_compute; reflexivity |].
  apply (proj1 (proj2 (proj2 (emotion_labels_exclusive sample_pitch_tracker
           sample_centroid sample_rms 2%Z sample_recording sample_onsets))) 0%nat).
  - simpl. lia.
  - reflexivity.
  - exact Hl.
Defined.

(** The last segment of the sample recording is voiced at both ends and has
    its entry, with index 2. *)
Lemma per_dialogue_only_voiced_segments_witness :
  exists e : Dialogue.entry,
    In e (Dialogue.per_dialogue
            (Dialogue._analyze_dialogue_pitch_patterns sample_pitch_tracker
               (fun l => l) 2%Z sample_recording sample_onsets)) /\
    Dialogue.index e = 2%Z.
Proof.
  apply (proj1 (proj2 (proj1 per_dialogue_only_voiced_segments sample_pitch_tracker
           (fun l => l) 2%Z sample_recording sample_onsets)) 2%nat).
  - simpl. lia.
  - simpl. lia.
  - reflexivity.
  - vm_compute. reflexivity.
  - vm_compute. reflexivity.
Defined.

(** * Further properties *)

(** ** Maxima, minima and means *)

Lemma np_max_from_upper (x : Q) (l : list Q) :
  x <= np_max_from x l /\ Forall (fun y => y <= np_max_from x l) l.
Proof.
  unfold np_max_from. revert x. induction l as [| y l IH]; intros x; cbn [fold_left].
  - split; [lra | constructor].
  - destruct (IH (py_max x y)) as [H1 H2].
    assert (Hx : x <= py_max x y /\ y <= py_max x y).
    { unfold py_max. destruct (Qlt_le_dec x y); lra. }
    split; [lra |]. constructor; [lra | exact H2].
Qed.

Lemma np_min_from_lower (x : Q) (l : list Q) :
  np_min_from x l <= x /\ Forall (fun y => np_min_from x l <= y) l.
Proof.
  unfold np_min_from. revert x. induction l as [| y l IH]; intros x; cbn [fold_left].
  - split; [lra | constructor].
  - destruct (IH (py_min x y)) as [H1 H2].
    assert (Hx : py_min x y <= x /\ py_min x y <= y).
    { unfold py_min. destruct (Qlt_le_dec y x); lra. }
    split; [lra |]. constructor; [lra | exact H2].
Qed.

Lemma np_max_upper (l : list Q) : Forall (fun y => y <= np_max l) l.
Proof.
  destruct l as [| x l]; [constructor |]. cbn [np_max].
  destruct (np_max_from_upper x l). now constructor.
Qed.

Lemma np_min_lower (l : list Q) : Forall (fun y => np_min l <= y) l.
Proof.
  destruct l as [| x l]; [constructor |]. cbn [np_min].
  destruct (np_min_from_lower x l). now constructor.
Qed.

Lemma np_max_from_In (x : Q) (l : list Q) : In (np_max_from x l) (x :: l).
Proof.
  unfold np_max_from. revert x. induction l as [| y l IH]; intros x; cbn [fold_left].
  - now left.
  - destruct (IH (py_max x y)) as [H | H].
    + unfold py_max in H at 1. destruct (Qlt_le_dec x y); [right; left | left]; exact H.
    + right; right; exact H.
Qed.

Lemma np_min_from_In (x : Q) (l : list Q) : In (np_min_from x l) (x :: l).
Proof.
  unfold np_min_from. revert x. induction l as [| y l IH]; intros x; cbn [fold_left].
  - now left.
  - destruct (IH (py_min x y)) as [H | H].
    + unfold py_min in H at 1. destruct (Qlt_le_dec y x); [right; left | left]; exact H.
    + right; right; exact H.
Qed.

Lemma np_min_le_max (l : list Q) : np_min l <= np_max l.
Proof.
  destruct l as [| x l]; [cbn; lra |]. cbn [np_min np_max].
  destruct (np_min_from_lower x l), (np_max_from_upper x l). lra.
Qed.

Lemma np_sum_bounds (lo hi : Q) (l : list Q) :
  Forall (fun y => lo <= y <= hi) l ->
  inject_Z (py_len l) * lo <= np_sum l <= inject_Z (py_len l) * hi.
Proof.
  unfold py_len. induction 1 as [| x l Hx _ IH].
  - unfold np_sum. cbn [length fold_left]. change (inject_Z (Z.of_nat 0)) with 0. lra.
  - rewrite np_sum_cons. cbn [length]. rewrite Nat2Z.inj_succ.
    unfold Z.succ. rewrite inject_Z_plus.
    generalize dependent (inject_Z (Z.of_nat (length l))). intros n IH.
    change (inject_Z 1) with 1. lra.
Qed.

Lemma py_len_pos {A : Type} (x : A) (l : list A) : 0 < inject_Z (py_len (x :: l)).
Proof.
  unfold py_len. change 0 with (inject_Z 0). rewrite <- Zlt_Qlt. cbn [length]. lia.
Qed.

Lemma np_mean_bounds (lo hi x : Q) (l : list Q) :
  Forall (fun y => lo <= y <= hi) (x :: l) -> lo <= np_mean (x :: l) <= hi.
Proof.
  intros H. apply np_sum_bounds in H. unfold np_mean.
  pose proof (py_len_pos x l) as Hn.
  generalize dependent (inject_Z (py_len (x :: l))). intros n [H1 H2] Hn.
  split.
  - apply Qle_shift_div_l; [exact Hn | lra].
  - apply Qle_shift_div_r; [exact Hn | lra].
Qed.

Lemma np_mean_between_min_max (x : Q) (l : list Q) :
  np_min (x :: l) <= np_mean (x :: l) <= np_max (x :: l).
Proof.
  apply np_mean_bounds.
  pose proof (np_min_lower (x :: l)) as Hlo. pose proof (np_max_upper (x :: l)) as Hhi.
  rewrite Forall_forall in *. intros y Hy. split; [apply Hlo | apply Hhi]; exact Hy.
Qed.

(** ** More on the timing statistics *)

Lemma pause_durations_are_diffs_aux (a : Q) (l : list Q) (k : nat) :
  map (fun i => nth (i + 1) (a :: l) 0 - nth i (a :: l) 0) (seq 0 (length l))
  = np_diff (a :: l).
Proof.
  revert a. induction l as [| b l IH]; intros a; [reflexivity |].
  cbn [length seq map]. change (np_diff (a :: b :: l)) with ((b - a) :: np_diff (b :: l)).
  f_equal. rewrite <- IH, <- seq_shift, map_map. apply map_ext. intros i. reflexivity.
Qed.

Lemma pause_durations_are_diffs (onsets : list Q) :
  pause_durations_of onsets = np_diff onsets.
Proof.
  unfold pause_durations_of, py_len.
  destruct onsets as [| a [| b l]]; [reflexivity | reflexivity |].
  destruct (Z.ltb_spec 1 (Z.of_nat (length (a :: b :: l)))) as [_ | H];
    [| cbn [length] in H; lia].
  replace (Z.to_nat (Z.of_nat (length (a :: b :: l)) - 1)) with (length (b :: l))
    by (cbn [length]; lia).
  apply (pause_durations_are_diffs_aux a (b :: l) 0).
Qed.

Lemma np_diff_sum (a : Q) (l : list Q) :
  np_sum (np_diff (a :: l)) == List.last (a :: l) 0 - a.
Proof.
  revert a. induction l as [| b l IH]; intros a.
  - cbn. unfold np_sum. cbn. lra.
  - change (np_diff (a :: b :: l)) with ((b - a) :: np_diff (b :: l)).
    rewrite np_sum_cons, IH. change (List.last (a :: b :: l) 0) with (List.last (b :: l) 0). lra.
Qed.

Lemma np_diff_positive (l : list Q) :
  strictly_increasing l -> Forall (fun d => 0 < d) (np_diff l).
Proof.
  induction l as [| a l IH]; [constructor |].
  destruct l as [| b l]; [constructor |].
  intros [Hab Hs].
  change (np_diff (a :: b :: l)) with ((b - a) :: np_diff (b :: l)).
  constructor; [lra | exact (IH Hs)].
Qed.

(** X1.  The three pause statistics are always ordered, minimum not above
    average not above maximum, in the fallback case as well; and when there
    are pauses, the average is the span from the first onset to the last one
    divided by the number of pauses. *)
Theorem pause_statistics_ordered (onsets : list Q) :
  let t := _analyze_timing_patterns onsets in
  min_pause_duration t <= average_pause_duration_seconds t <= max_pause_duration t /\
  ((length onsets <= 1)%nat \/
   average_pause_duration_seconds t
   == (List.last onsets 0 - hd 0 onsets) / inject_Z (py_len onsets - 1)).
Proof.
  cbv zeta. unfold _analyze_timing_patterns.
  cbn [min_pause_duration average_pause_duration_seconds max_pause_duration].
  rewrite pause_durations_are_diffs.
  destruct onsets as [| a [| b l]].
  - cbn. split; [lra | left; lia].
  - cbn. split; [lra | left; lia].
  - change (np_diff (a :: b :: l)) with ((b - a) :: np_diff (b :: l)).
    split.
    + apply (np_mean_between_min_max (b - a) (np_diff (b :: l))).
    + right. change ((b - a) :: np_diff (b :: l)) with (np_diff (a :: b :: l)).
      unfold np_mean. rewrite np_diff_sum. cbn [hd].
      replace (py_len (np_diff (a :: b :: l))) with (py_len (a :: b :: l) - 1)%Z;
        [reflexivity |].
      unfold py_len. rewrite <- pause_durations_are_diffs, pause_durations_length.
      cbn [length]. lia.
Qed.

(** X2.  The rhythm regularity is a NaN exactly when there are fewer than two
    onsets.  When the onsets are strictly increasing times and there are at
    least two of them, every pause is positive, so are the minimum and the
    average pause, and the regularity is a number not above 1. *)
Theorem rhythm_regularity_defined (onsets : list Q) :
  let t := _analyze_timing_patterns onsets in
  (speech_rhythm_regularity t = NaN <-> (length onsets < 2)%nat) /\
  (strictly_increasing onsets -> (2 <= length onsets)%nat ->
   0 < min_pause_duration t /\ 0 < average_pause_duration_seconds t /\
   exists r : Q, speech_rhythm_regularity t = Fin r /\ r <= 1).
Proof.
  cbv zeta. unfold _analyze_timing_patterns.
  cbn [min_pause_duration average_pause_duration_seconds speech_rhythm_regularity].
  rewrite pause_durations_are_diffs.
  destruct onsets as [| a [| b l]].
  - cbn. split; [split; [lia | reflexivity] | intros _ H; cbn in H; lia].
  - cbn. split; [split; [lia | reflexivity] | intros _ H; cbn in H; lia].
  - change (np_diff (a :: b :: l)) with ((b - a) :: np_diff (b :: l)).
    cbn [np_std one_minus_ratio]. split.
    + split; [| cbn [length]; lia].
      destruct (Qlt_le_dec 0 _); discriminate.
    + intros Hinc _.
      pose proof (np_diff_positive (a :: b :: l) Hinc) as Hpos.
      change (np_diff (a :: b :: l)) with ((b - a) :: np_diff (b :: l)) in Hpos.
      assert (Hmin : 0 < np_min_from (b - a) (np_diff (b :: l))).
      { pose proof (np_min_from_In (b - a) (np_diff (b :: l))) as Hin.
        rewrite List.Forall_forall in Hpos. exact (Hpos _ Hin). }
      pose proof (np_mean_between_min_max (b - a) (np_diff (b :: l))) as [Hlo _].
      cbn [np_min] in Hlo.
      assert (Havg : 0 < np_mean ((b - a) :: np_diff (b :: l))) by lra.
      split; [exact Hmin |]. split; [exact Havg |].
      destruct (Qlt_le_dec 0 _) as [_ | Hbad]; [| lra].
      eexists. split; [reflexivity |].
      pose proof (np_sqrt_nonneg (np_var ((b - a) :: np_diff (b :: l)))) as Hstd.
      fold (np_std_val ((b - a) :: np_diff (b :: l))) in Hstd.
      assert (0 <= np_std_val ((b - a) :: np_diff (b :: l))
                   / np_mean ((b - a) :: np_diff (b :: l))).
      { apply Qle_shift_div_l; [exact Havg | lra]. }
      lra.
Qed.

(** ** Voice characteristics *)

Lemma argmax_from_spec (pre a : list Q) (best : nat) (best_value : Q) :
  (best < length pre)%nat ->
  nth best pre 0 = best_value ->
  Forall (fun y => y <= best_value) pre ->
  let r := argmax_from best best_value (length pre) a in
  (r < length (pre ++ a))%nat /\
  Forall (fun y => y <= nth r (pre ++ a) 0) (pre ++ a).
Proof.
  revert pre best best_value.
  induction a as [| v a IH]; intros pre best bv Hlt Hnth Hall; cbn [argmax_from].
  - rewrite app_nil_r. split; [exact Hlt |]. now rewrite Hnth.
  - assert (Happ : pre ++ v :: a = (pre ++ [v]) ++ a) by now rewrite <- app_assoc.
    assert (Hlen : length (pre ++ [v]) = S (length pre))
      by (rewrite length_app; cbn; lia).
    unfold Qgtb. destruct (Qlt_le_dec bv v) as [Hgt | Hle].
    + rewrite Happ, <- Hlen. apply IH.
      * rewrite Hlen. lia.
      * rewrite app_nth2 by lia. now rewrite Nat.sub_diag.
      * apply Forall_app. split.
        -- eapply List.Forall_impl; [| exact Hall]. cbn. intros y Hy. lra.
        -- constructor; [lra | constructor].
    + rewrite Happ, <- Hlen. apply IH.
      * rewrite Hlen. lia.
      * rewrite app_nth1 by lia. exact Hnth.
      * apply Forall_app. split; [exact Hall |]. constructor; [exact Hle | constructor].
Qed.

Lemma np_argmax_spec (a : list Q) (r : nat) :
  np_argmax a = Some r ->
  (r < length a)%nat /\ Forall (fun y => y <= nth r a 0) a.
Proof.
  destruct a as [| x a]; [discriminate |]. cbn [np_argmax]. intros [= <-].
  apply (argmax_from_spec [x] a 0 x); [cbn; lia | reflexivity |].
  constructor; [lra | constructor].
Qed.

Lemma piptrack_pitch_values_spec (frames : list (list Q * list Q)) (values : list Q) :
  piptrack_pitch_values frames = Some values ->
  (length values <= length frames)%nat /\
  Forall (fun p =>
            0 < p /\
            exists pitch_column magnitude_column index,
              In (pitch_column, magnitude_column) frames /\
              np_argmax magnitude_column = Some index /\
              nth_error pitch_column index = Some p) values.
Proof.
  revert values. induction frames as [| [pc mc] frames IH]; intros values;
    cbn [piptrack_pitch_values].
  - intros [= <-]. split; [cbn; lia | constructor].
  - destruct (np_argmax mc) as [i |] eqn:Hi; [| discriminate].
    destruct (nth_error pc i) as [p |] eqn:Hp; [| discriminate].
    destruct (piptrack_pitch_values frames) as [vs |]; [| discriminate].
    destruct (IH vs eq_refl) as [Hlen Hall].
    assert (Hall' : Forall (fun p =>
              0 < p /\
              exists pitch_column magnitude_column index,
                In (pitch_column, magnitude_column) ((pc, mc) :: frames) /\
                np_argmax magnitude_column = Some index /\
                nth_error pitch_column index = Some p) vs).
    { eapply List.Forall_impl; [| exact Hall]. cbn.
      intros q (Hq & c1 & c2 & j & Hin & H1 & H2). split; [exact Hq |].
      exists c1, c2, j. split; [right; exact Hin | auto]. }
    unfold Qgtb. destruct (Qlt_le_dec 0 p) as [Hpos | _]; intros [= <-].
    + split; [cbn [length]; lia |]. constructor; [| exact Hall'].
      split; [exact Hpos |]. exists pc, mc, i. split; [left; reflexivity | auto].
    + split; [cbn [length]; lia | exact Hall'].
Qed.

Lemma np_mean_positive (x : Q) (l : list Q) :
  Forall (fun p => 0 < p) (x :: l) -> 0 < np_mean (x :: l).
Proof.
  intros H.
  assert (Hmin : 0 < np_min (x :: l)).
  { cbn [np_min]. rewrite List.Forall_forall in H. apply H. apply np_min_from_In. }
  pose proof (np_mean_between_min_max x l) as [Hlo _]. lra.
Qed.

(** X3.  Whatever piptrack returned, when the voice analysis succeeds its
    statistics are sound: every pitch it averaged was positive, so the average
    pitch, the deviation, the range and the variation coefficient are not
    negative, the expressiveness score lies between 0 and 1, and the speech
    rate is not negative (it is 0 when the duration is missing or not
    positive). *)
Theorem voice_characteristics_ranges (frames : list (list Q * list Q))
    (onsets : list Q) (duration : option Q) (freqs magnitude : list Q)
    (v : voice_characteristics) :
  _analyze_voice_characteristics frames onsets duration freqs magnitude = Some v ->
  0 <= average_pitch_hz v /\
  0 <= pitch_std v /\
  0 <= pitch_range v /\
  0 <= pitch_variation_coefficient v /\
  0 <= expressiveness_score v <= 1 /\
  0 <= speech_rate_wpm v /\
  (default 0 duration <= 0 -> speech_rate_wpm v = 0).
Proof.
  unfold _analyze_voice_characteristics.
  destruct (piptrack_pitch_values frames) as [values |] eqn:Hvalues; [| discriminate].
  intros [= <-]. apply piptrack_pitch_values_spec in Hvalues.
  destruct Hvalues as [_ Hpos].
  assert (Hpos' : Forall (fun p => 0 < p) values).
  { eapply List.Forall_impl; [| exact Hpos]. cbn beta. intros p [Hp _]. exact Hp. }
  clear Hpos. unfold voice_characteristics_of.
  cbn [average_pitch_hz pitch_std pitch_range pitch_variation_coefficient
       expressiveness_score speech_rate_wpm].
  assert (Hrate : 0 <= (if Qgtb (default 0 duration) 0
                        then inject_Z (py_len onsets) * 60 / default 1 duration
                        else 0)
                  /\ (default 0 duration <= 0 ->
                      (if Qgtb (default 0 duration) 0
                       then inject_Z (py_len onsets) * 60 / default 1 duration
                       else 0) = 0)).
  { unfold Qgtb. destruct duration as [d |]; cbn [default from_option id];
      destruct (Qlt_le_dec 0 _) as [Hd | Hd]; try (split; [lra | reflexivity || (intros; lra)]).
    split; [| intros; lra].
    apply Qle_shift_div_l; [exact Hd |].
    assert (0 <= inject_Z (py_len onsets)).
    { unfold py_len. change 0 with (inject_Z 0). rewrite <- Zle_Qle. lia. }
    lra. }
  destruct Hrate as [Hrate0 Hrate1].
  destruct values as [| p ps].
  - unfold py_min. destruct (Qlt_le_dec 1.0 (0 * 2)); repeat split; try lra; assumption.
  - pose proof (np_mean_positive p ps Hpos') as Havg.
    pose proof (np_sqrt_nonneg (np_var (p :: ps))) as Hstd.
    fold (np_std_val (p :: ps)) in Hstd.
    pose proof (np_min_le_max (p :: ps)) as Hrange.
    unfold Qgtb. destruct (Qlt_le_dec 0 (np_mean (p :: ps))) as [_ | Hbad]; [| lra].
    assert (Hpv : 0 <= np_std_val (p :: ps) / np_mean (p :: ps)).
    { apply Qle_shift_div_l; [exact Havg | lra]. }
    unfold py_min. destruct (Qlt_le_dec 1.0 _); repeat split; try lra; assumption.
Qed.

Lemma voice_characteristics_ranges_witness :
  exists v : voice_characteristics,
    _analyze_voice_characteristics
      [([100; 200; 300], [0.1; 0.5; 0.2]); ([0; 0; 0], [0; 0; 0]);
       ([110; 220; 330], [0.1; 0.5; 0.9])]
      [0.5; 1.5] (Some 3) [0; 600; 700] [1; 1; 2] = Some v /\
    0 <= expressiveness_score v <= 1.
Proof.
  destruct (_analyze_voice_characteristics _ _ _ _ _) as [v |] eqn:E.
  - exists v. split; [reflexivity |].
    apply (voice_characteristics_ranges _ _ _ _ _ _ E).
  - vm_compute in E. discriminate E.
Defined.

Lemma argmax_from_first (best : nat) (best_value : Q) (i : nat) (a : list Q) :
  Forall (fun y => y <= best_value) a -> argmax_from best best_value i a = best.
Proof.
  intros H. revert i. induction H as [| y a Hy _ IH]; intros i; cbn [argmax_from].
  - reflexivity.
  - unfold Qgtb. destruct (Qlt_le_dec best_value y); [lra | apply IH].
Qed.

Lemma region_bins_in_range (lo hi : Q) (freqs magnitude : list Q) (f m : Q) :
  In (f, m) (region_bins lo hi freqs magnitude) ->
  lo <= f <= hi /\ In (f, m) (combine freqs magnitude).
Proof.
  unfold region_bins. rewrite filter_In. cbn [fst]. intros [Hin Hb].
  apply andb_true_iff in Hb. destruct Hb as [H1 H2].
  apply Qle_bool_iff in H1, H2. auto.
Qed.

Lemma formant_of_spec (lo hi : Q) (freqs magnitude : list Q) :
  (formant_of lo hi freqs magnitude = 0 \/
   is_region_peak lo hi freqs magnitude (formant_of lo hi freqs magnitude)) /\
  (first_bin_strongest lo hi freqs magnitude -> formant_of lo hi freqs magnitude = 0).
Proof.
  unfold formant_of, is_region_peak, first_bin_strongest.
  set (region := region_bins lo hi freqs magnitude).
  split.
  - destruct (np_argmax (map snd region)) as [i |] eqn:Hi; [| left; reflexivity].
    destruct (Nat.ltb_spec 0 i) as [Hpos | _]; [| left; reflexivity].
    right. apply np_argmax_spec in Hi. destruct Hi as [Hlt Hmax].
    rewrite length_map in Hlt.
    destruct (nth_error region i) as [[f m] |] eqn:Hnth;
      [| apply nth_error_None in Hnth; lia].
    assert (Hf : nth i (map fst region) 0 = f).
    { apply nth_error_nth. rewrite nth_error_map, Hnth. reflexivity. }
    assert (Hm : nth i (map snd region) 0 = m).
    { apply nth_error_nth. rewrite nth_error_map, Hnth. reflexivity. }
    rewrite Hf. apply nth_error_In in Hnth.
    split; [apply (region_bins_in_range lo hi freqs magnitude f m Hnth) |].
    exists m. split; [exact Hnth |].
    rewrite Hm in Hmax. rewrite List.Forall_forall in Hmax |- *.
    intros fm Hfm. apply Hmax. now apply in_map.
  - destruct region as [| [f0 m0] rest]; [reflexivity |].
    intros Hfirst. cbn [map snd np_argmax].
    rewrite argmax_from_first; [reflexivity |].
    rewrite List.Forall_forall in Hfirst |- *. intros y Hy.
    apply in_map_iff in Hy. destruct Hy as (fm & <- & Hfm). now apply Hfirst.
Qed.

(** X4.  Each formant is either 0 or the frequency of a bin of its region
    (500-800 Hz for F1, 1000-2500 Hz for F2) than which no bin of the region
    is stronger.  It is 0 when the region has no bin, and also when no bin of
    the region is stronger than its first one: the index 0 of the strongest
    bin is read as "no peak". *)
Theorem formants_are_region_peaks (pitch_values onsets : list Q) (duration : option Q)
    (freqs magnitude : list Q) :
  let v := voice_characteristics_of pitch_values onsets duration freqs magnitude in
  (formant_f1_hz v = 0 \/ is_region_peak 500 800 freqs magnitude (formant_f1_hz v)) /\
  (formant_f2_hz v = 0 \/ is_region_peak 1000 2500 freqs magnitude (formant_f2_hz v)) /\
  (first_bin_strongest 500 800 freqs magnitude -> formant_f1_hz v = 0) /\
  (first_bin_strongest 1000 2500 freqs magnitude -> formant_f2_hz v = 0).
Proof.
  cbv zeta. unfold voice_characteristics_of. cbn [formant_f1_hz formant_f2_hz].
  destruct (formant_of_spec 500 800 freqs magnitude) as [H1 Q1].
  destruct (formant_of_spec 1000 2500 freqs magnitude) as [H2 Q2].
  repeat split; assumption.
Qed.

Lemma formants_are_region_peaks_witness :
  formant_f1_hz (voice_characteristics_of [120; 130] [0.5] (Some 2)
                   [0; 400; 500; 600; 700; 900] [9; 9; 5; 5; 3; 9]) = 0.
Proof.
  apply (proj1 (proj2 (proj2 (formants_are_region_peaks [120; 130] [0.5] (Some 2)
                         [0; 400; 500; 600; 700; 900] [9; 9; 5; 5; 3; 9])))).
  repeat constructor; cbn; unfold Qle; cbn; lia.
Defined.

(** ** The mapper on analysed features *)

Lemma round_half_even_monotone (x y : Q) :
  x <= y -> (round_half_even x <= round_half_even y)%Z.
Proof.
  intros Hxy. pose proof (Qfloor_resp_le x y Hxy) as Hfl.
  pose proof (Qfloor_le x) as Hx0. pose proof (Qlt_floor x) as Hx1.
  pose proof (Qfloor_le y) as Hy0. pose proof (Qlt_floor y) as Hy1.
  unfold round_half_even.
  destruct (Z.eq_dec (Qfloor x) (Qfloor y)) as [E | N].
  - rewrite E in *.
    destruct (Qcompare_spec (x - inject_Z (Qfloor y)) (1 # 2)) as [Ex | Ex | Ex];
      destruct (Qcompare_spec (y - inject_Z (Qfloor y)) (1 # 2)) as [Ey | Ey | Ey];
      try (destruct (Z.even (Qfloor y))); try lia; exfalso; lra.
  - assert (Hlt : (Qfloor x + 1 <= Qfloor y)%Z) by lia.
    destruct (Qcompare (x - inject_Z (Qfloor x)) (1 # 2));
      destruct (Qcompare (y - inject_Z (Qfloor y)) (1 # 2));
      try (destruct (Z.even (Qfloor x))); try (destruct (Z.even (Qfloor y))); lia.
Qed.

Lemma py_round2_monotone (x y : Q) : x <= y -> py_round2 x <= py_round2 y.
Proof.
  intros Hxy. unfold py_round2.
  assert (H : (round_half_even (x * 100) <= round_half_even (y * 100))%Z)
    by (apply round_half_even_monotone; lra).
  rewrite Zle_Qle in H. qconst_div.
  generalize dependent (inject_Z (round_half_even (x * 100))).
  generalize dependent (inject_Z (round_half_even (y * 100))). intros; lra.
Qed.

Lemma round_half_even_error (x : Q) :
  - (1 # 2) <= inject_Z (round_half_even x) - x <= 1 # 2.
Proof.
  pose proof (Qfloor_le x) as H0. pose proof (Qlt_floor x) as H1.
  rewrite inject_Z_plus in H1. change (inject_Z 1) with 1 in H1.
  unfold round_half_even.
  destruct (Qcompare_spec (x - inject_Z (Qfloor x)) (1 # 2)) as [E | E | E].
  - destruct (Z.even (Qfloor x)); [lra |].
    rewrite inject_Z_plus. change (inject_Z 1) with 1. lra.
  - lra.
  - rewrite inject_Z_plus. change (inject_Z 1) with 1. lra.
Qed.

Lemma py_round2_error (x : Q) : - (1 # 200) <= py_round2 x - x <= 1 # 200.
Proof.
  unfold py_round2. pose proof (round_half_even_error (x * 100)) as H. qconst_div.
  generalize dependent (inject_Z (round_half_even (x * 100))). intros; lra.
Qed.

Lemma py_clamp_monotone (lo hi x y : Q) :
  x <= y -> py_max lo (py_min hi x) <= py_max lo (py_min hi y).
Proof.
  intros Hxy. unfold py_max, py_min.
  repeat (destruct (Qlt_le_dec _ _)); lra.
Qed.

Lemma dict_get_insert (d : gmap string Q) (k : string) (v dflt : Q) :
  dict_get (<[k := v]> d) k dflt = v.
Proof. unfold dict_get. now rewrite lookup_insert_eq. Qed.

Lemma dict_get_insert_ne (d : gmap string Q) (k k' : string) (v dflt : Q) :
  k <> k' -> dict_get (<[k := v]> d) k' dflt = dict_get d k' dflt.
Proof. intros H. unfold dict_get. now rewrite lookup_insert_ne. Qed.

(** X5.  The mapper follows the features in the documented directions: more
    pitch variation never raises the stability, more expressiveness never
    lowers the style and never raises the similarity boost, and more clarity
    never lowers the similarity boost, all else being equal. *)
Theorem mapper_is_monotone (vc aq ta : gmap string Q) (rate : option Z) (x1 x2 : Q) :
  x1 <= x2 ->
  stability (_map_to_elevenlabs_settings
               (<["pitch_variation_coefficient" := x2]> vc) aq ta rate)
  <= stability (_map_to_elevenlabs_settings
                  (<["pitch_variation_coefficient" := x1]> vc) aq ta rate) /\
  style (_map_to_elevenlabs_settings (<["expressiveness_score" := x1]> vc) aq ta rate)
  <= style (_map_to_elevenlabs_settings (<["expressiveness_score" := x2]> vc) aq ta rate) /\
  similarity_boost (_map_to_elevenlabs_settings
                      (<["expressiveness_score" := x2]> vc) aq ta rate)
  <= similarity_boost (_map_to_elevenlabs_settings
                         (<["expressiveness_score" := x1]> vc) aq ta rate) /\
  similarity_boost (_map_to_elevenlabs_settings vc (<["clarity_score" := x1]> aq) ta rate)
  <= similarity_boost (_map_to_elevenlabs_settings vc (<["clarity_score" := x2]> aq) ta rate).
Proof.
  intros Hx. unfold _map_to_elevenlabs_settings.
  cbn [stability style similarity_boost].
  rewrite !dict_get_insert.
  split; [| split; [| split]]; apply py_round2_monotone, py_clamp_monotone; lra.
Qed.

Lemma mapper_is_monotone_witness :
  stability (_map_to_elevenlabs_settings
               (<["pitch_variation_coefficient" := 0.8]> ∅) ∅ ∅ None)
  <= stability (_map_to_elevenlabs_settings
                  (<["pitch_variation_coefficient" := 0.2]> ∅) ∅ ∅ None).
Proof.
  assert (H : 0.2 <= 0.8) by (unfold Qle; simpl; lia).
  exact (proj1 (mapper_is_monotone ∅ ∅ ∅ None 0.2 0.8 H)).
Defined.

(** X6.  The pause the mapper recommends is the average pause of the timing
    analysis (0.3 s when that is missing) rounded to hundredths: it is a
    whole number of hundredths, within 0.005 s of the average, and not
    negative when the average is not. *)
Theorem recommended_pause_is_rounded_average (vc aq ta : gmap string Q) (rate : option Z) :
  let avg := dict_get ta "average_pause_duration_seconds" 0.3 in
  let pause := pause_duration_seconds (_map_to_elevenlabs_settings vc aq ta rate) in
  - (1 # 200) <= pause - avg <= 1 # 200 /\
  (exists n : Z, pause == inject_Z n / 100) /\
  (0 <= avg -> 0 <= pause) /\
  (ta !! "average_pause_duration_seconds" = None -> pause == 0.3).
Proof.
  cbv zeta. unfold _map_to_elevenlabs_settings. cbn [pause_duration_seconds].
  set (avg := dict_get ta "average_pause_duration_seconds" 0.3).
  split; [apply py_round2_error |]. split; [| split].
  - exists (round_half_even (avg * 100)). reflexivity.
  - intros Havg. apply Qle_trans with (py_round2 0); [| now apply py_round2_monotone].
    vm_compute. discriminate.
  - intros Hnone. unfold avg, dict_get. rewrite Hnone. reflexivity.
Qed.

(** ** From the analysers to the settings *)

Lemma masked_sum_nonneg (mask : Q -> bool) (freqs magnitude : list Q) :
  Forall (Qle 0) magnitude -> 0 <= masked_sum mask freqs magnitude.
Proof.
  intros Hm. unfold masked_sum. apply np_sum_nonneg.
  apply List.Forall_forall. intros m Hin.
  apply in_map_iff in Hin. destruct Hin as ([f m'] & <- & Hin).
  apply filter_In in Hin. destruct Hin as [Hin _].
  apply in_combine_r in Hin. cbn.
  rewrite List.Forall_forall in Hm. now apply Hm.
Qed.

Lemma clarity_score_range (freqs magnitude : list Q) :
  Forall (Qle 0) magnitude ->
  0 <= clarity_score (_analyze_audio_quality freqs magnitude) <= 1.
Proof.
  intros Hm. unfold _analyze_audio_quality. cbn [clarity_score].
  pose proof (masked_sum_nonneg low_freq_mask freqs magnitude Hm) as Hl.
  pose proof (masked_sum_nonneg mid_freq_mask freqs magnitude Hm) as Hmid.
  pose proof (masked_sum_nonneg high_freq_mask freqs magnitude Hm) as Hh.
  fold (low_energy freqs magnitude) in Hl. fold (mid_energy freqs magnitude) in Hmid.
  fold (high_energy freqs magnitude) in Hh.
  destruct (Qlt_le_dec 0 (total_energy freqs magnitude)) as [Hpos | Hnp]; [| lra].
  unfold total_energy in *.
  set (l := low_energy freqs magnitude) in *. set (m := mid_energy freqs magnitude) in *.
  set (h := high_energy freqs magnitude) in *.
  split.
  - apply Qle_shift_div_l; [exact Hpos | lra].
  - apply Qle_shift_div_r; [exact Hpos | lra].
Qed.

Lemma expressiveness_range (pitch_values onsets : list Q) (duration : option Q)
    (freqs magnitude : list Q) :
  let v := voice_characteristics_of pitch_values onsets duration freqs magnitude in
  0 <= pitch_variation_coefficient v /\ 0 <= expressiveness_score v <= 1.
Proof.
  cbv zeta. unfold voice_characteristics_of.
  cbn [pitch_variation_coefficient expressiveness_score].
  assert (Hpv : 0 <= match pitch_values with
                     | [] => 0
                     | _ :: _ =>
                         if Qgtb (match pitch_values with
                                  | [] => 0
                                  | _ :: _ => np_mean pitch_values
                                  end) 0
                         then match pitch_values with
                              | [] => 0
                              | _ :: _ => np_std_val pitch_values
                              end / match pitch_values with
                                    | [] => 0
                                    | _ :: _ => np_mean pitch_values
                                    end
                         else 0
                     end).
  { destruct pitch_values as [| p ps]; [lra |].
    unfold Qgtb. destruct (Qlt_le_dec 0 (np_mean (p :: ps))) as [Havg | _]; [| lra].
    apply Qle_shift_div_l; [exact Havg |].
    pose proof (np_sqrt_nonneg (np_var (p :: ps))) as Hstd.
    fold (np_std_val (p :: ps)) in Hstd. lra. }
  split; [exact Hpv |].
  unfold py_min. destruct (Qlt_le_dec 1.0 _); lra.
Qed.

(** X7.  On what the analysers produce for a magnitude spectrum without
    negative entries, the mapper stays within narrower ranges than the
    documented ones: the stability is between 0.1 and 0.6, the similarity
    boost between 0.3 and 0.8 and the style between 0.3 and 0.7, also when
    the voice analysis failed and left no features. *)
Theorem settings_of_analysed_audio (frames : list (list Q * list Q))
    (onsets timing_onsets : list Q) (duration : option Q) (freqs magnitude : list Q)
    (rate : option Z) :
  Forall (Qle 0) magnitude ->
  let s := _map_to_elevenlabs_settings
             (voice_characteristics_dict
                (_analyze_voice_characteristics frames onsets duration freqs magnitude))
             (audio_quality_dict (_analyze_audio_quality freqs magnitude))
             (timing_analysis_dict (_analyze_timing_patterns timing_onsets))
             rate in
  0.1 <= stability s <= 0.6 /\
  0.3 <= similarity_boost s <= 0.8 /\
  0.3 <= style s <= 0.7.
Proof.
  intros Hm. cbv zeta.
  pose proof (clarity_score_range freqs magnitude Hm) as [Hc0 Hc1].
  assert (Hfeat : exists pv ex : Q,
            0 <= pv /\ 0 <= ex <= 1 /\
            dict_get (voice_characteristics_dict
                        (_analyze_voice_characteristics frames onsets duration freqs magnitude))
              "pitch_variation_coefficient" 0.3 = pv /\
            dict_get (voice_characteristics_dict
                        (_analyze_voice_characteristics frames onsets duration freqs magnitude))
              "expressiveness_score" 0.5 = ex).
  { destruct (_analyze_voice_characteristics frames onsets duration freqs magnitude)
      as [v |] eqn:Hv.
    - assert (Hv' : exists values, v = voice_characteristics_of values onsets duration
                                         freqs magnitude).
      { unfold _analyze_voice_characteristics in Hv.
        destruct (piptrack_pitch_values frames) as [values |]; [| discriminate].
        exists values. now injection Hv as <-. }
      destruct Hv' as [values ->].
      destruct (expressiveness_range values onsets duration freqs magnitude) as [Hpv Hex].
      set (v := voice_characteristics_of _ _ _ _ _) in *.
      exists (pitch_variation_coefficient v), (expressiveness_score v).
      split; [exact Hpv |]. split; [exact Hex |].
      unfold voice_characteristics_dict. split.
      + apply dict_get_insert.
      + rewrite dict_get_insert_ne by done. apply dict_get_insert.
    - exists 0.3, 0.5. repeat split; try lra; reflexivity. }
  destruct Hfeat as (pv & ex & Hpv & [Hex0 Hex1] & Epv & Eex).
  unfold _map_to_elevenlabs_settings. cbn [stability similarity_boost style].
  rewrite Epv, Eex.
  assert (Ecl : dict_get (audio_quality_dict (_analyze_audio_quality freqs magnitude))
                  "clarity_score" 0.7
                = clarity_score (_analyze_audio_quality freqs magnitude)).
  { unfold audio_quality_dict. apply dict_get_insert. }
  rewrite Ecl. set (c := clarity_score _) in *.
  split; [| split].
  - apply (py_round2_clamped _ _ _ 10 60); [reflexivity | reflexivity |].
    unfold py_max, py_min. repeat (destruct (Qlt_le_dec _ _)); lra.
  - apply (py_round2_clamped _ _ _ 30 80); [reflexivity | reflexivity |].
    unfold py_max, py_min. repeat (destruct (Qlt_le_dec _ _)); lra.
  - apply (py_round2_clamped _ _ _ 30 70); [reflexivity | reflexivity |].
    unfold py_max, py_min. repeat (destruct (Qlt_le_dec _ _)); lra.
Qed.

Lemma settings_of_analysed_audio_witness :
  let s := _map_to_elevenlabs_settings
             (voice_characteristics_dict
                (_analyze_voice_characteristics
                   [([100; 200], [0.2; 0.9]); ([110; 260], [0.3; 0.8])]
                   [0; 1] (Some 2) [100; 600; 700] [1; 2; 3]))
             (audio_quality_dict (_analyze_audio_quality [100; 600; 700] [1; 2; 3]))
             (timing_analysis_dict (_analyze_timing_patterns [0; 1]))
             (Some 44100%Z) in
  0.1 <= stability s <= 0.6 /\
  0.3 <= similarity_boost s <= 0.8 /\
  0.3 <= style s <= 0.7.
Proof.
  assert (H : Forall (Qle 0) [1; 2; 3])
    by (repeat constructor; unfold Qle; simpl; lia).
  exact (settings_of_analysed_audio
           [([100; 200], [0.2; 0.9]); ([110; 260], [0.3; 0.8])]
           [0; 1] [0; 1] (Some 2) [100; 600; 700] [1; 2; 3] (Some 44100%Z) H).
Defined.

(** ** The pitch contour *)

Lemma drop_nan_length (pitches : list npfloat) :
  drop_nan pitches = [] \/ (0 < py_len (drop_nan pitches))%Z.
Proof.
  destruct (drop_nan pitches); [left; reflexivity | right; unfold py_len; cbn; lia].
Qed.

Lemma piptrack_contour_spec (piptrack : option (list (list Q * list Q))) :
  piptrack_contour piptrack = [0] \/
  (piptrack_contour piptrack <> [] /\ Forall (Qlt 0) (piptrack_contour piptrack)).
Proof.
  unfold piptrack_contour. destruct piptrack as [frames |]; [| left; reflexivity].
  destruct (piptrack_pitch_values frames) as [[| p ps] |] eqn:Hv;
    [left; reflexivity | | left; reflexivity].
  right. split; [discriminate |]. apply piptrack_pitch_values_spec in Hv.
  destruct Hv as [_ Hv]. eapply List.Forall_impl; [| exact Hv].
  cbn beta. intros q [Hq _]. exact Hq.
Qed.

(** X8.  The pitch contour is never empty, so the length tests of its callers
    always pass.  It is the voiced pitches of pyin, in their order, as soon
    as pyin found one; otherwise it comes from piptrack and is either the
    single sample 0.0, which stands for "no pitch", or holds positive pitches
    only. *)
Theorem pitch_contour_never_empty (pyin : option (list npfloat))
    (piptrack : option (list (list Q * list Q))) :
  let contour := _extract_pitch_contour pyin piptrack in
  (0 < py_len contour)%Z /\
  match pyin with
  | Some pitches =>
      (drop_nan pitches <> [] /\ contour = drop_nan pitches) \/
      (drop_nan pitches = [] /\ (contour = [0] \/ Forall (Qlt 0) contour))
  | None => contour = [0] \/ Forall (Qlt 0) contour
  end.
Proof.
  cbv zeta. unfold _extract_pitch_contour.
  assert (Hpip : (0 < py_len (piptrack_contour piptrack))%Z /\
                 (piptrack_contour piptrack = [0] \/
                  Forall (Qlt 0) (piptrack_contour piptrack))).
  { destruct (piptrack_contour_spec piptrack) as [E | [Hne Hpos]].
    - rewrite E. split; [reflexivity | now left].
    - split; [| now right].
      destruct (piptrack_contour piptrack); [contradiction | unfold py_len; cbn; lia]. }
  destruct pyin as [pitches |]; [| exact Hpip].
  destruct (drop_nan pitches) as [| p ps] eqn:Hd.
  - cbn. split; [apply Hpip |]. right. split; [reflexivity | apply Hpip].
  - replace (0 <? py_len (p :: ps))%Z with true
      by (symmetry; apply Z.ltb_lt; unfold py_len; cbn; lia).
    split; [unfold py_len; cbn; lia |]. left. split; [discriminate | reflexivity].
Qed.

(** ** The emotion timeline *)

Lemma py_min_one (x : Q) : py_min 1.0 x <= 1 /\ py_min 1.0 x <= x.
Proof. unfold py_min. destruct (Qlt_le_dec x 1.0); lra. Qed.

Lemma py_min_one_nonneg (x : Q) : 0 <= x -> 0 <= py_min 1.0 x.
Proof. unfold py_min. destruct (Qlt_le_dec x 1.0); lra. Qed.

Lemma np_max_from_nonneg (x : Q) (l : list Q) : 0 <= x -> 0 <= np_max_from x l.
Proof. intros Hx. pose proof (np_max_from_upper x l) as [H _]. lra. Qed.

Section EmotionTimeline.

Variable extract_pitch_contour : list Q -> list Q.
Variable spectral_centroid_mean : list Q -> Q.
Variable rms_mean : list Q -> Q.
Variable sr : Z.

Local Abbreviation laughter_score :=
  (Emotion._detect_laughter extract_pitch_contour spectral_centroid_mean).
Local Abbreviation excitement_score :=
  (Emotion._detect_excitement extract_pitch_contour rms_mean).
Local Abbreviation recorded :=
  (Emotion.recorded_segment extract_pitch_contour spectral_centroid_mean rms_mean sr).
Local Abbreviation analyze :=
  (Emotion._analyze_emotions extract_pitch_contour spectral_centroid_mean rms_mean sr).
Local Abbreviation laughter_at :=
  (Emotion.laughter_detected extract_pitch_contour spectral_centroid_mean sr).
Local Abbreviation excitement_at :=
  (Emotion.excitement_detected extract_pitch_contour spectral_centroid_mean rms_mean sr).

Lemma recorded_segment_cases (y onsets : list Q) (i : nat) :
  match recorded y onsets i with
  | Some s =>
      (laughter_at y onsets i = true /\ excitement_at y onsets i = false /\
       Emotion.emotion_type s = "laughter" /\ 0.6 < Emotion.intensity s <= 1) \/
      (laughter_at y onsets i = false /\ excitement_at y onsets i = true /\
       Emotion.emotion_type s = "excitement" /\ 0.5 < Emotion.intensity s <= 1)
  | None => laughter_at y onsets i = false /\ excitement_at y onsets i = false
  end.
Proof.
  unfold Emotion.recorded_segment, Emotion.laughter_detected, Emotion.excitement_detected.
  destruct (segment_nonempty sr onsets (py_len y) i); [| split; reflexivity].
  set (sy := segment_samples sr y onsets i).
  unfold Emotion.classify, Qgtb. cbn [andb].
  destruct (Qlt_le_dec 0.6 (laughter_score sy)) as [Hl | Hl].
  - cbn [negb andb].
    destruct (Qlt_le_dec 0.4 (py_min 1.0 (laughter_score sy))) as [Hv | Hv].
    + left. cbn. repeat split; try reflexivity.
      * unfold py_min. destruct (Qlt_le_dec (laughter_score sy) 1.0); lra.
      * apply py_min_one.
    + exfalso. unfold py_min in Hv. destruct (Qlt_le_dec (laughter_score sy) 1.0); lra.
  - cbn [negb andb].
    destruct (Qlt_le_dec 0.5 (excitement_score sy)) as [He | He].
    + destruct (Qlt_le_dec 0.4 (py_min 1.0 (excitement_score sy))) as [Hv | Hv].
      * right. cbn. repeat split; try reflexivity.
        -- unfold py_min. destruct (Qlt_le_dec (excitement_score sy) 1.0); lra.
        -- apply py_min_one.
      * exfalso. unfold py_min in Hv.
        destruct (Qlt_le_dec (excitement_score sy) 1.0); lra.
    + destruct (Qlt_le_dec 0.4 0.3) as [Hv | Hv]; [exfalso; lra | split; reflexivity].
Qed.

Lemma recorded_segments_count (y onsets : list Q) (l : list nat) :
  length (omap (recorded y onsets) l)
  = (length (List.filter (laughter_at y onsets) l)
     + length (List.filter (excitement_at y onsets) l))%nat.
Proof.
  induction l as [| i l IH]; [reflexivity |].
  cbn [omap list_omap List.filter].
  pose proof (recorded_segment_cases y onsets i) as Hc.
  destruct (recorded y onsets i) as [s |].
  - destruct Hc as [(-> & -> & _) | (-> & -> & _)]; cbn [length]; rewrite IH; lia.
  - destruct Hc as [-> ->]. exact IH.
Qed.

(** X9.  The emotion timeline has one entry for each segment counted as
    laughter or as excitement and none for a neutral one: its length is the
    sum of these two counters.  An entry is labelled "laughter", with an
    intensity above 0.6, or "excitement", with an intensity above 0.5; no
    intensity exceeds 1. *)
Theorem emotion_timeline_matches_counts (y onsets : list Q) :
  let a := analyze y onsets in
  py_len (Emotion.emotion_segments a)
  = (Emotion.laughter (Emotion.emotion_distribution a)
     + Emotion.excitement (Emotion.emotion_distribution a))%Z /\
  Forall (fun s =>
            (Emotion.emotion_type s = "laughter" /\ 0.6 < Emotion.intensity s <= 1) \/
            (Emotion.emotion_type s = "excitement" /\ 0.5 < Emotion.intensity s <= 1))
    (Emotion.emotion_segments a).
Proof.
  cbv zeta. unfold Emotion._analyze_emotions.
  destruct (emotion_loop_counts_by_label extract_pitch_contour spectral_centroid_mean
              rms_mean sr y onsets (seq 0 (length onsets))
              {| Emotion.emotion_segments := [];
                 Emotion.emotion_distribution :=
                   {| Emotion.laughter := 0; Emotion.excitement := 0;
                      Emotion.neutral := 0 |} |}) as [Hlaugh Hexc].
  rewrite Hlaugh, Hexc, emotion_loop_segments.
  cbn [Emotion.emotion_segments Emotion.emotion_distribution Emotion.laughter
       Emotion.excitement app].
  split.
  - unfold py_len. rewrite recorded_segments_count. lia.
  - apply List.Forall_forall. intros s Hs.
    apply list_elem_of_In, list_elem_of_omap in Hs. destruct Hs as (i & _ & Hrec).
    pose proof (recorded_segment_cases y onsets i) as Hc. rewrite Hrec in Hc.
    destruct Hc as [(_ & _ & Ht & Hv) | (_ & _ & Ht & Hv)]; [left | right]; split; assumption.
Qed.

Lemma detect_laughter_short (y : list Q) :
  (py_len (extract_pitch_contour y) < 3)%Z -> laughter_score y = 0.
Proof.
  intros H. unfold Emotion._detect_laughter.
  destruct (Z.ltb_spec (py_len (extract_pitch_contour y)) 3); [reflexivity | lia].
Qed.

(** X10.  A segment in which no pitch was found (the contour is the single
    sample 0.0) has a laughter score of 0 and an excitement score of at most
    0.4, which the energy alone contributes; so it is labelled neutral and
    never enters the emotion timeline, however loud it is. *)
Theorem unvoiced_segment_is_neutral (y onsets : list Q) (i : nat) :
  extract_pitch_contour (segment_samples sr y onsets i) = [0] ->
  laughter_score (segment_samples sr y onsets i) = 0 /\
  excitement_score (segment_samples sr y onsets i) <= 0.4 /\
  recorded y onsets i = None.
Proof.
  intros Hc. set (sy := segment_samples sr y onsets i) in *.
  assert (Hl : laughter_score sy = 0).
  { apply detect_laughter_short. rewrite Hc. reflexivity. }
  assert (He : excitement_score sy <= 0.4).
  { unfold Emotion._detect_excitement. rewrite Hc.
    change (py_len [0%Q]) with 1%Z. cbn [Z.eqb Z.ltb Z.compare Pos.compare Pos.compare_cont].
    destruct (Qlt_le_dec 150 (np_mean [0])) as [Hbad | _].
    { exfalso. revert Hbad. vm_compute. discriminate. }
    pose proof (py_min_one (rms_mean sy * 10)) as [He1 _].
    pose proof (py_min_one (0 * 0.3 + py_min 1.0 (rms_mean sy * 10) * 0.4 + 0 * 0.3))
      as [_ Hs].
    lra. }
  split; [exact Hl |]. split; [exact He |].
  pose proof (recorded_segment_cases y onsets i) as Hcase.
  destruct (recorded y onsets i) as [s |]; [| reflexivity].
  exfalso.
  unfold Emotion.laughter_detected, Emotion.excitement_detected in Hcase.
  fold sy in Hcase. rewrite Hl in Hcase.
  unfold Qgtb in Hcase.
  destruct (Qlt_le_dec 0.6 0) as [Hbad | _]; [lra |].
  destruct (Qlt_le_dec 0.5 (excitement_score sy)) as [Hbad | _]; [lra |].
  rewrite !andb_false_r in Hcase.
  destruct Hcase as [(Hbad & _) | (_ & Hbad & _)]; discriminate.
Qed.

(** X11.  Both emotion scores are capped at 1, and neither is negative when
    the spectral centroid and the RMS energy of the segment are not (they
    are a frequency and an amplitude): the pitch variation, the pitch score
    and the spike score that enter them are never negative. *)
Theorem emotion_scores_in_unit_range (y : list Q) :
  0 <= spectral_centroid_mean y -> 0 <= rms_mean y ->
  0 <= Emotion._detect_laughter extract_pitch_contour spectral_centroid_mean y <= 1 /\
  0 <= Emotion._detect_excitement extract_pitch_contour rms_mean y <= 1.
Proof.
  intros Hcen Hrms. split.
  - unfold Emotion._detect_laughter.
    destruct (py_len (extract_pitch_contour y) <? 3)%Z; [lra |].
    set (c := extract_pitch_contour y).
    assert (Hpv : 0 <= (if Qlt_le_dec 0 (np_mean c) then np_std_val c / np_mean c else 0)).
    { destruct (Qlt_le_dec 0 (np_mean c)) as [Hm | _]; [| lra].
      apply Qle_shift_div_l; [exact Hm |].
      pose proof (np_sqrt_nonneg (np_var c)) as Hs. fold (np_std_val c) in Hs. lra. }
    split; [| apply py_min_one].
    apply py_min_one_nonneg. qconst_div. lra.
  - unfold Emotion._detect_excitement.
    destruct (py_len (extract_pitch_contour y) =? 0)%Z; [lra |].
    set (c := extract_pitch_contour y).
    set (pitch_score := if Qlt_le_dec 150 (np_mean c)
                        then py_min 1.0 ((np_mean c - 150) / 100) else 0).
    set (spike_score := if (2 <? py_len c)%Z
                        then if (0 <? py_len (np_diff c))%Z
                             then py_min 1.0 (np_max (map Qabs (np_diff c)) / 50.0)
                             else 0
                        else 0).
    assert (Hp : 0 <= pitch_score).
    { unfold pitch_score. destruct (Qlt_le_dec 150 (np_mean c)) as [Hm | _]; [| lra].
      apply py_min_one_nonneg. qconst_div. lra. }
    assert (Hs : 0 <= spike_score).
    { unfold spike_score. destruct (2 <? py_len c)%Z; [| lra].
      destruct (0 <? py_len (np_diff c))%Z; [| lra].
      apply py_min_one_nonneg.
      assert (Hmax : 0 <= np_max (map Qabs (np_diff c))).
      { destruct (np_diff c) as [| d ds]; [cbn; lra |].
        cbn [map np_max]. apply np_max_from_nonneg. apply Qabs_nonneg. }
      qconst_div. lra. }
    assert (He : 0 <= py_min 1.0 (rms_mean y * 10)) by (apply py_min_one_nonneg; lra).
    split; [| apply py_min_one].
    apply py_min_one_nonneg. lra.
Qed.

End EmotionTimeline.

Lemma unvoiced_segment_is_neutral_witness :
  Emotion._detect_laughter sample_pitch_tracker sample_centroid
    (segment_samples 2 sample_recording sample_onsets 1) = 0 /\
  Emotion._detect_excitement sample_pitch_tracker sample_rms
    (segment_samples 2 sample_recording sample_onsets 1) <= 0.4 /\
  Emotion.recorded_segment sample_pitch_tracker sample_centroid sample_rms 2
    sample_recording sample_onsets 1 = None.
Proof.
  apply (unvoiced_segment_is_neutral sample_pitch_tracker sample_centroid sample_rms 2
           sample_recording sample_onsets 1).
  reflexivity.
Defined.

Lemma emotion_scores_in_unit_range_witness :
  0 <= Emotion._detect_laughter sample_pitch_tracker sample_centroid sample_recording <= 1 /\
  0 <= Emotion._detect_excitement sample_pitch_tracker sample_rms sample_recording <= 1.
Proof.
  apply (emotion_scores_in_unit_range sample_pitch_tracker sample_centroid sample_rms
           sample_recording).
  - unfold sample_centroid, Qle. simpl. lia.
  - unfold sample_rms, Qle. simpl. lia.
Defined.

(** ** The dialogue patterns *)

Lemma max_by_count_fold (ts : list string) (cs : list string) (c : string) :
  let best :=
    fold_left
      (fun best t =>
         if (Dialogue.py_count best ts <? Dialogue.py_count t ts)%Z then t else best)
      cs c in
  In best (c :: cs) /\
  (Dialogue.py_count c ts <= Dialogue.py_count best ts)%Z /\
  Forall (fun t => (Dialogue.py_count t ts <= Dialogue.py_count best ts)%Z) cs.
Proof.
  cbv zeta. revert c. induction cs as [| t cs IH]; intros c; cbn [fold_left].
  - split; [now left |]. split; [lia | constructor].
  - destruct (Z.ltb_spec (Dialogue.py_count c ts) (Dialogue.py_count t ts)) as [Hlt | Hge].
    + destruct (IH t) as (Hin & Hc & Hall).
      split; [now right |]. split; [lia |]. constructor; assumption.
    + destruct (IH c) as (Hin & Hc & Hall).
      split; [destruct Hin as [<- | Hin]; [now left | right; now right] |].
      split; [exact Hc |]. constructor; [lia | assumption].
Qed.

Lemma py_count_absent (t : string) (ts : list string) :
  ~ In t ts -> Dialogue.py_count t ts = 0%Z.
Proof.
  intros Hnin. unfold Dialogue.py_count, py_len.
  induction ts as [| u ts IH]; [reflexivity |].
  cbn [List.filter]. destruct (String.eqb_spec t u) as [-> | _].
  - exfalso. apply Hnin. now left.
  - apply IH. intros Hin. apply Hnin. now right.
Qed.

Lemma py_count_nonneg (t : string) (ts : list string) : (0 <= Dialogue.py_count t ts)%Z.
Proof. unfold Dialogue.py_count, py_len. lia. Qed.

Lemma determine_pitch_trajectory_labels (contour : list Q) :
  In (_determine_pitch_trajectory contour) ["rising"; "falling"; "stable"].
Proof.
  unfold _determine_pitch_trajectory.
  destruct (py_len contour <? 3)%Z; [cbn; tauto |].
  destruct (_ || _); [cbn; tauto |].
  destruct (Qlt_le_dec 0.1 _); [cbn; tauto |].
  destruct (Qlt_le_dec _ (-0.1)); cbn; tauto.
Qed.

Section DialoguePatterns.

Variable extract_pitch_contour : list Q -> list Q.
Variable py_set : list string -> list string.
Variable sr : Z.

Local Abbreviation recorded := (Dialogue.recorded_entry extract_pitch_contour sr).
Local Abbreviation analyze :=
  (Dialogue._analyze_dialogue_pitch_patterns extract_pitch_contour py_set sr).

Lemma per_dialogue_entries (y onsets : list Q) (e : Dialogue.entry) :
  In e (Dialogue.per_dialogue (analyze y onsets)) ->
  0 < Dialogue.start_pitch_hz e /\ 0 < Dialogue.end_pitch_hz e /\
  In (Dialogue.trajectory e) ["rising"; "falling"; "stable"].
Proof.
  rewrite per_dialogue_spec. destruct (py_len onsets <? 2)%Z; [intros [] |].
  intros He. apply list_elem_of_In, list_elem_of_omap in He. destruct He as (i & _ & Hrec).
  apply recorded_entry_spec in Hrec. destruct Hrec as (_ & Hs & He & ->).
  cbn. split; [exact Hs |]. split; [exact He |]. apply determine_pitch_trajectory_labels.
Qed.

Lemma dialogue_patterns_presence (y onsets : list Q) :
  Dialogue.dialogue_patterns (analyze y onsets) = None <->
  Dialogue.per_dialogue (analyze y onsets) = [].
Proof.
  unfold Dialogue._analyze_dialogue_pitch_patterns.
  destruct (py_len onsets <? 2)%Z; [split; reflexivity |].
  destruct (run_loop_spec extract_pitch_contour sr y onsets) as (H1 & H2 & H3 & _).
  cbv zeta in *. rewrite H2, H3, H1.
  destruct (omap _ _) as [| e es]; cbn; [split; reflexivity | split; discriminate].
Qed.

(** X12.  The summary [dialogue_patterns] is present exactly when
    [per_dialogue] has an entry.  When it is, both average pitches are
    positive, and the pitch variation range is at least the distance between
    the average start pitch and the average end pitch. *)
Theorem dialogue_patterns_summary (y onsets : list Q) :
  let r := analyze y onsets in
  (Dialogue.dialogue_patterns r = None <-> Dialogue.per_dialogue r = []) /\
  (forall p : Dialogue.patterns,
     Dialogue.dialogue_patterns r = Some p ->
     0 < Dialogue.average_start_pitch_hz p /\
     0 < Dialogue.average_end_pitch_hz p /\
     Qabs (Dialogue.average_start_pitch_hz p - Dialogue.average_end_pitch_hz p)
     <= Dialogue.pitch_variation_range p).
Proof.
  cbv zeta. split; [apply dialogue_patterns_presence |].
  intros p Hp.
  destruct (dialogue_patterns_spec _ _ _ _ _ _ Hp) as (Hs & He & Hr & _).
  cbv zeta in *. rewrite Hs, He, Hr.
  pose proof (per_dialogue_entries y onsets) as Hent.
  destruct (Dialogue.per_dialogue (analyze y onsets)) as [| e es] eqn:Hpd.
  { apply dialogue_patterns_presence in Hpd. rewrite Hpd in Hp. discriminate. }
  set (S := map Dialogue.start_pitch_hz (e :: es)).
  set (E := map Dialogue.end_pitch_hz (e :: es)).
  assert (HS : Forall (fun p => 0 < p) S).
  { apply List.Forall_forall. intros q Hq. apply in_map_iff in Hq.
    destruct Hq as (e' & <- & Hin). now apply Hent. }
  assert (HE : Forall (fun p => 0 < p) E).
  { apply List.Forall_forall. intros q Hq. apply in_map_iff in Hq.
    destruct Hq as (e' & <- & Hin). now apply Hent. }
  pose proof (np_min_lower (S ++ E)) as Hlo. pose proof (np_max_upper (S ++ E)) as Hhi.
  apply List.Forall_app in Hlo, Hhi. destruct Hlo as [HloS HloE], Hhi as [HhiS HhiE].
  assert (HbS : np_min (S ++ E) <= np_mean S <= np_max (S ++ E)).
  { unfold S. cbn [map]. apply np_mean_bounds. fold (map Dialogue.start_pitch_hz (e :: es)).
    fold S. rewrite List.Forall_forall in *. intros q Hq. split; [now apply HloS | now apply HhiS]. }
  assert (HbE : np_min (S ++ E) <= np_mean E <= np_max (S ++ E)).
  { unfold E. cbn [map]. apply np_mean_bounds. fold (map Dialogue.end_pitch_hz (e :: es)).
    fold E. rewrite List.Forall_forall in *. intros q Hq. split; [now apply HloE | now apply HhiE]. }
  split; [unfold S; cbn [map]; apply np_mean_positive; exact HS |].
  split; [unfold E; cbn [map]; apply np_mean_positive; exact HE |].
  apply Qabs_case; intros _; lra.
Qed.

(** X13.  When iterating over [set(trajectories)] visits exactly the labels
    that occur in [trajectories], the common trajectory is one of the labels
    of the entries and no label occurs among them more often; it is
    "rising", "falling" or "stable". *)
Theorem common_trajectory_is_most_frequent (y onsets : list Q) (p : Dialogue.patterns) :
  (forall (l : list string) (t : string), In t (py_set l) <-> In t l) ->
  Dialogue.dialogue_patterns (analyze y onsets) = Some p ->
  let labels := map Dialogue.trajectory (Dialogue.per_dialogue (analyze y onsets)) in
  In (Dialogue.common_trajectory p) labels /\
  (forall t : string,
     (Dialogue.py_count t labels <= Dialogue.py_count (Dialogue.common_trajectory p) labels)%Z) /\
  In (Dialogue.common_trajectory p) ["rising"; "falling"; "stable"].
Proof.
  intros Hset Hp. cbv zeta.
  destruct (dialogue_patterns_spec _ _ _ _ _ _ Hp) as (_ & _ & _ & Hc).
  cbv zeta in Hc. rewrite Hc.
  pose proof (per_dialogue_entries y onsets) as Hent.
  destruct (Dialogue.per_dialogue (analyze y onsets)) as [| e es] eqn:Hpd.
  { apply dialogue_patterns_presence in Hpd. rewrite Hpd in Hp. discriminate. }
  set (labels := map Dialogue.trajectory (e :: es)).
  assert (Hne : exists c cs, py_set labels = c :: cs).
  { destruct (py_set labels) as [| c cs] eqn:Hs; [| now exists c, cs].
    exfalso. assert (Hin : In (Dialogue.trajectory e) (py_set labels)).
    { apply Hset. now left. }
    rewrite Hs in Hin. destruct Hin. }
  destruct Hne as (c & cs & Hs). rewrite Hs. unfold Dialogue.max_by_count.
  destruct (max_by_count_fold labels cs c) as (Hin & Hcb & Hall). cbv zeta in *.
  set (best := fold_left _ cs c) in *.
  assert (Hbest : In best labels) by (apply Hset; rewrite Hs; exact Hin).
  split; [exact Hbest |]. split.
  - intros t. destruct (in_dec string_dec t labels) as [Ht | Ht].
    + apply Hset in Ht. rewrite Hs in Ht. destruct Ht as [<- | Ht]; [exact Hcb |].
      rewrite List.Forall_forall in Hall. now apply Hall.
    + rewrite (py_count_absent t labels Ht). apply py_count_nonneg.
  - unfold labels in Hbest. apply in_map_iff in Hbest. destruct Hbest as (e' & <- & He').
    now apply Hent.
Qed.

End DialoguePatterns.

Lemma common_trajectory_is_most_frequent_witness :
  exists p : Dialogue.patterns,
    Dialogue.dialogue_patterns
      (Dialogue._analyze_dialogue_pitch_patterns sample_pitch_tracker (fun l => l) 2
         sample_recording sample_onsets) = Some p /\
    In (Dialogue.common_trajectory p) ["rising"; "falling"; "stable"].
Proof.
  destruct (Dialogue.dialogue_patterns
              (Dialogue._analyze_dialogue_pitch_patterns sample_pitch_tracker (fun l => l) 2
                 sample_recording sample_onsets)) as [p |] eqn:E.
  - exists p. split; [reflexivity |].
    apply (common_trajectory_is_most_frequent sample_pitch_tracker (fun l => l) 2
             sample_recording sample_onsets p (fun l t => iff_refl (In t l)) E).
  - vm_compute in E. discriminate E.
Defined.

(** ** The segments between the onsets *)

Lemma py_int_nonneg (x : Q) : 0 <= x -> py_int x = Qfloor x.
Proof.
  intros Hx. unfold py_int. destruct x as [n d]. cbn [Qnum Qden Qfloor].
  apply Z.quot_div_nonneg; [| lia].
  unfold Qle in Hx. cbn in Hx. lia.
Qed.

Lemma py_int_monotone (x y : Q) : 0 <= x -> x <= y -> (0 <= py_int x <= py_int y)%Z.
Proof.
  intros Hx Hxy. rewrite !py_int_nonneg by lra. split.
  - rewrite <- (Qfloor_Z 0). now apply Qfloor_resp_le.
  - now apply Qfloor_resp_le.
Qed.

Lemma non_decreasing_nth (l : list Q) (i : nat) :
  non_decreasing l -> (S i < length l)%nat -> nth i l 0 <= nth (S i) l 0.
Proof.
  revert i. induction l as [| a l IH]; intros i Hnd Hi; [cbn in Hi; lia |].
  destruct l as [| b l]; [cbn in Hi; lia |].
  destruct Hnd as [Hab Hnd]. destruct i as [| i]; [exact Hab |].
  change (nth i (b :: l) 0 <= nth (S i) (b :: l) 0). apply IH; [exact Hnd |].
  cbn [length] in *. lia.
Qed.

Lemma Forall_nth_nonneg (l : list Q) (i : nat) : Forall (Qle 0) l -> 0 <= nth i l 0.
Proof.
  intros H. destruct (Nat.lt_ge_cases i (length l)) as [Hi | Hi].
  - rewrite List.Forall_forall in H. apply H. now apply nth_In.
  - rewrite nth_overflow by exact Hi. lra.
Qed.

(** A slice between two bounds that are not negative. *)
Lemma py_slice_between {A : Type} (l : list A) (a b : Z) :
  (0 <= a)%Z -> (0 <= b)%Z ->
  py_slice l (Some a) (Some b)
  = firstn (Nat.min (Z.to_nat b) (length l) - Nat.min (Z.to_nat a) (length l))
      (skipn (Nat.min (Z.to_nat a) (length l)) l).
Proof.
  intros Ha Hb. unfold py_slice, py_index.
  destruct (Z.ltb_spec a 0); [lia |]. destruct (Z.ltb_spec b 0); [lia |].
  f_equal; [| f_equal]; lia.
Qed.

Lemma py_slice_from {A : Type} (l : list A) (a : Z) :
  (0 <= a)%Z ->
  py_slice l (Some a) None = skipn (Nat.min (Z.to_nat a) (length l)) l.
Proof.
  intros Ha. unfold py_slice, py_index. destruct (Z.ltb_spec a 0); [lia |].
  replace (Z.to_nat (Z.min a (Z.of_nat (length l))))
    with (Nat.min (Z.to_nat a) (length l)) by lia.
  apply firstn_all2. rewrite length_skipn. lia.
Qed.

Lemma firstn_skipn_join {A : Type} (l : list A) (a b : nat) :
  (a <= b)%nat -> firstn (b - a) (skipn a l) ++ skipn b l = skipn a l.
Proof.
  intros Hab. replace b with ((b - a) + a)%nat at 2 by lia.
  rewrite <- skipn_skipn. apply firstn_skipn.
Qed.

Lemma py_slice_join {A : Type} (l : list A) (a b : Z) :
  (0 <= a <= b)%Z ->
  py_slice l (Some a) (Some b) ++ py_slice l (Some b) None = py_slice l (Some a) None.
Proof.
  intros Hab. rewrite py_slice_between, !py_slice_from by lia.
  apply firstn_skipn_join. lia.
Qed.

Lemma py_slice_to_end {A : Type} (l : list A) (a : Z) :
  (0 <= a)%Z -> py_slice l (Some a) (Some (py_len l)) = py_slice l (Some a) None.
Proof.
  intros Ha. unfold py_len. rewrite py_slice_between, py_slice_from by lia.
  rewrite Nat2Z.id, Nat.min_id. apply firstn_all2. rewrite length_skipn. lia.
Qed.

Lemma py_slice_empty {A : Type} (l : list A) (a b : Z) :
  (0 <= a)%Z -> (0 <= b <= a)%Z -> py_slice l (Some a) (Some b) = [].
Proof.
  intros Ha Hb. rewrite py_slice_between by lia.
  replace (_ - _)%nat with 0%nat by lia. reflexivity.
Qed.

Section Segments.

Variable sr : Z.
Variable y : list Q.
Variable onsets : list Q.
Hypothesis sr_nonneg : (0 <= sr)%Z.
Hypothesis onsets_nonneg : Forall (Qle 0) onsets.
Hypothesis onsets_ordered : non_decreasing onsets.

Lemma segment_start_nonneg (i : nat) : (0 <= segment_start sr onsets i)%Z.
Proof.
  unfold segment_start.
  assert (Hx : 0 <= nth i onsets 0 * inject_Z sr).
  { apply Qmult_le_0_compat; [now apply Forall_nth_nonneg |].
    change 0 with (inject_Z 0). now rewrite <- Zle_Qle. }
  now apply (py_int_monotone _ _ (Qle_refl 0) Hx).
Qed.

Lemma segment_start_monotone (i : nat) :
  (S i < length onsets)%nat ->
  (segment_start sr onsets i <= segment_start sr onsets (S i))%Z.
Proof.
  intros Hi. unfold segment_start.
  assert (Hsr : 0 <= inject_Z sr).
  { change 0 with (inject_Z 0). now rewrite <- Zle_Qle. }
  pose proof (Forall_nth_nonneg onsets i onsets_nonneg) as H0.
  pose proof (non_decreasing_nth onsets i onsets_ordered Hi) as H1.
  apply py_int_monotone.
  - now apply Qmult_le_0_compat.
  - apply Qmult_le_compat_r; assumption.
Qed.

Lemma segment_end_next (i : nat) :
  (S i < length onsets)%nat ->
  segment_end sr onsets (py_len y) i = segment_start sr onsets (S i).
Proof.
  intros Hi. unfold segment_end, segment_start, py_len.
  destruct (Z.ltb_spec (Z.of_nat i) (Z.of_nat (length onsets) - 1)); [| lia].
  now rewrite Nat.add_1_r.
Qed.

Lemma segment_end_last (i : nat) :
  (length onsets <= S i)%nat -> segment_end sr onsets (py_len y) i = py_len y.
Proof.
  intros Hi. unfold segment_end, py_len.
  destruct (Z.ltb_spec (Z.of_nat i) (Z.of_nat (length onsets) - 1)); [lia | reflexivity].
Qed.

Lemma segment_end_nonneg (i : nat) : (0 <= segment_end sr onsets (py_len y) i)%Z.
Proof.
  destruct (Nat.lt_ge_cases (S i) (length onsets)) as [Hi | Hi].
  - rewrite segment_end_next by exact Hi. apply segment_start_nonneg.
  - rewrite segment_end_last by exact Hi. unfold py_len. lia.
Qed.

Lemma skipped_segment_is_empty (i : nat) :
  segment_nonempty sr onsets (py_len y) i = false -> segment_samples sr y onsets i = [].
Proof.
  unfold segment_nonempty, segment_samples. intros H.
  apply negb_false_iff, Z.leb_le in H.
  apply py_slice_empty; [apply segment_start_nonneg |].
  split; [apply segment_end_nonneg | exact H].
Qed.

Lemma segments_from (m k : nat) :
  (k + S m = length onsets)%nat ->
  concat (map (segment_samples sr y onsets) (seq k (S m)))
  = py_slice y (Some (segment_start sr onsets k)) None.
Proof.
  revert k. induction m as [| m IH]; intros k Hk.
  - cbn [seq map concat]. rewrite app_nil_r. unfold segment_samples.
    rewrite segment_end_last by lia. apply py_slice_to_end, segment_start_nonneg.
  - change (seq k (S (S m))) with (k :: seq (S k) (S m)). cbn [map concat].
    rewrite IH by lia. unfold segment_samples at 1.
    rewrite segment_end_next by lia. apply py_slice_join.
    split; [apply segment_start_nonneg | apply segment_start_monotone; lia].
Qed.

Lemma analysed_segments_concat (l : list nat) :
  concat (map (segment_samples sr y onsets)
            (List.filter (segment_nonempty sr onsets (py_len y)) l))
  = concat (map (segment_samples sr y onsets) l).
Proof.
  induction l as [| i l IH]; [reflexivity |]. cbn [List.filter map concat].
  destruct (segment_nonempty sr onsets (py_len y) i) eqn:Hne.
  - cbn [map concat]. now rewrite IH.
  - rewrite (skipped_segment_is_empty i Hne). exact IH.
Qed.

End Segments.

(** X14.  For a sample rate and onset times that are not negative, the onsets
    in non-decreasing order, the segments the emotion and dialogue loops
    analyse are consecutive and disjoint pieces of the recording: put end to
    end they are the recording from the first onset on, and a segment the
    loops skip holds no sample.  What precedes the first onset belongs to no
    segment. *)
Theorem segments_tile_the_recording (sr : Z) (y onsets : list Q) :
  (0 <= sr)%Z -> Forall (Qle 0) onsets -> non_decreasing onsets ->
  concat (map (segment_samples sr y onsets)
            (List.filter (segment_nonempty sr onsets (py_len y)) (seq 0 (length onsets))))
  = match onsets with
    | [] => []
    | _ :: _ => py_slice y (Some (segment_start sr onsets 0)) None
    end /\
  (forall i : nat,
     segment_nonempty sr onsets (py_len y) i = false ->
     segment_samples sr y onsets i = []).
Proof.
  intros Hsr Hnn Hord. split.
  - rewrite (analysed_segments_concat sr y onsets Hsr Hnn).
    destruct onsets as [| a l] eqn:E; [reflexivity |]. rewrite <- E in *.
    replace (length onsets) with (S (length l)) by (rewrite E; reflexivity).
    apply (segments_from sr y onsets Hsr Hnn Hord). rewrite E. cbn [length]. lia.
  - intros i. apply (skipped_segment_is_empty sr y onsets Hsr Hnn).
Qed.

Lemma segments_tile_the_recording_witness :
  concat (map (segment_samples 2 sample_recording sample_onsets)
            (List.filter (segment_nonempty 2 sample_onsets (py_len sample_recording))
               (seq 0 (length sample_onsets))))
  = py_slice sample_recording (Some (segment_start 2 sample_onsets 0)) None.
Proof.
  assert (H1 : (0 <= 2)%Z) by lia.
  assert (H2 : Forall (Qle 0) sample_onsets)
    by (repeat constructor; unfold Qle; simpl; lia).
  assert (H3 : non_decreasing sample_onsets)
    by (repeat split; unfold Qle; simpl; lia).
  exact (proj1 (segments_tile_the_recording 2 sample_recording sample_onsets H1 H2 H3)).
Defined.

(** ** The opening and closing windows *)

Lemma Qfloor_tenth (n : Z) : Qfloor (inject_Z n / 10) = (n / 10)%Z.
Proof.
  assert (E : inject_Z n / 10 == n # 10).
  { unfold Qeq, Qdiv, Qmult, Qinv, inject_Z. cbn. lia. }
  rewrite E. reflexivity.
Qed.

Lemma window_samples (sr : Z) (y : list Q) :
  (0 < sr)%Z ->
  py_int (Script.opening_duration sr y * inject_Z sr) = Z.min (2 * sr) (py_len y / 10).
Proof.
  intros Hsr. unfold Script.opening_duration, Script.duration.
  assert (Hq : 0 < inject_Z sr) by (change 0 with (inject_Z 0); now rewrite <- Zlt_Qlt).
  assert (Hl : 0 <= inject_Z (py_len y)).
  { change 0 with (inject_Z 0). rewrite <- Zle_Qle. unfold py_len. lia. }
  assert (Ed : inject_Z (py_len y) / inject_Z sr * 0.1 * inject_Z sr
               == inject_Z (py_len y) / 10) by (field; lra).
  assert (Hd : 0 <= inject_Z (py_len y) / inject_Z sr).
  { apply Qle_shift_div_l; [exact Hq | lra]. }
  unfold py_min. destruct (Qlt_le_dec (inject_Z (py_len y) / inject_Z sr * 0.1) 2.0) as [Hlt | Hge].
  - rewrite py_int_nonneg by (apply Qmult_le_0_compat; lra).
    rewrite Ed, Qfloor_tenth.
    assert (Hlt' : inject_Z (py_len y) / 10 < 2 * inject_Z sr).
    { rewrite <- Ed. apply Qmult_lt_compat_r with (z := inject_Z sr) in Hlt; [| exact Hq]. lra. }
    assert (Hz : (py_len y / 10 < 2 * sr)%Z).
    { apply Z.div_lt_upper_bound; [lia |].
      apply Qmult_lt_compat_r with (z := 10) in Hlt'; [| lra].
      assert (E1 : inject_Z (py_len y) / 10 * 10 == inject_Z (py_len y)) by (field; lra).
      rewrite E1 in Hlt'.
      assert (E2 : 2 * inject_Z sr * 10 == inject_Z (10 * (2 * sr))).
      { rewrite !inject_Z_mult. change (inject_Z 10) with 10. change (inject_Z 2) with 2. ring. }
      rewrite E2 in Hlt'. rewrite Zlt_Qlt. exact Hlt'. }
    lia.
  - rewrite py_int_nonneg by (apply Qmult_le_0_compat; lra).
    assert (E2 : 2.0 * inject_Z sr == inject_Z (2 * sr)).
    { rewrite inject_Z_mult. change (inject_Z 2) with 2. ring. }
    rewrite E2, Qfloor_Z.
    assert (Hge' : 2 * inject_Z sr <= inject_Z (py_len y) / 10).
    { rewrite <- Ed. apply Qmult_le_compat_r with (z := inject_Z sr) in Hge; lra. }
    assert (Hz : (2 * sr <= py_len y / 10)%Z).
    { apply Z.div_le_lower_bound; [lia |].
      apply Qmult_le_compat_r with (z := 10) in Hge'; [| lra].
      assert (E1 : inject_Z (py_len y) / 10 * 10 == inject_Z (py_len y)) by (field; lra).
      rewrite E1 in Hge'.
      assert (E3 : 2 * inject_Z sr * 10 == inject_Z (10 * (2 * sr))).
      { rewrite !inject_Z_mult. change (inject_Z 10) with 10. change (inject_Z 2) with 2. ring. }
      rewrite E3 in Hge'. rewrite Zle_Qle. exact Hge'. }
    lia.
Qed.

Lemma py_slice_prefix_len {A : Type} (l : list A) (k : Z) :
  (0 <= k <= py_len l)%Z ->
  py_slice l None (Some k) = firstn (Z.to_nat k) l /\
  py_slice l (Some (py_len l - k)%Z) None = skipn (length l - Z.to_nat k) l.
Proof.
  unfold py_len. intros Hk. split.
  - unfold py_slice, py_index. destruct (Z.ltb_spec k 0); [lia |].
    cbn [skipn Z.to_nat]. f_equal. lia.
  - rewrite py_slice_from by lia. f_equal. lia.
Qed.

Lemma script_window_ends (sr : Z) (y : list Q) :
  (0 < sr)%Z ->
  let k := Z.min (2 * sr) (py_len y / 10) in
  (0 <= k)%Z /\ (2 * k <= py_len y)%Z /\
  Script.opening_end sr y = k /\ Script.closing_start sr y = (py_len y - k)%Z.
Proof.
  intros Hsr. cbv zeta.
  pose proof (window_samples sr y Hsr) as Hk.
  set (k := Z.min (2 * sr) (py_len y / 10)) in *.
  assert (Hlen : (0 <= py_len y)%Z) by (unfold py_len; lia).
  assert (Hdiv : (0 <= py_len y / 10 /\ 10 * (py_len y / 10) <= py_len y)%Z).
  { split; [apply Z.div_pos; lia | apply Z.mul_div_le; lia]. }
  split; [lia |]. split; [lia |]. split.
  - unfold Script.opening_end. rewrite Hk. lia.
  - unfold Script.closing_start, Script.closing_duration.
    fold (Script.opening_duration sr y). rewrite Hk. lia.
Qed.

(** X15.  At a positive sample rate the opening and the closing window of the
    script analysis hold the same number of samples: the samples of two
    seconds, or a tenth of the recording (rounded down) if that is less.
    The opening window is the start of the recording and the closing window
    its end, the two never overlap, and a recording of fewer than ten
    samples leaves both empty. *)
Theorem script_windows (sr : Z) (y : list Q) :
  (0 < sr)%Z ->
  let k := Z.min (2 * sr) (py_len y / 10) in
  Script.opening_y sr y = firstn (Z.to_nat k) y /\
  Script.closing_y sr y = skipn (length y - Z.to_nat k) y /\
  py_len (Script.opening_y sr y) = k /\
  py_len (Script.closing_y sr y) = k /\
  (Script.opening_end sr y <= Script.closing_start sr y)%Z /\
  Script.opening_y sr y
    ++ py_slice y (Some (Script.opening_end sr y)) (Some (Script.closing_start sr y))
    ++ Script.closing_y sr y = y.
Proof.
  intros Hsr. cbv zeta.
  destruct (script_window_ends sr y Hsr) as (Hk0 & Hk2 & Eo & Ec).
  set (k := Z.min (2 * sr) (py_len y / 10)) in *.
  assert (Hlen : (0 <= py_len y)%Z) by (unfold py_len; lia).
  destruct (py_slice_prefix_len y k) as [Ho Hc]; [lia |].
  unfold Script.opening_y, Script.closing_y. rewrite Eo, Ec, Ho, Hc.
  assert (Hn : (Z.to_nat k <= length y - Z.to_nat k)%nat) by (unfold py_len in *; lia).
  split; [reflexivity |]. split; [reflexivity |].
  split; [unfold py_len in *; rewrite length_firstn; lia |].
  split; [unfold py_len in *; rewrite length_skipn; lia |].
  split; [lia |].
  rewrite py_slice_between by lia.
  replace (Nat.min (Z.to_nat k) (length y)) with (Z.to_nat k) by (unfold py_len in *; lia).
  replace (Nat.min (Z.to_nat (py_len y - k)) (length y)) with (length y - Z.to_nat k)%nat
    by (unfold py_len in *; lia).
  rewrite firstn_skipn_join by exact Hn. apply firstn_skipn.
Qed.

Lemma script_windows_witness :
  Script.opening_y 2 (sample_recording ++ sample_recording) = [220; 220] /\
  Script.closing_y 2 (sample_recording ++ sample_recording) = [0; 130].
Proof.
  assert (H : (0 < 2)%Z) by lia.
  pose proof (script_windows 2 (sample_recording ++ sample_recording) H) as W.
  cbv zeta in W. destruct W as (Ho & Hc & _). split; [exact Ho | exact Hc].
Defined.

(** ** The per-dialogue overrides, rule by rule *)

Ltac other_key :=
  repeat (rewrite lookup_insert_ne by (intros E; symmetry in E; contradiction));
  try reflexivity.

Lemma apply_opening_frame (idx : nat) (cfg : Comparison.analysis_config)
    (b : gmap string Q) (k : string) :
  k <> "stability" -> k <> "style" -> Comparison.apply_opening idx cfg b !! k = b !! k.
Proof.
  intros H1 H2. unfold Comparison.apply_opening.
  destruct (Comparison.opening cfg) as [o |]; [| reflexivity].
  destruct (Z.of_nat idx =? 0)%Z; [| reflexivity].
  destruct (Comparison.is_label _ "rising"); [| destruct (Comparison.is_label _ "falling")];
    destruct (Qgtb _ 180); other_key.
Qed.

Lemma apply_closing_frame (idx total : nat) (cfg : Comparison.analysis_config)
    (b : gmap string Q) (k : string) :
  k <> "stability" -> k <> "style" -> Comparison.apply_closing idx total cfg b !! k = b !! k.
Proof.
  intros H1 H2. unfold Comparison.apply_closing.
  destruct (Comparison.closing cfg) as [c |]; [| reflexivity].
  destruct (Z.of_nat idx =? Z.of_nat total - 1)%Z; [| reflexivity].
  destruct (Comparison.is_label _ "falling"); destruct (Qgtb 170 _); other_key.
Qed.

Lemma apply_per_dialogue_frame (idx : nat) (cfg : Comparison.analysis_config)
    (b : gmap string Q) (k : string) :
  k <> "style" -> Comparison.apply_per_dialogue idx cfg b !! k = b !! k.
Proof.
  intros H2. unfold Comparison.apply_per_dialogue.
  destruct (nth_error _ idx) as [dp |]; [| reflexivity].
  destruct (String.eqb _ "falling"); [| destruct (String.eqb _ "rising")];
    (destruct (Qgtb _ 0 && Qgtb _ 0); [| other_key]);
    (destruct (Qgtb _ 10); [| destruct (Qgtb (-10) _)]); other_key.
Qed.

Lemma apply_text_emotion_frame (text : string) (b : gmap string Q) (k : string) :
  k <> "stability" -> k <> "style" -> Comparison.apply_text_emotion text b !! k = b !! k.
Proof.
  intros H1 H2. unfold Comparison.apply_text_emotion.
  destruct (Comparison.is_label _ "laughter");
    [| destruct (Comparison.is_label _ "excitement")]; other_key.
Qed.

Lemma apply_emotion_segments_frame (idx : nat) (segs : list Comparison.emotion_segment)
    (b : gmap string Q) (k : string) :
  k <> "stability" -> k <> "style" ->
  fold_left (Comparison.apply_emotion_segment idx) segs b !! k = b !! k.
Proof.
  intros H1 H2. revert b. induction segs as [| seg segs IH]; intros b; cbn [fold_left].
  - reflexivity.
  - rewrite IH. unfold Comparison.apply_emotion_segment.
    destruct (bool_decide _); [| reflexivity].
    destruct (Comparison.is_label _ "laughter");
      [| destruct (Comparison.is_label _ "excitement")]; other_key.
Qed.

Lemma before_clamp_frame (idx total : nat) (text : string)
    (cfg : Comparison.analysis_config) (b : gmap string Q) (k : string) :
  k <> "stability" -> k <> "style" ->
  fold_left (Comparison.apply_emotion_segment idx) (Comparison.emotion_segments cfg)
    (Comparison.apply_text_emotion text
       (Comparison.apply_per_dialogue idx cfg
          (Comparison.apply_closing idx total cfg (Comparison.apply_opening idx cfg b))))
  !! k = b !! k.
Proof.
  intros H1 H2.
  rewrite apply_emotion_segments_frame, apply_text_emotion_frame, apply_per_dialogue_frame,
    apply_closing_frame, apply_opening_frame by assumption.
  reflexivity.
Qed.

Lemma clamp_settings_stability (b : gmap string Q) :
  Comparison.clamp_settings b !! "stability"
  = Some (py_max 0.1 (py_min 0.9 (dict_get b "stability" 0.35))).
Proof.
  unfold Comparison.clamp_settings.
  rewrite !lookup_insert_ne by done. now rewrite lookup_insert_eq.
Qed.

Lemma clamp_settings_similarity (b : gmap string Q) :
  Comparison.clamp_settings b !! "similarity_boost"
  = Some (py_max 0.3 (py_min 0.9 (dict_get b "similarity_boost" 0.75))).
Proof.
  unfold Comparison.clamp_settings. rewrite lookup_insert_eq.
  unfold dict_get. rewrite !lookup_insert_ne by done. reflexivity.
Qed.

(** X16.  The override function changes nothing but the three bounded
    controls: every other entry of the base settings (the pause, for one)
    comes back as it was, no entry is added, and the similarity boost is the
    base one (0.75 when missing), only clamped to [0.3, 0.9]: no rule ever
    adjusts it. *)
Theorem overrides_leave_other_settings (dialogue_index total_dialogues : nat)
    (text : string) (cfg : Comparison.analysis_config) :
  let base := default Comparison.DEFAULT_SETTINGS
                (Comparison.recommended_elevenlabs_settings cfg) in
  let result := Comparison.get_dialogue_settings_version_b
                  dialogue_index total_dialogues text cfg in
  (forall k : string,
     k <> "stability" -> k <> "style" -> k <> "similarity_boost" ->
     result !! k = base !! k) /\
  result !! "similarity_boost"
  = Some (py_max 0.3 (py_min 0.9 (dict_get base "similarity_boost" 0.75))).
Proof.
  cbv zeta. unfold Comparison.get_dialogue_settings_version_b.
  set (base := default Comparison.DEFAULT_SETTINGS _).
  split.
  - intros k H1 H2 H3. unfold Comparison.clamp_settings.
    rewrite !lookup_insert_ne by (intros E; symmetry in E; contradiction).
    now apply before_clamp_frame.
  - rewrite clamp_settings_similarity. unfold dict_get.
    now rewrite before_clamp_frame by done.
Qed.

Lemma py_clamp_inside (lo hi x : Q) : lo < x < hi -> py_max lo (py_min hi x) = x.
Proof.
  intros [H1 H2]. unfold py_max, py_min.
  destruct (Qlt_le_dec x hi); [| exfalso; lra].
  destruct (Qlt_le_dec lo x); [reflexivity | exfalso; lra].
Qed.

(** The final clamp changes nothing in settings that hold the three controls
    strictly within their ranges. *)
Lemma clamp_settings_inside (b : gmap string Q) (stability style similarity_boost : Q) :
  b !! "stability" = Some stability -> b !! "style" = Some style ->
  b !! "similarity_boost" = Some similarity_boost ->
  0.1 < stability < 0.9 -> 0.1 < style < 0.9 -> 0.3 < similarity_boost < 0.9 ->
  Comparison.clamp_settings b = b.
Proof.
  intros E1 E2 E3 H1 H2 H3. unfold Comparison.clamp_settings, dict_get.
  rewrite E1. cbn [default]. unfold id. rewrite (py_clamp_inside _ _ _ H1).
  rewrite (insert_id b "stability" stability E1).
  rewrite E2. cbn [default]. unfold id. rewrite (py_clamp_inside _ _ _ H2).
  rewrite (insert_id b "style" style E2).
  rewrite E3. cbn [default]. unfold id. rewrite (py_clamp_inside _ _ _ H3).
  apply (insert_id b "similarity_boost" similarity_boost E3).
Qed.

Lemma DEFAULT_SETTINGS_entries :
  Comparison.DEFAULT_SETTINGS !! "stability" = Some 0.35 /\
  Comparison.DEFAULT_SETTINGS !! "style" = Some 0.55 /\
  Comparison.DEFAULT_SETTINGS !! "similarity_boost" = Some 0.75.
Proof.
  unfold Comparison.DEFAULT_SETTINGS. split; [| split].
  - now rewrite lookup_insert_eq.
  - rewrite !lookup_insert_ne by done. now rewrite lookup_insert_eq.
  - rewrite lookup_insert_ne by done. now rewrite lookup_insert_eq.
Qed.

(** X17.  Without any analysis, the dynamic settings differ from the flat
    ones only through the emotion markers in the text: a text without marker
    gets the flat settings, a laughter marker sets stability 0.25 and style
    0.75, an excitement marker sets stability 0.35 and style 0.65. *)
Theorem version_b_without_analysis (dialogue_index total_dialogues : nat) (text : string) :
  let a := get_dialogue_settings_version_a dialogue_index total_dialogues text in
  let b := Comparison.get_dialogue_settings_version_b
             dialogue_index total_dialogues text no_analysis in
  match Comparison.detect_emotion_in_text text with
  | None => b = a
  | Some emotion =>
      if String.eqb emotion "laughter"
      then b = <["style" := 0.75]> (<["stability" := 0.25]> a)
      else b = <["style" := 0.65]> (<["stability" := 0.35]> a)
  end.
Proof.
  cbv zeta. unfold Comparison.get_dialogue_settings_version_b, get_dialogue_settings_version_a.
  destruct DEFAULT_SETTINGS_entries as (D1 & D2 & D3).
  set (D := Comparison.DEFAULT_SETTINGS) in *.
  assert (Hbase : default D (Comparison.recommended_elevenlabs_settings no_analysis) = D)
    by reflexivity.
  rewrite Hbase.
  assert (Hopen : Comparison.apply_opening dialogue_index no_analysis D = D) by reflexivity.
  rewrite Hopen.
  assert (Hclose : Comparison.apply_closing dialogue_index total_dialogues no_analysis D = D)
    by reflexivity.
  rewrite Hclose.
  assert (Hper : Comparison.apply_per_dialogue dialogue_index no_analysis D = D).
  { unfold Comparison.apply_per_dialogue. cbn [Comparison.per_dialogue no_analysis].
    now destruct dialogue_index. }
  rewrite Hper. cbn [fold_left Comparison.emotion_segments no_analysis].
  unfold Comparison.apply_text_emotion, Comparison.detect_emotion_in_text.
  destruct (existsb _ Comparison.laughter_markers).
  - cbn [Comparison.is_label]. change ("laughter" =? "laughter")%string with true. cbv iota.
    apply (clamp_settings_inside _ 0.25 0.75 0.75).
    + rewrite lookup_insert_ne by done. now rewrite lookup_insert_eq.
    + now rewrite lookup_insert_eq.
    + rewrite !lookup_insert_ne by done. exact D3.
    + lra.
    + lra.
    + lra.
  - destruct (existsb _ Comparison.excitement_markers).
    + cbn [Comparison.is_label].
      change ("excitement" =? "laughter")%string with false.
      change ("excitement" =? "excitement")%string with true. cbv iota.
      apply (clamp_settings_inside _ 0.35 0.65 0.75).
      * rewrite lookup_insert_ne by done. now rewrite lookup_insert_eq.
      * now rewrite lookup_insert_eq.
      * rewrite !lookup_insert_ne by done. exact D3.
      * lra.
      * lra.
      * lra.
    + cbn [Comparison.is_label]. apply (clamp_settings_inside _ 0.35 0.55 0.75); (assumption || lra).
Qed.

(** X18.  A dialogue that is neither the first nor the last one of the script
    gets the same settings whatever the report says about the script opening
    and the script closing. *)
Theorem middle_dialogues_ignore_script_ends (dialogue_index total_dialogues : nat)
    (text : string) (cfg : Comparison.analysis_config)
    (o : option Comparison.script_opening) (c : option Comparison.script_closing) :
  dialogue_index <> 0%nat -> S dialogue_index <> total_dialogues ->
  Comparison.get_dialogue_settings_version_b dialogue_index total_dialogues text
    (with_script_ends o c cfg)
  = Comparison.get_dialogue_settings_version_b dialogue_index total_dialogues text cfg.
Proof.
  intros Hfirst Hlast. unfold Comparison.get_dialogue_settings_version_b.
  assert (Ho : forall cfg' b, Comparison.apply_opening dialogue_index cfg' b = b).
  { intros cfg' b. unfold Comparison.apply_opening.
    destruct (Comparison.opening cfg'); [| reflexivity].
    destruct (Z.eqb_spec (Z.of_nat dialogue_index) 0); [lia | reflexivity]. }
  assert (Hc : forall cfg' b,
             Comparison.apply_closing dialogue_index total_dialogues cfg' b = b).
  { intros cfg' b. unfold Comparison.apply_closing.
    destruct (Comparison.closing cfg'); [| reflexivity].
    destruct (Z.eqb_spec (Z.of_nat dialogue_index) (Z.of_nat total_dialogues - 1));
      [lia | reflexivity]. }
  rewrite !Ho, !Hc. reflexivity.
Qed.

Lemma middle_dialogues_ignore_script_ends_witness :
  Comparison.get_dialogue_settings_version_b 1 3 "Bilkul sahi"
    (with_script_ends
       (Some {| Comparison.opening_pitch_trajectory := Some "rising";
                Comparison.start_pitch_hz := Some 200 |})
       None (Comparison.report_with_first_trajectory "falling"))
  = Comparison.get_dialogue_settings_version_b 1 3 "Bilkul sahi"
      (Comparison.report_with_first_trajectory "falling").
Proof.
  apply (middle_dialogues_ignore_script_ends 1 3).
  - lia.
  - lia.
Defined.

Lemma emotion_segments_last_match (idx : nat)
    (before after : list Comparison.emotion_segment) (seg : Comparison.emotion_segment)
    (b : gmap string Q) :
  Comparison.seg_index seg = Some (Z.of_nat idx) ->
  Forall (fun s => Comparison.seg_index s <> Some (Z.of_nat idx)) after ->
  exists b' : gmap string Q,
    fold_left (Comparison.apply_emotion_segment idx) (before ++ seg :: after) b
    = let intensity := default 0.5 (Comparison.seg_intensity seg) in
      if Comparison.is_label (Comparison.seg_emotion_type seg) "laughter" then
        <["style" := py_min 0.9 (0.7 + intensity * 0.1)]>
          (<["stability" := py_max 0.1 (0.3 - intensity * 0.1)]> b')
      else if Comparison.is_label (Comparison.seg_emotion_type seg) "excitement" then
        <["style" := py_min 0.9 (0.6 + intensity * 0.1)]>
          (<["stability" := py_max 0.1 (0.4 - intensity * 0.1)]> b')
      else b'.
Proof.
  intros Hidx Hafter.
  exists (fold_left (Comparison.apply_emotion_segment idx) before b).
  rewrite fold_left_app. cbn [fold_left].
  rewrite (emotion_segments_skipped _ _ _ Hafter).
  unfold Comparison.apply_emotion_segment at 1.
  rewrite bool_decide_eq_true_2 by exact Hidx. reflexivity.
Qed.

(** X19.  An emotion segment detected in the audio has the last word on its
    dialogue.  If the last segment of the report that bears the dialogue's
    index is labelled "laughter" with an intensity between 0 and 1, the
    stability is 0.3 minus a tenth of the intensity and the style 0.7 plus a
    tenth of it; if it is labelled "excitement", 0.4 minus and 0.6 plus a
    tenth: the base settings, the pitch rules and the markers in the text
    have no influence. *)
Theorem audio_emotion_decides (dialogue_index total_dialogues : nat) (text : string)
    (cfg : Comparison.analysis_config)
    (before after : list Comparison.emotion_segment) (seg : Comparison.emotion_segment) :
  Comparison.emotion_segments cfg = before ++ seg :: after ->
  Comparison.seg_index seg = Some (Z.of_nat dialogue_index) ->
  Forall (fun s => Comparison.seg_index s <> Some (Z.of_nat dialogue_index)) after ->
  0 <= default 0.5 (Comparison.seg_intensity seg) <= 1 ->
  let intensity := default 0.5 (Comparison.seg_intensity seg) in
  let result := Comparison.get_dialogue_settings_version_b
                  dialogue_index total_dialogues text cfg in
  (Comparison.seg_emotion_type seg = Some "laughter" ->
   result !! "stability" = Some (0.3 - intensity * 0.1) /\
   result !! "style" = Some (0.7 + intensity * 0.1)) /\
  (Comparison.seg_emotion_type seg = Some "excitement" ->
   result !! "stability" = Some (0.4 - intensity * 0.1) /\
   result !! "style" = Some (0.6 + intensity * 0.1)).
Proof.
  intros Hsegs Hidx Hafter [Hi0 Hi1]. cbv zeta.
  unfold Comparison.get_dialogue_settings_version_b. rewrite Hsegs.
  set (b4 := Comparison.apply_text_emotion _ _).
  destruct (emotion_segments_last_match dialogue_index before after seg b4 Hidx Hafter)
    as (b' & ->). cbv zeta.
  rewrite clamp_settings_stability, clamp_settings_style.
  set (i := default 0.5 (Comparison.seg_intensity seg)) in *. clearbody i.
  split; intros ->; cbn [Comparison.is_label].
  - change ("laughter" =? "laughter")%string with true. cbv iota.
    rewrite dict_get_insert, dict_get_insert_ne, dict_get_insert by done.
    split; f_equal.
    + unfold py_max at 2. destruct (Qlt_le_dec 0.1 (0.3 - i * 0.1)); [| exfalso; lra].
      apply py_clamp_inside. lra.
    + unfold py_min at 2. destruct (Qlt_le_dec (0.7 + i * 0.1) 0.9); [| exfalso; lra].
      apply py_clamp_inside. lra.
  - change ("excitement" =? "laughter")%string with false.
    change ("excitement" =? "excitement")%string with true. cbv iota.
    rewrite dict_get_insert, dict_get_insert_ne, dict_get_insert by done.
    split; f_equal.
    + unfold py_max at 2. destruct (Qlt_le_dec 0.1 (0.4 - i * 0.1)); [| exfalso; lra].
      apply py_clamp_inside. lra.
    + unfold py_min at 2. destruct (Qlt_le_dec (0.6 + i * 0.1) 0.9); [| exfalso; lra].
      apply py_clamp_inside. lra.
Qed.

(** X20.  When no emotion segment of the report bears the dialogue's index, a
    marker in the text fixes stability and style, whatever the base settings
    and the pitch rules gave: 0.25 and 0.75 for a laughter marker, 0.35 and
    0.65 for an excitement marker. *)
Theorem text_marker_decides (dialogue_index total_dialogues : nat) (text : string)
    (cfg : Comparison.analysis_config) :
  Forall (fun s => Comparison.seg_index s <> Some (Z.of_nat dialogue_index))
    (Comparison.emotion_segments cfg) ->
  let result := Comparison.get_dialogue_settings_version_b
                  dialogue_index total_dialogues text cfg in
  (Comparison.detect_emotion_in_text text = Some "laughter" ->
   result !! "stability" = Some 0.25 /\ result !! "style" = Some 0.75) /\
  (Comparison.detect_emotion_in_text text = Some "excitement" ->
   result !! "stability" = Some 0.35 /\ result !! "style" = Some 0.65).
Proof.
  intros Hsegs. cbv zeta. unfold Comparison.get_dialogue_settings_version_b.
  rewrite (emotion_segments_skipped _ _ _ Hsegs).
  rewrite clamp_settings_stability, clamp_settings_style.
  unfold Comparison.apply_text_emotion.
  split; intros ->; cbn [Comparison.is_label].
  - change ("laughter" =? "laughter")%string with true. cbv iota.
    rewrite dict_get_insert, dict_get_insert_ne, dict_get_insert by done.
    split; f_equal; apply py_clamp_inside; lra.
  - change ("excitement" =? "laughter")%string with false.
    change ("excitement" =? "excitement")%string with true. cbv iota.
    rewrite dict_get_insert, dict_get_insert_ne, dict_get_insert by done.
    split; f_equal; apply py_clamp_inside; lra.
Qed.

Lemma audio_emotion_decides_witness :
  Comparison.get_dialogue_settings_version_b 0 2 "(excited) Kya baat hai" report_with_laughter
    !! "stability" = Some (0.3 - 0.8 * 0.1) /\
  Comparison.get_dialogue_settings_version_b 0 2 "(excited) Kya baat hai" report_with_laughter
    !! "style" = Some (0.7 + 0.8 * 0.1).
Proof.
  assert (Hi : 0 <= 0.8 <= 1) by (split; unfold Qle; simpl; lia).
  exact (proj1 (audio_emotion_decides 0 2 "(excited) Kya baat hai" report_with_laughter
                  [] []
                  {| Comparison.seg_index := Some 0%Z;
                     Comparison.seg_emotion_type := Some "laughter";
                     Comparison.seg_intensity := Some 0.8 |}
                  eq_refl eq_refl (List.Forall_nil _) Hi) eq_refl).
Defined.

Lemma text_marker_decides_witness :
  Comparison.get_dialogue_settings_version_b 0 2 "(laughs) Arre yaar"
    (Comparison.report_with_first_trajectory "falling") !! "stability" = Some 0.25 /\
  Comparison.get_dialogue_settings_version_b 0 2 "(laughs) Arre yaar"
    (Comparison.report_with_first_trajectory "falling") !! "style" = Some 0.75.
Proof.
  exact (proj1 (text_marker_decides 0 2 "(laughs) Arre yaar"
                  (Comparison.report_with_first_trajectory "falling")
                  (List.Forall_nil _)) eq_refl).
Defined.

(** *** How far the pitch rules move the controls *)

Lemma apply_opening_moves (idx : nat) (cfg : Comparison.analysis_config)
    (b : gmap string Q) :
  0.1 <= dict_get b "style" 0.55 <= 0.9 ->
  0.1 <= dict_get b "stability" 0.35 <= 0.9 ->
  let b' := Comparison.apply_opening idx cfg b in
  (dict_get b "style" 0.55 - 0.05 <= dict_get b' "style" 0.55
   <= dict_get b "style" 0.55 + 0.15) /\
  (dict_get b "stability" 0.35 - 0.05 <= dict_get b' "stability" 0.35
   <= dict_get b "stability" 0.35) /\
  0.1 <= dict_get b' "style" 0.55 <= 0.9 /\
  0.1 <= dict_get b' "stability" 0.35 <= 0.9.
Proof.
  intros [Hs0 Hs1] [Ht0 Ht1]. cbv zeta. unfold Comparison.apply_opening.
  destruct (Comparison.opening cfg) as [o |]; [| repeat split; lra].
  destruct (Z.of_nat idx =? 0)%Z; [| repeat split; lra].
  destruct (Comparison.is_label _ "rising"); [| destruct (Comparison.is_label _ "falling")];
    destruct (Qgtb _ 180);
    repeat (rewrite ?dict_get_insert; rewrite ?dict_get_insert_ne by done);
    set (s := dict_get b "style" 0.55) in *; set (t := dict_get b "stability" 0.35) in *;
    unfold py_min, py_max; repeat (destruct (Qlt_le_dec _ _)); repeat split; lra.
Qed.

Lemma apply_closing_moves (idx total : nat) (cfg : Comparison.analysis_config)
    (b : gmap string Q) :
  0.1 <= dict_get b "style" 0.55 <= 0.9 ->
  0.1 <= dict_get b "stability" 0.35 <= 0.9 ->
  let b' := Comparison.apply_closing idx total cfg b in
  (dict_get b "style" 0.55 - 0.15 <= dict_get b' "style" 0.55
   <= dict_get b "style" 0.55) /\
  (dict_get b "stability" 0.35 <= dict_get b' "stability" 0.35
   <= dict_get b "stability" 0.35 + 0.05) /\
  0.1 <= dict_get b' "style" 0.55 <= 0.9 /\
  0.1 <= dict_get b' "stability" 0.35 <= 0.9.
Proof.
  intros [Hs0 Hs1] [Ht0 Ht1]. cbv zeta. unfold Comparison.apply_closing.
  destruct (Comparison.closing cfg) as [c |]; [| repeat split; lra].
  destruct (Z.of_nat idx =? Z.of_nat total - 1)%Z; [| repeat split; lra].
  destruct (Comparison.is_label _ "falling"); destruct (Qgtb 170 _);
    repeat (rewrite ?dict_get_insert; rewrite ?dict_get_insert_ne by done);
    set (s := dict_get b "style" 0.55) in *; set (t := dict_get b "stability" 0.35) in *;
    unfold py_min, py_max; repeat (destruct (Qlt_le_dec _ _)); repeat split; lra.
Qed.

Lemma apply_per_dialogue_moves (idx : nat) (cfg : Comparison.analysis_config)
    (b : gmap string Q) :
  0.1 <= dict_get b "style" 0.55 <= 0.9 ->
  let b' := Comparison.apply_per_dialogue idx cfg b in
  (dict_get b "style" 0.55 - 0.08 <= dict_get b' "style" 0.55
   <= dict_get b "style" 0.55 + 0.08) /\
  dict_get b' "stability" 0.35 = dict_get b "stability" 0.35 /\
  0.1 <= dict_get b' "style" 0.55 <= 0.9.
Proof.
  intros [Hs0 Hs1]. cbv zeta.
  split; [| split; [unfold dict_get; now rewrite apply_per_dialogue_frame by done |]];
    unfold Comparison.apply_per_dialogue;
    (destruct (nth_error _ idx) as [dp |]; [| repeat split; lra]);
    (destruct (String.eqb _ "falling"); [| destruct (String.eqb _ "rising")]);
    (destruct (Qgtb _ 0 && Qgtb _ 0));
    try (destruct (Qgtb _ 10); [| destruct (Qgtb (-10) _)]);
    repeat (rewrite ?dict_get_insert; rewrite ?dict_get_insert_ne by done);
    set (s := dict_get b "style" 0.55) in *;
    unfold py_min, py_max; repeat (destruct (Qlt_le_dec _ _)); repeat split; lra.
Qed.

(** X21.  The pitch rules have a bounded influence.  For base settings whose
    style and stability are within [0.1, 0.9], a text without emotion marker
    and no emotion segment on the dialogue, the style returned is at most
    0.28 below and at most 0.23 above the base style, and the stability
    within 0.05 of the base stability; for a dialogue that is neither the
    first nor the last one the style moves by at most 0.08 and the stability
    not at all. *)
Theorem pitch_rules_bounded_influence (dialogue_index total_dialogues : nat)
    (text : string) (cfg : Comparison.analysis_config) :
  let base := default Comparison.DEFAULT_SETTINGS
                (Comparison.recommended_elevenlabs_settings cfg) in
  let result := Comparison.get_dialogue_settings_version_b
                  dialogue_index total_dialogues text cfg in
  0.1 <= dict_get base "style" 0.55 <= 0.9 ->
  0.1 <= dict_get base "stability" 0.35 <= 0.9 ->
  Comparison.detect_emotion_in_text text = None ->
  Forall (fun s => Comparison.seg_index s <> Some (Z.of_nat dialogue_index))
    (Comparison.emotion_segments cfg) ->
  - 0.28 <= dict_get result "style" 0.55 - dict_get base "style" 0.55 <= 0.23 /\
  - 0.05 <= dict_get result "stability" 0.35 - dict_get base "stability" 0.35 <= 0.05 /\
  (dialogue_index <> 0%nat -> S dialogue_index <> total_dialogues ->
   - 0.08 <= dict_get result "style" 0.55 - dict_get base "style" 0.55 <= 0.08 /\
   dict_get result "stability" 0.35 == dict_get base "stability" 0.35).
Proof.
  intros base result Hs Ht Htext Hsegs. unfold result.
  unfold Comparison.get_dialogue_settings_version_b. fold base.
  rewrite (emotion_segments_skipped _ _ _ Hsegs).
  unfold Comparison.apply_text_emotion. rewrite Htext. cbn [Comparison.is_label].
  set (b1 := Comparison.apply_opening dialogue_index cfg base).
  set (b2 := Comparison.apply_closing dialogue_index total_dialogues cfg b1).
  set (b3 := Comparison.apply_per_dialogue dialogue_index cfg b2).
  destruct (apply_opening_moves dialogue_index cfg base Hs Ht) as (Ms1 & Mt1 & Bs1 & Bt1).
  fold b1 in Ms1, Mt1, Bs1, Bt1.
  destruct (apply_closing_moves dialogue_index total_dialogues cfg b1 Bs1 Bt1)
    as (Ms2 & Mt2 & Bs2 & Bt2).
  fold b2 in Ms2, Mt2, Bs2, Bt2.
  destruct (apply_per_dialogue_moves dialogue_index cfg b2 Bs2) as (Ms3 & Mt3 & Bs3).
  fold b3 in Ms3, Mt3, Bs3.
  assert (Es : dict_get (Comparison.clamp_settings b3) "style" 0.55
               = py_max 0.1 (py_min 0.9 (dict_get b3 "style" 0.55))).
  { unfold dict_get at 1. now rewrite clamp_settings_style. }
  assert (Et : dict_get (Comparison.clamp_settings b3) "stability" 0.35
               = py_max 0.1 (py_min 0.9 (dict_get b3 "stability" 0.35))).
  { unfold dict_get at 1. now rewrite clamp_settings_stability. }
  rewrite Es, Et, Mt3.
  set (s0 := dict_get base "style" 0.55) in *. set (t0 := dict_get base "stability" 0.35) in *.
  set (s1 := dict_get b1 "style" 0.55) in *. set (t1 := dict_get b1 "stability" 0.35) in *.
  set (s2 := dict_get b2 "style" 0.55) in *. set (t2 := dict_get b2 "stability" 0.35) in *.
  set (s3 := dict_get b3 "style" 0.55) in *.
  assert (Cs : py_max 0.1 (py_min 0.9 s3) == s3).
  { unfold py_max, py_min. repeat (destruct (Qlt_le_dec _ _)); lra. }
  assert (Ct : py_max 0.1 (py_min 0.9 t2) == t2).
  { unfold py_max, py_min. repeat (destruct (Qlt_le_dec _ _)); lra. }
  rewrite Cs, Ct.
  split; [lra |]. split; [lra |].
  intros Hfirst Hlast.
  assert (E1 : b1 = base).
  { unfold b1, Comparison.apply_opening.
    destruct (Comparison.opening cfg); [| reflexivity].
    destruct (Z.eqb_spec (Z.of_nat dialogue_index) 0); [lia | reflexivity]. }
  assert (E2 : b2 = b1).
  { unfold b2, Comparison.apply_closing.
    destruct (Comparison.closing cfg); [| reflexivity].
    destruct (Z.eqb_spec (Z.of_nat dialogue_index) (Z.of_nat total_dialogues - 1));
      [lia | reflexivity]. }
  assert (Hs21 : s2 = s0) by (unfold s2, s0; now rewrite E2, E1).
  assert (Ht21 : t2 = t0) by (unfold t2, t0; now rewrite E2, E1).
  rewrite Hs21 in Ms3. rewrite Ht21. split; [lra | reflexivity].
Qed.

Lemma pitch_rules_bounded_influence_witness :
  - 0.28 <= dict_get (Comparison.get_dialogue_settings_version_b 0 2 "Namaste doston"
                        (Comparison.report_with_first_trajectory "falling")) "style" 0.55
            - dict_get Comparison.DEFAULT_SETTINGS "style" 0.55 <= 0.23.
Proof.
  assert (Hs : 0.1 <= dict_get Comparison.DEFAULT_SETTINGS "style" 0.55 <= 0.9)
    by (split; vm_compute; discriminate).
  assert (Ht : 0.1 <= dict_get Comparison.DEFAULT_SETTINGS "stability" 0.35 <= 0.9)
    by (split; vm_compute; discriminate).
  exact (proj1 (pitch_rules_bounded_influence 0 2 "Namaste doston"
                  (Comparison.report_with_first_trajectory "falling")
                  Hs Ht eq_refl (List.Forall_nil _))).
Defined.

(** ** Emotion markers in the text *)

Lemma prefix_spec (needle s : string) :
  String.prefix needle s = true <-> exists post : string, s = (needle ++ post)%string.
Proof.
  revert s. induction needle as [| c needle IH]; intros s.
  - split; [intros _; now exists s | intros _; now destruct s].
  - destruct s as [| d s]; cbn.
    + split; [discriminate | intros [post H]; discriminate].
    + destruct (Ascii.ascii_dec c d) as [-> | Hne].
      * rewrite IH. split; intros [post H]; exists post; [now rewrite H | now injection H].
      * split; [discriminate | intros [post H]; injection H as H1 H2; congruence].
Qed.

Lemma occurs_spec (needle s : string) :
  Comparison.occurs needle s = true <->
  exists pre post : string, s = (pre ++ needle ++ post)%string.
Proof.
  induction s as [| d s IH]; cbn [Comparison.occurs].
  - rewrite orb_false_r, prefix_spec. split.
    + intros [post H]. now exists EmptyString, post.
    + intros (pre & post & H). destruct pre as [| c pre]; [now exists post | discriminate].
  - rewrite orb_true_iff, prefix_spec, IH. split.
    + intros [[post H] | (pre & post & H)].
      * now exists EmptyString, post.
      * exists (String d pre), post. cbn. now rewrite H.
    + intros (pre & post & H). destruct pre as [| c pre].
      * left. now exists post.
      * right. cbn in H. injection H as _ H. now exists pre, post.
Qed.

Lemma string_app_cons (x : ascii) (a b : string) :
  (String x a ++ b)%string = String x (a ++ b).
Proof. reflexivity. Qed.

Lemma string_app_assoc (a b c : string) : ((a ++ b) ++ c = a ++ (b ++ c))%string.
Proof.
  induction a as [| x a IH]; [reflexivity |]. now rewrite !string_app_cons, IH.
Qed.

Lemma occurs_inside (needle before s after : string) :
  Comparison.occurs needle s = true ->
  Comparison.occurs needle (before ++ s ++ after) = true.
Proof.
  rewrite !occurs_spec. intros (pre & post & ->).
  exists (before ++ pre)%string, (post ++ after)%string.
  now rewrite !string_app_assoc.
Qed.

Lemma lower_app (a b : string) :
  Comparison.lower (a ++ b) = (Comparison.lower a ++ Comparison.lower b)%string.
Proof.
  induction a as [| x a IH]; [reflexivity |].
  rewrite string_app_cons. cbn [Comparison.lower]. now rewrite string_app_cons, IH.
Qed.

Lemma lower_ascii_idempotent (c : ascii) :
  Comparison.lower_ascii (Comparison.lower_ascii c) = Comparison.lower_ascii c.
Proof.
  unfold Comparison.lower_ascii.
  destruct ((65 <=? nat_of_ascii c)%nat && (nat_of_ascii c <=? 90)%nat) eqn:E.
  - apply andb_true_iff in E. destruct E as [E1 E2].
    apply Nat.leb_le in E1, E2.
    rewrite nat_ascii_embedding by lia.
    destruct (Nat.leb_spec (nat_of_ascii c + 32) 90); [lia |].
    now rewrite andb_false_r.
  - now rewrite E.
Qed.

Lemma lower_idempotent (s : string) :
  Comparison.lower (Comparison.lower s) = Comparison.lower s.
Proof.
  induction s as [| c s IH]; cbn; [reflexivity |].
  now rewrite lower_ascii_idempotent, IH.
Qed.

Lemma existsb_occurs_inside (markers : list string) (before s after : string) :
  existsb (fun m => Comparison.occurs m s) markers = true ->
  existsb (fun m => Comparison.occurs m (before ++ s ++ after)) markers = true.
Proof.
  rewrite !existsb_exists. intros (m & Hin & Hm). exists m. split; [exact Hin |].
  now apply occurs_inside.
Qed.

(** X22.  The detection of emotion markers in a text does not depend on the
    case of its ASCII letters, answers "laughter", "excitement" or nothing,
    and looks for the markers anywhere: a text in which a laughter marker is
    found is still "laughter" inside any longer text, also one with an
    excitement marker, and a text in which an excitement marker is found
    never loses its emotion inside a longer text. *)
Theorem text_markers_found_anywhere (before text after : string) :
  Comparison.detect_emotion_in_text (Comparison.lower text)
  = Comparison.detect_emotion_in_text text /\
  (Comparison.detect_emotion_in_text text = None \/
   Comparison.detect_emotion_in_text text = Some "laughter" \/
   Comparison.detect_emotion_in_text text = Some "excitement") /\
  (Comparison.detect_emotion_in_text text = Some "laughter" ->
   Comparison.detect_emotion_in_text (before ++ text ++ after) = Some "laughter") /\
  (Comparison.detect_emotion_in_text text = Some "excitement" ->
   Comparison.detect_emotion_in_text (before ++ text ++ after) <> None).
Proof.
  unfold Comparison.detect_emotion_in_text. rewrite lower_idempotent, !lower_app.
  split; [reflexivity |].
  destruct (existsb _ Comparison.laughter_markers) eqn:Hl.
  - rewrite (existsb_occurs_inside _ _ _ _ Hl).
    split; [right; left; reflexivity |]. split; [reflexivity | discriminate].
  - destruct (existsb _ Comparison.excitement_markers) eqn:He.
    + rewrite (existsb_occurs_inside _ _ _ _ He).
      split; [right; right; reflexivity |]. split; [discriminate |].
      intros _. clear Hl. destruct (existsb _ Comparison.laughter_markers); discriminate.
    + split; [left; reflexivity |]. split; discriminate.
Qed.

(** ** Silent frames *)

Lemma insert_sorted_count (t x : Q) (l : list Q) :
  count_below t (insert_sorted x l) = count_below t (x :: l).
Proof.
  unfold count_below. induction l as [| y l IH]; [reflexivity |].
  cbn [insert_sorted]. destruct (Qle_bool x y); [reflexivity |].
  cbn [List.filter] in *. destruct (Qgtb t y), (Qgtb t x); cbn [length] in *; lia.
Qed.

Lemma np_sort_count (t : Q) (a : list Q) : count_below t (np_sort a) = count_below t a.
Proof.
  induction a as [| x a IH]; [reflexivity |].
  cbn [np_sort fold_right]. fold (np_sort a). rewrite insert_sorted_count.
  unfold count_below in *. cbn [List.filter]. destruct (Qgtb t x); cbn [length]; lia.
Qed.

Lemma insert_sorted_length (x : Q) (l : list Q) :
  length (insert_sorted x l) = S (length l).
Proof.
  induction l as [| y l IH]; [reflexivity |].
  cbn [insert_sorted]. destruct (Qle_bool x y); cbn [length]; lia.
Qed.

Lemma np_sort_length (a : list Q) : length (np_sort a) = length a.
Proof.
  induction a as [| x a IH]; [reflexivity |].
  cbn [np_sort fold_right]. fold (np_sort a). rewrite insert_sorted_length. cbn. lia.
Qed.

Lemma non_decreasing_cons (x : Q) (l : list Q) :
  non_decreasing (x :: l) <-> Forall (Qle x) l /\ non_decreasing l.
Proof.
  revert x. induction l as [| y l IH]; intros x.
  - cbn. split; [intros _; split; [constructor | exact I] | intros _; exact I].
  - change (non_decreasing (x :: y :: l)) with (x <= y /\ non_decreasing (y :: l)).
    split.
    + intros (Hxy & Hnd). split; [| exact Hnd].
      apply (IH y) in Hnd. destruct Hnd as [Hy Hl].
      constructor; [exact Hxy |].
      eapply List.Forall_impl; [| exact Hy]. intros z Hz. cbn beta in *. lra.
    + intros (Hx & Hnd). split; [now inversion Hx | exact Hnd].
Qed.

Lemma insert_sorted_Forall (P : Q -> Prop) (x : Q) (l : list Q) :
  P x -> Forall P l -> Forall P (insert_sorted x l).
Proof.
  intros Hx Hl. induction Hl as [| y l Hy Hl IH]; cbn [insert_sorted].
  - now constructor.
  - destruct (Qle_bool x y); repeat constructor; assumption.
Qed.

Lemma np_sort_Forall (P : Q -> Prop) (a : list Q) : Forall P a -> Forall P (np_sort a).
Proof.
  induction 1 as [| x a Hx Ha IH]; [constructor |].
  cbn [np_sort fold_right]. now apply insert_sorted_Forall.
Qed.

Lemma insert_sorted_ordered (x : Q) (l : list Q) :
  non_decreasing l -> non_decreasing (insert_sorted x l).
Proof.
  induction l as [| y l IH]; intros Hl; [exact I |].
  cbn [insert_sorted]. destruct (Qle_bool x y) eqn:E.
  - apply Qle_bool_iff in E. change (x <= y /\ non_decreasing (y :: l)). now split.
  - assert (Hyx : y <= x).
    { destruct (Qlt_le_dec y x) as [H | H]; [lra |].
      apply Qle_bool_iff in H. rewrite H in E. discriminate. }
    apply non_decreasing_cons in Hl. destruct Hl as [Hall Hnd].
    apply non_decreasing_cons. split; [| now apply IH].
    now apply insert_sorted_Forall.
Qed.

Lemma np_sort_ordered (a : list Q) : non_decreasing (np_sort a).
Proof.
  induction a as [| x a IH]; [exact I |].
  cbn [np_sort fold_right]. now apply insert_sorted_ordered.
Qed.

Lemma non_decreasing_nth_le (l : list Q) (i j : nat) :
  non_decreasing l -> (i <= j < length l)%nat -> nth i l 0 <= nth j l 0.
Proof.
  revert i j. induction l as [| x l IH]; intros i j Hl Hij; [cbn in Hij; lia |].
  apply non_decreasing_cons in Hl. destruct Hl as [Hall Hnd].
  destruct j as [| j].
  - replace i with 0%nat by lia. lra.
  - destruct i as [| i].
    + cbn [nth]. rewrite List.Forall_forall in Hall. apply Hall. apply nth_In.
      cbn [length] in Hij. lia.
    + cbn [nth]. apply IH; [exact Hnd | cbn [length] in Hij; lia].
Qed.

Lemma count_below_none (t : Q) (l : list Q) :
  Forall (Qle t) l -> count_below t l = 0%nat.
Proof.
  unfold count_below. induction 1 as [| x l Hx _ IH]; [reflexivity |].
  cbn [List.filter]. unfold Qgtb at 1. destruct (Qlt_le_dec x t); [lra | exact IH].
Qed.

Lemma count_below_sorted (t : Q) (l : list Q) (k : nat) :
  non_decreasing l -> (k < length l)%nat -> t <= nth k l 0 ->
  (count_below t l <= k)%nat.
Proof.
  revert k. induction l as [| x l IH]; intros k Hl Hk Ht; [cbn in Hk; lia |].
  destruct k as [| k].
  - rewrite count_below_none; [lia |].
    cbn [nth] in Ht. apply non_decreasing_cons in Hl. destruct Hl as [Hall _].
    constructor; [exact Ht |].
    eapply List.Forall_impl; [| exact Hall]. intros z Hz. cbn beta in *. lra.
  - apply non_decreasing_cons in Hl. destruct Hl as [_ Hnd].
    cbn [nth length] in *.
    assert (H := IH k Hnd ltac:(lia) Ht).
    unfold count_below in *. cbn [List.filter]. destruct (Qgtb t x); cbn [length]; lia.
Qed.

Lemma floor_fifth (n : Z) :
  (0 <= n)%Z ->
  let v := inject_Z n * (20 / 100) in
  (0 <= Qfloor v)%Z /\ (5 * Qfloor v <= n)%Z /\ 0 <= v - inject_Z (Qfloor v) < 1.
Proof.
  intros Hn v.
  assert (Ev : v == n # 5).
  { unfold v, Qeq, Qdiv, Qmult, Qinv, inject_Z. cbn. lia. }
  assert (Ef : Qfloor v = (n / 5)%Z) by (rewrite Ev; reflexivity).
  pose proof (Qfloor_le v) as Hfl. pose proof (Qlt_floor v) as Hfu.
  rewrite inject_Z_plus in Hfu. change (inject_Z 1) with 1 in Hfu.
  split; [rewrite Ef; apply Z.div_pos; lia |].
  split; [rewrite Ef; apply Z.mul_div_le; lia |].
  set (f := inject_Z (Qfloor v)) in *. clearbody f. clearbody v. lra.
Qed.

(** The 20th percentile lies between two neighbours of the sorted frames. *)
Lemma percentile_20_position (x : Q) (l : list Q) :
  let a := x :: l in
  exists k : nat,
    (k < length a)%nat /\ (5 * k <= length a + 4)%nat /\
    nth 0 (np_sort a) 0 <= np_percentile a 20 <= nth k (np_sort a) 0.
Proof.
  cbv zeta. set (a := x :: l). unfold np_percentile.
  set (s := np_sort a).
  assert (Hlen : length s = length a) by apply np_sort_length.
  assert (Hord : non_decreasing s) by apply np_sort_ordered.
  assert (Hn : (0 <= py_len a - 1)%Z) by (unfold py_len, a; cbn [length]; lia).
  destruct (floor_fifth (py_len a - 1) Hn) as (Hlo0 & Hlo5 & Hg).
  set (v := inject_Z (py_len a - 1) * (20 / 100)) in *.
  set (lo := Qfloor v) in *. set (g := v - inject_Z lo) in *. clearbody g.
  assert (Hlo_in : (Z.to_nat lo < length a)%nat) by (unfold py_len in *; lia).
  set (previous := nth (Z.to_nat lo) s 0).
  assert (Hmin : nth 0 s 0 <= previous).
  { apply non_decreasing_nth_le; [exact Hord | lia]. }
  destruct (Nat.lt_ge_cases (Z.to_nat (lo + 1)) (length a)) as [Hin | Hout].
  - exists (Z.to_nat (lo + 1)).
    split; [exact Hin |]. split; [unfold py_len in *; lia |].
    rewrite (nth_indep s previous 0) by lia.
    set (next := nth (Z.to_nat (lo + 1)) s 0).
    assert (Hpn : previous <= next).
    { apply non_decreasing_nth_le; [exact Hord | lia]. }
    assert (H1 : 0 <= (next - previous) * g).
    { apply Qmult_le_0_compat; lra. }
    assert (H2 : g * (next - previous) <= 1 * (next - previous)).
    { apply Qmult_le_compat_r; lra. }
    lra.
  - exists (Z.to_nat lo).
    split; [exact Hlo_in |]. split; [unfold py_len in *; lia |].
    rewrite (nth_overflow s previous (n := Z.to_nat (lo + 1))) by lia. fold previous.
    assert (E : previous + (previous - previous) * g == previous) by ring.
    rewrite E. lra.
Qed.

Lemma silent_frames_count (rms : list Q) :
  length (List.filter (fun b => b) (silence_frames rms))
  = count_below (np_percentile rms 20) (np_sort rms).
Proof.
  rewrite np_sort_count. unfold silence_frames, count_below.
  generalize (np_percentile rms 20). intros t.
  induction rms as [| e rms IH]; [reflexivity |].
  cbn [map List.filter]. destruct (Qgtb t e); cbn [length]; now rewrite IH.
Qed.

Lemma constant_energy_not_silent (x : Q) (l : list Q) (c : Q) :
  Forall (fun e => e == c) (x :: l) ->
  length (List.filter (fun b => b) (silence_frames (x :: l))) = 0%nat.
Proof.
  intros Hc. rewrite silent_frames_count. apply count_below_none.
  destruct (percentile_20_position x l) as (k & Hk & _ & _ & Hhi).
  set (rms := x :: l) in *.
  assert (Hs : Forall (fun e => e == c) (np_sort rms)) by now apply np_sort_Forall.
  assert (Hk' : nth k (np_sort rms) 0 == c).
  { rewrite List.Forall_forall in Hs. apply Hs. apply nth_In. now rewrite np_sort_length. }
  eapply List.Forall_impl; [| exact Hs]. intros e He. cbn beta in He. lra.
Qed.

(** X23.  The frames counted as silent are those strictly below the 20th
    percentile of the frame energies, so they are a minority: with n frames
    at most (n + 4) / 5 of them are silent and never all of them, and a
    recording whose frames all have the same energy (digital silence, for
    one) has no silent frame at all. *)
Theorem silent_frames_are_a_minority (x : Q) (l : list Q) :
  let rms := x :: l in
  let silent := length (List.filter (fun b => b) (silence_frames rms)) in
  (5 * silent <= length rms + 4)%nat /\
  (silent < length rms)%nat /\
  (forall c : Q, Forall (fun e => e == c) rms -> silent = 0%nat).
Proof.
  cbv zeta. rewrite silent_frames_count.
  destruct (percentile_20_position x l) as (k & Hk & Hk5 & _ & Hhi).
  set (rms := x :: l) in *.
  assert (Hle : (count_below (np_percentile rms 20) (np_sort rms) <= k)%nat).
  { apply count_below_sorted; [apply np_sort_ordered | now rewrite np_sort_length | exact Hhi]. }
  split; [lia |]. split; [lia |].
  intros c Hc. rewrite <- silent_frames_count. now apply (constant_energy_not_silent x l c).
Qed.

(** ** Silence durations *)

Lemma frames_to_time_diff (sr : Z) (k j : nat) :
  frames_to_time sr (Z.of_nat k) - frames_to_time sr (Z.of_nat j)
  == frames_to_time sr (Z.of_nat k - Z.of_nat j).
Proof.
  unfold frames_to_time, Qdiv.
  unfold Z.sub. rewrite !inject_Z_mult, inject_Z_plus, inject_Z_opp. ring.
Qed.

Lemma recorded_run_whole_frames (sr : Z) (frames : list bool) (d : Q) :
  recorded_run sr frames d -> whole_frames sr d.
Proof.
  intros (j & i & ((Hji & _) & _) & ->).
  exists (Z.of_nat i - Z.of_nat j)%Z. split; [lia | apply frames_to_time_diff].
Qed.

Lemma silence_step_invariant (sr : Z) (frames : list bool) (k : nat) (st : silence_scan) :
  (k < length frames)%nat ->
  scan_invariant sr frames k st ->
  scan_invariant sr frames (S k) (silence_step sr st (k, nth k frames false)).
Proof.
  intros Hk [Hd Hc]. unfold silence_step.
  assert (Hnth : forall d : bool, nth k frames d = nth k frames false)
    by (intros d; now apply nth_indep).
  destruct (nth k frames false) eqn:Eb, (current_silence_start st) as [start |] eqn:E;
    unfold scan_invariant.
  - rewrite E. split; [exact Hd |]. destruct Hc as (j & Hj & -> & Hrun & Hbefore).
    exists j. split; [lia |]. split; [reflexivity |]. split; [| exact Hbefore].
    intros m Hm. destruct (Nat.eq_dec m k) as [-> | Hne]; [exact Eb | apply Hrun; lia].
  - cbn [silence_durations current_silence_start]. split; [exact Hd |].
    exists k. split; [lia |]. split; [reflexivity |]. split; [| exact Hc].
    intros m Hm. replace m with k by lia. exact Eb.
  - cbn [silence_durations current_silence_start]. split.
    + apply List.Forall_app. split; [exact Hd |]. constructor; [| constructor].
      destruct Hc as (j & Hj & -> & Hrun & Hbefore). exists j, k.
      split; [| reflexivity]. split; [lia |]. split; [exact Hrun |].
      split; [| exact Hbefore]. now rewrite Hnth.
    + right. replace (S k - 1)%nat with k by lia. now rewrite Hnth.
  - rewrite E. split; [exact Hd |].
    right. replace (S k - 1)%nat with k by lia. now rewrite Hnth.
Qed.

Lemma scan_from_invariant (sr : Z) (pre rest : list bool) (st : silence_scan) :
  scan_invariant sr (pre ++ rest) (length pre) st ->
  scan_invariant sr (pre ++ rest) (length pre + length rest)
    (fold_left (silence_step sr) (combine (seq (length pre) (length rest)) rest) st).
Proof.
  revert pre st. induction rest as [| b rest IH]; intros pre st Hst.
  - cbn. now rewrite Nat.add_0_r.
  - cbn [length seq combine fold_left].
    replace (length pre + S (length rest))%nat with (length (pre ++ [b]) + length rest)%nat
      by (rewrite length_app; cbn; lia).
    replace (S (length pre)) with (length (pre ++ [b])) by (rewrite length_app; cbn; lia).
    replace (pre ++ b :: rest) with ((pre ++ [b]) ++ rest) in * by now rewrite <- app_assoc.
    apply IH. rewrite (length_app pre [b]). cbn [length]. rewrite Nat.add_1_r.
    assert (Hlen : (length pre < length ((pre ++ [b]) ++ rest))%nat)
      by (rewrite !length_app; cbn; lia).
    pose proof (silence_step_invariant sr _ _ st Hlen Hst) as Hstep.
    replace (nth (length pre) ((pre ++ [b]) ++ rest) false) with b in Hstep
      by (rewrite <- app_assoc; symmetry; apply nth_middle).
    exact Hstep.
Qed.

Lemma scan_silence_runs (sr : Z) (frames : list bool) :
  Forall (recorded_run sr frames) (silence_durations (scan_silence sr frames)).
Proof.
  apply (scan_from_invariant sr [] frames). split; [constructor | now left].
Qed.

Lemma scan_silent_tail (sr : Z) (m k : nat) (st : silence_scan) :
  silence_durations
    (fold_left (silence_step sr) (combine (seq k m) (repeat true m)) st)
  = silence_durations st.
Proof.
  revert k st. induction m as [| m IH]; intros k st; [reflexivity |].
  cbn [seq repeat combine fold_left]. rewrite IH.
  unfold silence_step. destruct (current_silence_start st); reflexivity.
Qed.

Lemma scan_durations_count (sr : Z) (frames : list bool) (k : nat) (st : silence_scan) :
  (length (silence_durations
             (fold_left (silence_step sr) (combine (seq k (length frames)) frames) st))
   <= length (silence_durations st) + length (List.filter negb frames))%nat.
Proof.
  revert k st. induction frames as [| b frames IH]; intros k st.
  - cbn. lia.
  - cbn [length seq combine fold_left List.filter].
    specialize (IH (S k) (silence_step sr st (k, b))).
    assert (Hstep : (length (silence_durations (silence_step sr st (k, b)))
                     <= length (silence_durations st) + if negb b then 1 else 0)%nat).
    { unfold silence_step. destruct b, (current_silence_start st);
        cbn [silence_durations negb]; rewrite ?length_app; cbn [length]; lia. }
    destruct b; cbn [negb length] in *; lia.
Qed.

Lemma combine_seq_app {A : Type} (l1 l2 : list A) (k : nat) :
  combine (seq k (length (l1 ++ l2))) (l1 ++ l2)
  = combine (seq k (length l1)) l1 ++ combine (seq (k + length l1) (length l2)) l2.
Proof.
  revert k. induction l1 as [| x l1 IH]; intros k.
  - cbn. now rewrite Nat.add_0_r.
  - cbn [app length seq combine]. rewrite IH.
    replace (S k + length l1)%nat with (k + S (length l1))%nat by lia. reflexivity.
Qed.

(** X24.  Every silence duration the loop records is that of a run of
    silent frames that ends within the recording: the time of the first
    frame after the run, which is not silent, minus the time of the first
    frame of the run, before which there is no silent frame.  In exact
    arithmetic such a difference is the time of a whole number of frames, at
    least one; on binary64, where the two frame times are rounded before
    they are subtracted, it need not be the time of any frame.  A run of
    silent frames at the end of the recording is never recorded, and there
    are at most as many durations as frames that are not silent. *)
Theorem silence_durations_span_silent_runs (sr : Z) (frames : list bool) (m : nat) :
  let st := scan_silence sr frames in
  Forall (fun d : Q =>
            exists j i : nat,
              silent_run frames j i /\
              d = frames_to_time sr (Z.of_nat i) - frames_to_time sr (Z.of_nat j))
    (silence_durations st) /\
  Forall (whole_frames sr) (silence_durations st) /\
  silence_durations (scan_silence sr (frames ++ repeat true m)) = silence_durations st /\
  (length (silence_durations st) <= length (List.filter negb frames))%nat.
Proof.
  cbv zeta. split; [| split; [| split]].
  - exact (scan_silence_runs sr frames).
  - eapply List.Forall_impl; [| exact (scan_silence_runs sr frames)].
    intros d. apply recorded_run_whole_frames.
  - unfold scan_silence.
    rewrite combine_seq_app, fold_left_app, repeat_length. apply scan_silent_tail.
  - apply (scan_durations_count sr frames 0).
Qed.

(** Frames 1 and 2 are silent and frame 3 is not: one duration, from frame
    1 to frame 3.  The silent frame 4, at the end, adds none. *)
Lemma scan_silence_sample :
  silence_durations (scan_silence 22050 [false; true; true; false; true])
  = [frames_to_time 22050 3 - frames_to_time 22050 1].
Proof. reflexivity. Qed.

Lemma np_where_length (mask : list bool) :
  length (np_where mask) = length (List.filter (fun b => b) mask).
Proof.
  unfold np_where.
  assert (H : forall k,
             length (List.filter (fun i => nth (i - k) mask false) (seq k (length mask)))
             = length (List.filter (fun b => b) mask)).
  { induction mask as [| b mask IH]; intros k; [reflexivity |].
    cbn [length seq].
    assert (E : List.filter (fun i => nth (i - k) (b :: mask) false) (seq (S k) (length mask))
                = List.filter (fun i => nth (i - S k) mask false) (seq (S k) (length mask))).
    { apply filter_ext_in. intros i Hi. apply in_seq in Hi.
      replace (i - k)%nat with (S (i - S k)) by lia. reflexivity. }
    cbn [List.filter]. rewrite Nat.sub_diag, E. cbn [nth].
    destruct b; cbn [length]; now rewrite IH. }
  specialize (H 0%nat).
  rewrite <- H. f_equal. apply filter_ext. intros i. now rewrite Nat.sub_0_r.
Qed.

(** X25.  The average silence duration is either the average pause, which
    stands in when no frame is silent or no silence ends before the
    recording does, or the mean of the recorded durations.  In exact
    arithmetic, at a positive sample rate, that mean is at least the time of
    one frame; on binary64 a duration is the difference of two rounded frame
    times and can fall short of the time of one frame by a rounding error.
    A recording whose frames all have the same energy gets the average
    pause. *)
Theorem average_silence_or_pause (sr : Z) (x : Q) (l : list Q) (avg_pause : Q) :
  (0 < sr)%Z ->
  let durations := silence_durations (scan_silence sr (silence_frames (x :: l))) in
  let avg_silence := average_silence_duration sr (x :: l) avg_pause in
  (avg_silence = avg_pause \/
   (durations <> [] /\ avg_silence = np_mean durations /\
    frames_to_time sr 1 <= avg_silence)) /\
  (forall c : Q, Forall (fun e => e == c) (x :: l) -> avg_silence = avg_pause).
Proof.
  intros Hsr. cbv zeta. unfold average_silence_duration. split.
  - destruct (0 <? py_len _)%Z; [| now left].
    pose proof (scan_silence_runs sr (silence_frames (x :: l))) as Hall.
    destruct (silence_durations (scan_silence sr (silence_frames (x :: l)))) as [| d ds];
      [now left | right].
    split; [discriminate |]. split; [reflexivity |].
    assert (Hlo : Forall (fun e => frames_to_time sr 1 <= e) (d :: ds)).
    { eapply List.Forall_impl; [| exact Hall]. intros e He.
      apply recorded_run_whole_frames in He. destruct He as (r & Hr & ->).
      unfold frames_to_time.
      assert (Hq : 0 < inject_Z sr) by (change 0 with (inject_Z 0); now rewrite <- Zlt_Qlt).
      apply Qmult_le_compat_r; [| apply Qlt_le_weak, Qinv_lt_0_compat; exact Hq].
      rewrite <- Zle_Qle. unfold hop_length. lia. }
    pose proof (np_mean_between_min_max d ds) as [Hmin _].
    assert (Hin : In (np_min (d :: ds)) (d :: ds)) by apply np_min_from_In.
    rewrite List.Forall_forall in Hlo. specialize (Hlo _ Hin). lra.
  - intros c Hc.
    pose proof (constant_energy_not_silent x l c Hc) as Hnone.
    unfold py_len. rewrite length_map, np_where_length, Hnone. reflexivity.
Qed.

Lemma average_silence_or_pause_witness :
  average_silence_duration 22050 [0.5; 0.5; 0.5] 0.3 = 0.3.
Proof.
  assert (Hsr : (0 < 22050)%Z) by lia.
  apply (proj2 (average_silence_or_pause 22050 0.5 [0.5; 0.5] 0.3 Hsr) 0.5).
  repeat constructor.
Defined.

(** ** From the detected emotions to the voice *)

Lemma NoDup_later_differ {A B : Type} (f : A -> B) (l1 l2 : list A) (a : A) :
  NoDup (map f (l1 ++ a :: l2)) -> Forall (fun b => f b <> f a) l2.
Proof.
  rewrite map_app. cbn [map]. intros H.
  apply NoDup_app in H. destruct H as (_ & _ & H).
  apply NoDup_cons in H. destruct H as [H _].
  apply List.Forall_forall. intros b Hb E. apply H.
  apply list_elem_of_In. rewrite <- E. now apply in_map.
Qed.

(** X26.  An emotion segment that the analyser puts on its timeline reaches
    the voice.  With the timeline as the report's emotion segments, the
    dialogue that bears the segment's index gets, whatever its text, the
    base settings and the rest of the report: for a laughter segment a
    stability of 0.3 minus a tenth of the intensity and a style of 0.7 plus
    a tenth of it, the intensity being above 0.6 and at most 1; for an
    excitement segment a stability of 0.4 minus a tenth of the intensity and
    a style of 0.6 plus a tenth of it, the intensity being above 0.5 and at
    most 1.  Neither the floor of 0.1 nor the cap of 0.9 changes these
    values. *)
Theorem detected_emotion_sets_the_voice
    (extract_pitch_contour : list Q -> list Q) (spectral_centroid_mean rms_mean : list Q -> Q)
    (sr : Z) (y onsets : list Q) (cfg : Comparison.analysis_config)
    (s : Emotion.segment) (total_dialogues : nat) (text : string) :
  let a := Emotion._analyze_emotions extract_pitch_contour spectral_centroid_mean rms_mean
             sr y onsets in
  Comparison.emotion_segments cfg = map emotion_segment_entry (Emotion.emotion_segments a) ->
  In s (Emotion.emotion_segments a) ->
  let result := Comparison.get_dialogue_settings_version_b
                  (Z.to_nat (Emotion.index s)) total_dialogues text cfg in
  (Emotion.emotion_type s = "laughter" /\
   result !! "stability" = Some (0.3 - Emotion.intensity s * 0.1) /\
   result !! "style" = Some (0.7 + Emotion.intensity s * 0.1) /\
   0.6 < Emotion.intensity s <= 1) \/
  (Emotion.emotion_type s = "excitement" /\
   result !! "stability" = Some (0.4 - Emotion.intensity s * 0.1) /\
   result !! "style" = Some (0.6 + Emotion.intensity s * 0.1) /\
   0.5 < Emotion.intensity s <= 1).
Proof.
  intros a Hcfg Hin result.
  assert (Hsegs : Emotion.emotion_segments a
                  = omap (Emotion.recorded_segment extract_pitch_contour
                            spectral_centroid_mean rms_mean sr y onsets)
                      (seq 0 (length onsets))).
  { unfold a, Emotion._analyze_emotions. now rewrite emotion_loop_segments. }
  assert (Hnd : NoDup (map Emotion.index (Emotion.emotion_segments a))).
  { rewrite Hsegs. apply recorded_indices_NoDup, NoDup_seq. }
  assert (Hrec : exists i : nat,
            Emotion.recorded_segment extract_pitch_contour spectral_centroid_mean rms_mean
              sr y onsets i = Some s).
  { rewrite Hsegs in Hin. apply list_elem_of_In, list_elem_of_omap in Hin.
    destruct Hin as (i & _ & Hi). now exists i. }
  destruct Hrec as (i & Hrec).
  assert (Hidx : Emotion.index s = Z.of_nat i) by now apply recorded_index in Hrec.
  pose proof (recorded_segment_cases extract_pitch_contour spectral_centroid_mean rms_mean
                sr y onsets i) as Hcase.
  rewrite Hrec in Hcase.
  destruct (in_split _ _ Hin) as (l1 & l2 & Hsplit).
  rewrite Hsplit in Hnd. apply NoDup_later_differ in Hnd.
  unfold result, Comparison.get_dialogue_settings_version_b.
  rewrite Hcfg, Hsplit, map_app. cbn [map]. rewrite Hidx, Nat2Z.id.
  set (b4 := Comparison.apply_text_emotion _ _).
  destruct (emotion_segments_last_match i (map emotion_segment_entry l1)
              (map emotion_segment_entry l2) (emotion_segment_entry s) b4)
    as (b' & ->).
  { cbn. now rewrite Hidx. }
  { apply List.Forall_forall. intros e He. apply in_map_iff in He.
    destruct He as (s' & <- & Hs'). cbn. rewrite List.Forall_forall in Hnd.
    specialize (Hnd s' Hs'). rewrite Hidx in Hnd. congruence. }
  cbv zeta. cbn [emotion_segment_entry Comparison.seg_emotion_type Comparison.seg_intensity
                 default from_option id].
  rewrite clamp_settings_stability, clamp_settings_style.
  set (v := Emotion.intensity s) in *.
  destruct Hcase as [(_ & _ & Ht & Hv0 & Hv1) | (_ & _ & Ht & Hv0 & Hv1)]; rewrite Ht;
    cbn [Comparison.is_label].
  - left. change ("laughter" =? "laughter")%string with true. cbv iota.
    rewrite dict_get_insert, dict_get_insert_ne, dict_get_insert by done.
    split; [reflexivity |]. split; [| split; [| split; lra]]; f_equal.
    + unfold py_max at 2. destruct (Qlt_le_dec 0.1 (0.3 - v * 0.1)); [| exfalso; lra].
      apply py_clamp_inside. lra.
    + unfold py_min at 2. destruct (Qlt_le_dec (0.7 + v * 0.1) 0.9); [| exfalso; lra].
      apply py_clamp_inside. lra.
  - right. change ("excitement" =? "laughter")%string with false.
    change ("excitement" =? "excitement")%string with true. cbv iota.
    rewrite dict_get_insert, dict_get_insert_ne, dict_get_insert by done.
    split; [reflexivity |]. split; [| split; [| split; lra]]; f_equal.
    + unfold py_max at 2. destruct (Qlt_le_dec 0.1 (0.4 - v * 0.1)); [| exfalso; lra].
      apply py_clamp_inside. lra.
    + unfold py_min at 2. destruct (Qlt_le_dec (0.6 + v * 0.1) 0.9); [| exfalso; lra].
      apply py_clamp_inside. lra.
Qed.

Lemma detected_emotion_sets_the_voice_witness :
  exists v : Q,
    Comparison.get_dialogue_settings_version_b 0 3 "Namaste doston"
      (report_with_emotions
         (Emotion._analyze_emotions sample_pitch_tracker sample_centroid sample_rms 2
            sample_recording sample_onsets)) !! "stability" = Some (0.3 - v * 0.1) /\
    0.6 < v <= 1.
Proof.
  set (a := Emotion._analyze_emotions sample_pitch_tracker sample_centroid sample_rms 2
              sample_recording sample_onsets).
  destruct (Emotion.emotion_segments a) as [| s l] eqn:E; [vm_compute in E; discriminate E |].
  assert (Hin : In s (Emotion.emotion_segments a)) by (rewrite E; now left).
  vm_compute in E. injection E as Hs Hl.
  assert (Hidx : Emotion.index s = 0%Z) by (rewrite <- Hs; reflexivity).
  pose proof (detected_emotion_sets_the_voice sample_pitch_tracker sample_centroid
                sample_rms 2 sample_recording sample_onsets (report_with_emotions a) s 3
                "Namaste doston" eq_refl Hin) as H.
  cbv zeta in H. rewrite Hidx in H. change (Z.to_nat 0) with 0%nat in H.
  destruct H as [(_ & Hst & _ & Hr) | (Ht & _)].
  - eexists. split; [exact Hst | exact Hr].
  - exfalso. rewrite <- Hs in Ht. discriminate Ht.
Defined.

(** ** Cleaning the text *)

Lemma is_space_not_paren (c : ascii) :
  is_space c = true -> Ascii.eqb c "(" = false /\ Ascii.eqb c ")" = false.
Proof.
  destruct c as [[] [] [] [] [] [] [] []]; vm_compute; intros H;
    (discriminate H || (split; reflexivity)).
Qed.

Lemma space_is_space : is_space " " = true.
Proof. reflexivity. Qed.

(** *** No parenthetical remains *)

Lemma remove_parenthetical_close (inside : bool) (s : string) :
  has_close (remove_parenthetical inside s) = true -> has_close s = true.
Proof.
  revert inside. induction s as [| c s IH]; intros inside; [destruct inside; discriminate |].
  cbn [remove_parenthetical has_close]. destruct inside.
  - destruct (Ascii.eqb c ")"); [reflexivity |]. cbn [orb]. apply IH.
  - destruct (Ascii.eqb c "(" && has_close s) eqn:E.
    + intros H. apply IH in H. rewrite H. apply orb_true_r.
    + cbn [has_close]. destruct (Ascii.eqb c ")"); [reflexivity |]. cbn [orb]. apply IH.
Qed.

Lemma remove_parenthetical_no_pair (inside : bool) (s : string) :
  has_pair (remove_parenthetical inside s) = false.
Proof.
  revert inside. induction s as [| c s IH]; intros inside; [destruct inside; reflexivity |].
  cbn [remove_parenthetical]. destruct inside.
  - destruct (Ascii.eqb c ")"); apply IH.
  - destruct (Ascii.eqb c "(" && has_close s) eqn:E; [apply IH |].
    cbn [has_pair]. rewrite IH, orb_false_r.
    destruct (Ascii.eqb c "("); [| reflexivity]. cbn [andb] in *.
    destruct (has_close (remove_parenthetical false s)) eqn:Hc; [| reflexivity].
    apply remove_parenthetical_close in Hc. congruence.
Qed.

Lemma collapse_spaces_close (in_run : bool) (s : string) :
  has_close (collapse_spaces in_run s) = has_close s.
Proof.
  revert in_run. induction s as [| c s IH]; intros in_run; [reflexivity |].
  cbn [collapse_spaces has_close]. destruct (is_space c) eqn:E.
  - destruct (is_space_not_paren c E) as [_ ->]. cbn [orb].
    destruct in_run; [apply IH |]. cbn [has_close]. apply IH.
  - cbn [has_close]. now rewrite IH.
Qed.

Lemma collapse_spaces_pair (in_run : bool) (s : string) :
  has_pair (collapse_spaces in_run s) = has_pair s.
Proof.
  revert in_run. induction s as [| c s IH]; intros in_run; [reflexivity |].
  cbn [collapse_spaces has_pair]. destruct (is_space c) eqn:E.
  - destruct (is_space_not_paren c E) as [-> _]. cbn [andb orb].
    destruct in_run; [apply IH |]. cbn [has_pair]. apply IH.
  - cbn [has_pair]. now rewrite IH, collapse_spaces_close.
Qed.

Lemma lstrip_pair (s : string) : has_pair (lstrip s) = has_pair s.
Proof.
  induction s as [| c s IH]; [reflexivity |].
  cbn [lstrip]. destruct (is_space c) eqn:E; [| reflexivity].
  cbn [has_pair]. destruct (is_space_not_paren c E) as [-> _]. exact IH.
Qed.

Lemma rstrip_cons (c : ascii) (s : string) :
  rstrip (String c s)
  = if is_space c && match rstrip s with EmptyString => true | _ => false end
    then EmptyString else String c (rstrip s).
Proof.
  cbn [rstrip]. destruct (rstrip s); destruct (is_space c); reflexivity.
Qed.

Lemma rstrip_close (s : string) : has_close (rstrip s) = has_close s.
Proof.
  induction s as [| c s IH]; [reflexivity |].
  rewrite rstrip_cons. cbn [has_close]. rewrite <- IH.
  destruct (is_space c) eqn:E; [| reflexivity].
  destruct (is_space_not_paren c E) as [_ Hc].
  destruct (rstrip s); cbn [andb has_close]; now rewrite ?Hc.
Qed.

Lemma rstrip_pair (s : string) : has_pair (rstrip s) = has_pair s.
Proof.
  induction s as [| c s IH]; [reflexivity |].
  rewrite rstrip_cons. cbn [has_pair]. rewrite <- IH, <- rstrip_close.
  destruct (is_space c) eqn:E; [| reflexivity].
  destruct (is_space_not_paren c E) as [Ho _].
  destruct (rstrip s); cbn [andb has_pair has_close]; now rewrite ?Ho.
Qed.

Lemma has_close_spec (s : string) :
  has_close s = true <-> exists mid post : string, s = (mid ++ String ")" post)%string.
Proof.
  induction s as [| c s IH]; cbn [has_close].
  - split; [discriminate | intros (mid & post & H); destruct mid; discriminate].
  - rewrite orb_true_iff, IH. split.
    + intros [Hc | (mid & post & ->)].
      * apply Ascii.eqb_eq in Hc. subst c. now exists EmptyString, s.
      * now exists (String c mid), post.
    + intros (mid & post & H). destruct mid as [| d mid].
      * left. injection H as -> _. apply Ascii.eqb_refl.
      * right. injection H as _ ->. now exists mid, post.
Qed.

Lemma has_pair_spec (s : string) :
  has_pair s = true <->
  exists pre mid post : string, s = (pre ++ String "(" (mid ++ String ")" post))%string.
Proof.
  induction s as [| c s IH]; cbn [has_pair].
  - split; [discriminate | intros (pre & mid & post & H); destruct pre; discriminate].
  - rewrite orb_true_iff, andb_true_iff, IH, has_close_spec. split.
    + intros [[Hc (mid & post & ->)] | (pre & mid & post & ->)].
      * apply Ascii.eqb_eq in Hc. subst c. now exists EmptyString, mid, post.
      * now exists (String c pre), mid, post.
    + intros (pre & mid & post & H). destruct pre as [| d pre].
      * left. injection H as -> ->. split; [apply Ascii.eqb_refl | now exists mid, post].
      * right. injection H as _ ->. now exists pre, mid, post.
Qed.

(** *** White space *)

Lemma collapse_spaces_twice (s : string) :
  collapse_spaces true (collapse_spaces true s) = collapse_spaces true s /\
  collapse_spaces false (collapse_spaces true s) = collapse_spaces true s /\
  collapse_spaces false (collapse_spaces false s) = collapse_spaces false s.
Proof.
  induction s as [| c s (IH1 & IH2 & IH3)]; [repeat split |].
  cbn [collapse_spaces]. destruct (is_space c) eqn:E.
  - split; [exact IH1 |]. split; [exact IH2 |].
    cbn [collapse_spaces]. rewrite space_is_space. now rewrite IH1.
  - cbn [collapse_spaces]. rewrite E. now rewrite IH3.
Qed.

Lemma lstrip_collapsed (s : string) :
  lstrip (collapse_spaces true s) = collapse_spaces true s /\
  lstrip (collapse_spaces false s) = collapse_spaces true s.
Proof.
  induction s as [| c s [IH1 IH2]]; [split; reflexivity |].
  cbn [collapse_spaces]. destruct (is_space c) eqn:E.
  - split; [exact IH1 |]. cbn [lstrip]. rewrite space_is_space. exact IH1.
  - cbn [lstrip]. rewrite E. split; reflexivity.
Qed.

Lemma rstrip_twice (s : string) : rstrip (rstrip s) = rstrip s.
Proof.
  induction s as [| c s IH]; [reflexivity |].
  rewrite rstrip_cons.
  destruct (is_space c && match rstrip s with EmptyString => true | _ => false end) eqn:E;
    [reflexivity |].
  rewrite rstrip_cons, IH, E. reflexivity.
Qed.

Lemma collapse_spaces_length (in_run : bool) (s : string) :
  (String.length (collapse_spaces in_run s) <= String.length s)%nat.
Proof.
  revert in_run. induction s as [| c s IH]; intros in_run; [reflexivity |].
  cbn [collapse_spaces]. destruct (is_space c); [destruct in_run |];
    cbn [String.length].
  - specialize (IH true). lia.
  - specialize (IH true). lia.
  - specialize (IH false). lia.
Qed.

Lemma lstrip_length (s : string) : (String.length (lstrip s) <= String.length s)%nat.
Proof.
  induction s as [| c s IH]; [reflexivity |].
  cbn [lstrip]. destruct (is_space c); cbn [String.length]; lia.
Qed.

Lemma rstrip_keeps_collapsed (in_run : bool) (s : string) :
  collapse_spaces in_run s = s -> collapse_spaces in_run (rstrip s) = rstrip s.
Proof.
  revert in_run. induction s as [| c s IH]; intros in_run; [reflexivity |].
  rewrite rstrip_cons. cbn [collapse_spaces]. destruct (is_space c) eqn:E.
  - destruct in_run.
    + intros H. exfalso.
      assert (Hlen : String.length (collapse_spaces true s) = S (String.length s))
        by now rewrite H.
      pose proof (collapse_spaces_length true s). lia.
    + intros H. injection H as Hc Hs. cbn [andb].
      destruct (match rstrip s with EmptyString => true | _ => false end); [reflexivity |].
      cbn [collapse_spaces]. rewrite E, (IH true Hs). now rewrite Hc.
  - intros H. injection H as Hs. cbn [andb collapse_spaces]. rewrite E.
    now rewrite (IH false Hs).
Qed.

Lemma rstrip_keeps_lstripped (s : string) : lstrip s = s -> lstrip (rstrip s) = rstrip s.
Proof.
  destruct s as [| c s]; [reflexivity |].
  rewrite rstrip_cons. cbn [lstrip]. destruct (is_space c) eqn:E.
  - intros H. exfalso.
    assert (Hlen : String.length (lstrip s) = S (String.length s)) by now rewrite H.
    pose proof (lstrip_length s). lia.
  - intros _. cbn [andb lstrip]. now rewrite E.
Qed.

(** The white-space stage leaves a text on which it has no effect. *)
Lemma strip_collapse_fixed (s : string) :
  let r := strip (collapse_spaces false s) in
  collapse_spaces false r = r /\ strip r = r.
Proof.
  cbv zeta. unfold strip.
  destruct (lstrip_collapsed s) as [Hl1 Hl2]. rewrite Hl2.
  destruct (collapse_spaces_twice s) as (_ & Hc & _).
  split.
  - now apply rstrip_keeps_collapsed.
  - rewrite (rstrip_keeps_lstripped _ Hl1). apply rstrip_twice.
Qed.

(** *** Texts without parenthetical *)

Lemma has_pair_tail (c : ascii) (s : string) :
  has_pair (String c s) = false -> has_pair s = false.
Proof. cbn [has_pair]. intros H. apply orb_false_iff in H. apply H. Qed.

Lemma lower_ascii_paren (c : ascii) :
  (Ascii.eqb "(" (Comparison.lower_ascii c) = true -> c = "("%char) /\
  (Ascii.eqb ")" (Comparison.lower_ascii c) = true -> c = ")"%char).
Proof.
  destruct c as [[] [] [] [] [] [] [] []]; vm_compute; split; intros H;
    (discriminate H || reflexivity).
Qed.

Lemma prefix_ci_close (v s : string) :
  has_close v = true -> prefix_ci v s = true -> has_close s = true.
Proof.
  revert s. induction v as [| p v IH]; intros s Hv Hp; [discriminate |].
  destruct s as [| c s]; [discriminate |].
  cbn [prefix_ci] in Hp. apply andb_true_iff in Hp. destruct Hp as [Hc Hp].
  cbn [has_close] in *. apply orb_true_iff in Hv. destruct Hv as [Hv | Hv].
  - apply Ascii.eqb_eq in Hv. subst p.
    apply (proj2 (lower_ascii_paren c)) in Hc. subst c. reflexivity.
  - rewrite (IH s Hv Hp). apply orb_true_r.
Qed.

Lemma prefix_ci_pair (v s : string) :
  marker_shape v = true -> prefix_ci v s = true -> has_pair s = true.
Proof.
  destruct v as [| p v]; [discriminate |]. cbn [marker_shape].
  intros Hv Hp. apply andb_true_iff in Hv. destruct Hv as [Hp0 Hv].
  apply Ascii.eqb_eq in Hp0. subst p.
  destruct s as [| c s]; [discriminate |].
  cbn [prefix_ci] in Hp. apply andb_true_iff in Hp. destruct Hp as [Hc Hp].
  apply (proj1 (lower_ascii_paren c)) in Hc. subst c.
  cbn [has_pair]. rewrite (prefix_ci_close v s Hv Hp). reflexivity.
Qed.

Lemma sub_markers_no_pair (variants : list string) (replacement : string) (s : string) :
  forallb marker_shape variants = true -> has_pair s = false ->
  sub_markers variants replacement 0 s = s.
Proof.
  intros Hshape. induction s as [| c s IH]; intros Hs; [reflexivity |].
  cbn [sub_markers].
  destruct (find (fun v => prefix_ci v (String c s)) variants) as [v |] eqn:Hf.
  - exfalso. apply find_some in Hf. destruct Hf as [Hin Hp].
    rewrite forallb_forall in Hshape.
    rewrite (prefix_ci_pair v (String c s) (Hshape v Hin) Hp) in Hs. discriminate.
  - now rewrite (IH (has_pair_tail c s Hs)).
Qed.

Lemma remove_parenthetical_fixed (s : string) :
  has_pair s = false -> remove_parenthetical false s = s.
Proof.
  induction s as [| c s IH]; intros Hs; [reflexivity |].
  cbn [remove_parenthetical]. cbn [has_pair] in Hs. apply orb_false_iff in Hs.
  destruct Hs as [-> Hs]. now rewrite (IH Hs).
Qed.

Lemma markers_fixed (s : string) :
  has_pair s = false ->
  fold_left (fun cleaned marker => sub_markers (fst marker) (snd marker) 0 cleaned)
    emotion_markers s = s.
Proof.
  intros Hs. unfold emotion_markers. cbn [fold_left fst snd].
  repeat (rewrite (sub_markers_no_pair _ _ s); [| reflexivity | exact Hs]). reflexivity.
Qed.

Lemma clean_text_no_pair (text : string) : has_pair (clean_text_for_tts text) = false.
Proof.
  unfold clean_text_for_tts, strip.
  rewrite rstrip_pair, lstrip_pair, collapse_spaces_pair.
  apply remove_parenthetical_no_pair.
Qed.

(** X27.  The cleaned text is tidy: no opening parenthesis in it has a
    closing one after it, so every parenthetical remark is gone; collapsing
    its white space or stripping it again changes nothing, so it neither
    starts nor ends with white space and its words are separated by single
    spaces. *)
Theorem cleaned_text_is_tidy (text : string) :
  let cleaned := clean_text_for_tts text in
  (forall pre mid post : string,
     cleaned <> (pre ++ String "(" (mid ++ String ")" post))%string) /\
  collapse_spaces false cleaned = cleaned /\
  strip cleaned = cleaned.
Proof.
  cbv zeta. split.
  - intros pre mid post H.
    assert (Hp : has_pair (clean_text_for_tts text) = true).
    { apply has_pair_spec. now exists pre, mid, post. }
    rewrite clean_text_no_pair in Hp. discriminate.
  - unfold clean_text_for_tts. apply strip_collapse_fixed.
Qed.

(** X28.  Cleaning leaves alone a text that is already clean: one without
    parenthetical whose white space is collapsed and stripped comes back as
    it is, and cleaning a cleaned text changes nothing. *)
Theorem clean_text_is_idempotent (text : string) :
  (has_pair text = false -> collapse_spaces false text = text -> strip text = text ->
   clean_text_for_tts text = text) /\
  clean_text_for_tts (clean_text_for_tts text) = clean_text_for_tts text.
Proof.
  assert (Hfixed : forall t : string,
             has_pair t = false -> collapse_spaces false t = t -> strip t = t ->
             clean_text_for_tts t = t).
  { intros t Hp Hc Hs. unfold clean_text_for_tts.
    now rewrite (markers_fixed t Hp), (remove_parenthetical_fixed t Hp), Hc. }
  split; [apply Hfixed |].
  apply Hfixed; [apply clean_text_no_pair | |];
    unfold clean_text_for_tts; apply strip_collapse_fixed.
Qed.

(** ** The script report *)

Lemma opening_duration_range (sr : Z) (y : list Q) :
  (0 < sr)%Z -> 0 <= Script.opening_duration sr y <= 2.
Proof.
  intros Hsr. unfold Script.opening_duration, Script.duration.
  assert (Hq : 0 < inject_Z sr) by (change 0 with (inject_Z 0); now rewrite <- Zlt_Qlt).
  assert (Hl : 0 <= inject_Z (py_len y)).
  { change 0 with (inject_Z 0). rewrite <- Zle_Qle. unfold py_len. lia. }
  assert (Hd : 0 <= inject_Z (py_len y) / inject_Z sr).
  { apply Qle_shift_div_l; [exact Hq | lra]. }
  unfold py_min. destruct (Qlt_le_dec _ 2.0); lra.
Qed.

(** X29.  A report of the script analysis (there is none for a sample rate
    of 0, nor when librosa's RMS raises on the opening or on the closing
    window) carries the RMS means of the two windows as energies, gives the
    opening and the closing the same duration, and has "rising", "falling"
    or "stable" for both trajectories.  At a positive sample rate the
    duration is between 0 and 2 seconds, and in exact arithmetic the
    opening window holds the samples of that duration, rounded down to
    whole samples. *)
Theorem script_report_durations (extract_pitch_contour : list Q -> list Q)
    (rms_mean : list Q -> option Q) (sr : Z) (y : list Q) (r : Script.result) :
  Script._analyze_script_pitch_patterns extract_pitch_contour rms_mean sr y = Some r ->
  let seconds := Script.opening_seconds (Script.script_opening r) in
  sr <> 0%Z /\
  rms_mean (Script.opening_y sr y) = Some (Script.opening_energy (Script.script_opening r)) /\
  rms_mean (Script.closing_y sr y) = Some (Script.closing_energy (Script.script_closing r)) /\
  Script.closing_seconds (Script.script_closing r) = seconds /\
  In (Script.opening_trajectory (Script.script_opening r)) ["rising"; "falling"; "stable"] /\
  In (Script.closing_trajectory (Script.script_closing r)) ["rising"; "falling"; "stable"] /\
  ((0 < sr)%Z ->
   0 <= seconds <= 2 /\
   inject_Z (py_len (Script.opening_y sr y)) <= seconds * inject_Z sr
     < inject_Z (py_len (Script.opening_y sr y)) + 1).
Proof.
  unfold Script._analyze_script_pitch_patterns. intros Hr.
  destruct (Z.eqb_spec sr 0) as [-> | Hne]; [discriminate Hr |].
  destruct (rms_mean (Script.opening_y sr y)) as [eo |]; [| discriminate Hr].
  destruct (rms_mean (Script.closing_y sr y)) as [ec |]; [| discriminate Hr].
  injection Hr as <-. cbv zeta.
  cbn [Script.script_opening Script.script_closing Script.opening_seconds
       Script.closing_seconds Script.opening_trajectory Script.closing_trajectory
       Script.opening_energy Script.closing_energy].
  split; [exact Hne |]. do 3 (split; [reflexivity |]).
  do 2 (split; [apply determine_pitch_trajectory_labels |]).
  intros Hsr.
  pose proof (opening_duration_range sr y Hsr) as Hrange.
  split; [exact Hrange |].
  destruct (script_window_ends sr y Hsr) as (Hk0 & Hk2 & Eo & _).
  assert (Hlen : py_len (Script.opening_y sr y) = Script.opening_end sr y).
  { unfold Script.opening_y. rewrite Eo.
    destruct (py_slice_prefix_len y (Z.min (2 * sr) (py_len y / 10))) as [-> _].
    - unfold py_len in *. lia.
    - unfold py_len in *. rewrite length_firstn. lia. }
  rewrite Hlen, Eo, <- (window_samples sr y Hsr).
  assert (Hx : 0 <= Script.opening_duration sr y * inject_Z sr).
  { apply Qmult_le_0_compat; [apply Hrange |].
    change 0 with (inject_Z 0). rewrite <- Zle_Qle. lia. }
  rewrite (py_int_nonneg _ Hx).
  pose proof (Qfloor_le (Script.opening_duration sr y * inject_Z sr)) as H1.
  pose proof (Qlt_floor (Script.opening_duration sr y * inject_Z sr)) as H2.
  rewrite inject_Z_plus in H2. change (inject_Z 1) with 1 in H2.
  split; assumption.
Qed.

Lemma script_report_durations_witness :
  exists r : Script.result,
    Script._analyze_script_pitch_patterns sample_pitch_tracker
      (fun y => Some (sample_rms y)) 2 (sample_recording ++ sample_recording) = Some r /\
    Script.closing_seconds (Script.script_closing r)
    = Script.opening_seconds (Script.script_opening r) /\
    0 <= Script.opening_seconds (Script.script_opening r) <= 2.
Proof.
  eexists. split; [reflexivity |].
  pose proof (script_report_durations sample_pitch_tracker (fun y => Some (sample_rms y)) 2
                (sample_recording ++ sample_recording) _ eq_refl) as H.
  cbv zeta in H. destruct H as (_ & _ & _ & Hc & _ & _ & Hs).
  split; [exact Hc |]. apply Hs. lia.
Defined.

(** ** Band ratios on binary64 *)

Lemma pow2_positive (e : Z) : 0 < 2 ^ e.
Proof. apply Qpower_0_lt. reflexivity. Qed.

Lemma pow2_of_Z (a : Z) : (0 <= a)%Z -> 2 ^ a == inject_Z (2 ^ a).
Proof. intros Ha. now rewrite Zpower_Qpower. Qed.

(** A positive number is at least the power of 2 just below the estimate
    taken from the sizes of its numerator and denominator. *)
Lemma log2_estimate_lower (x : Q) :
  0 < x -> 2 ^ (Z.log2 (Qnum x) - Z.log2 (Zpos (Qden x)) - 1) <= x.
Proof.
  intros Hx. destruct x as [n d]. cbn [Qnum Qden].
  assert (Hn : (0 < n)%Z) by (unfold Qlt in Hx; cbn in Hx; lia).
  pose proof (Z.log2_nonneg n) as Ha. pose proof (Z.log2_nonneg (Zpos d)) as Hb.
  destruct (Z.log2_spec n Hn) as [Hn1 _].
  destruct (Z.log2_spec (Zpos d) eq_refl) as [_ Hd2].
  set (a := Z.log2 n) in *. set (b := Z.log2 (Zpos d)) in *.
  replace (a - b - 1)%Z with (a - Z.succ b)%Z by lia.
  rewrite Qpower_minus by discriminate.
  rewrite (pow2_of_Z a Ha), (pow2_of_Z (Z.succ b)) by lia.
  assert (Hp : (0 < 2 ^ Z.succ b)%Z) by (apply Z.pow_pos_nonneg; lia).
  apply Qle_shift_div_r.
  { change 0 with (inject_Z 0). now rewrite <- Zlt_Qlt. }
  unfold Qle, Qmult, inject_Z. cbn [Qnum Qden].
  rewrite !Z.mul_1_r, Pos.mul_1_r.
  assert (H1 : (2 ^ a * Zpos d <= n * Zpos d)%Z) by (apply Z.mul_le_mono_nonneg_r; lia).
  assert (H2 : (n * Zpos d <= n * 2 ^ Z.succ b)%Z) by (apply Z.mul_le_mono_nonneg_l; lia).
  lia.
Qed.

Lemma round_positive_error (x : Q) :
  0 < x ->
  (1 - Binary64.unit_roundoff) * x <= Binary64.round_positive x
  <= (1 + Binary64.unit_roundoff) * x.
Proof.
  intros Hx. unfold Binary64.round_positive.
  set (k := (Z.log2 (Qnum x) - Z.log2 (Zpos (Qden x)))%Z).
  set (e := if Qlt_le_dec x (2 ^ k) then (k - 53)%Z else (k - 52)%Z).
  assert (Hlow : 2 ^ 52 * 2 ^ e <= x).
  { rewrite <- Qpower_plus by discriminate. unfold e.
    destruct (Qlt_le_dec x (2 ^ k)) as [_ | Hk].
    - replace (52 + (k - 53))%Z with (k - 1)%Z by lia. now apply log2_estimate_lower.
    - replace (52 + (k - 52))%Z with k by lia. exact Hk. }
  clearbody e. pose proof (pow2_positive e) as He.
  set (p := 2 ^ e) in *. clearbody p.
  assert (Hy : 2 ^ 52 <= x / p) by (apply Qle_shift_div_l; assumption).
  assert (Ex : x == x / p * p) by (field; lra).
  pose proof (round_half_even_error (x / p)) as [Hr1 Hr2].
  set (y := x / p) in *. clearbody y.
  set (m := inject_Z (round_half_even y)) in *. clearbody m.
  change (2 ^ 52) with (4503599627370496 # 1) in Hy.
  unfold Binary64.unit_roundoff. rewrite Ex.
  split.
  - rewrite Qmult_assoc. apply Qmult_le_compat_r; [lra | lra].
  - rewrite Qmult_assoc. apply Qmult_le_compat_r; [lra | lra].
Qed.

(** The rounding moves a number that is not negative by at most the unit
    roundoff, relatively. *)
Lemma fl_error (x : Q) :
  0 <= x ->
  (1 - Binary64.unit_roundoff) * x <= Binary64.fl x <= (1 + Binary64.unit_roundoff) * x.
Proof.
  intros Hx. unfold Binary64.fl.
  destruct (Qlt_le_dec 0 x) as [Hpos | Hle]; [now apply round_positive_error |].
  destruct (Qlt_le_dec x 0) as [Hneg | _]; [lra |].
  unfold Binary64.unit_roundoff. lra.
Qed.

Lemma in_range_nonneg (x : Q) : Binary64.in_range x -> 0 <= x.
Proof.
  intros [H | [H _]]; [lra |]. pose proof (pow2_positive (-500)). lra.
Qed.

(** The three rounded quotients add up to 1 within four unit roundoffs. *)
Lemma rounded_ratios_sum (low mid high : Q) :
  0 <= low -> 0 <= mid -> 0 <= high ->
  let total := Binary64.fl (Binary64.fl (low + mid) + high) in
  0 < total ->
  - (1 # 2251799813685248)
  <= Binary64.fl (low / total) + Binary64.fl (mid / total) + Binary64.fl (high / total) - 1
  <= 1 # 2251799813685248.
Proof.
  intros Hl Hm Hh total Hpos.
  assert (HA : 0 <= low + mid) by lra.
  pose proof (fl_error (low + mid) HA) as [HA1 HA2].
  set (A := Binary64.fl (low + mid)) in *.
  unfold Binary64.unit_roundoff in *.
  assert (HAH : 0 <= A + high) by lra.
  pose proof (fl_error (A + high) HAH) as [HT1 HT2].
  fold total in HT1, HT2. unfold Binary64.unit_roundoff in *.
  assert (Hup : low + mid + high <= (1 + (5 # 18014398509481984)) * total) by lra.
  assert (Hdn : (1 - (5 # 18014398509481984)) * total <= low + mid + high) by lra.
  assert (Hq1 : (low + mid + high) / total <= 1 + (5 # 18014398509481984))
    by (apply Qle_shift_div_r; assumption).
  assert (Hq2 : 1 - (5 # 18014398509481984) <= (low + mid + high) / total)
    by (apply Qle_shift_div_l; assumption).
  assert (Esum : low / total + mid / total + high / total == (low + mid + high) / total)
    by (field; lra).
  assert (Hql : 0 <= low / total) by (apply Qle_shift_div_l; lra).
  assert (Hqm : 0 <= mid / total) by (apply Qle_shift_div_l; lra).
  assert (Hqh : 0 <= high / total) by (apply Qle_shift_div_l; lra).
  pose proof (fl_error _ Hql) as [Hl1 Hl2].
  pose proof (fl_error _ Hqm) as [Hm1 Hm2].
  pose proof (fl_error _ Hqh) as [Hh1 Hh2].
  unfold Binary64.unit_roundoff in *.
  set (ql := low / total) in *. set (qm := mid / total) in *. set (qh := high / total) in *.
  set (q := (low + mid + high) / total) in *.
  clearbody ql qm qh q.
  generalize dependent (Binary64.fl ql). generalize dependent (Binary64.fl qm).
  generalize dependent (Binary64.fl qh). intros. lra.
Qed.

(** Adding up three numbers that are not negative, rounding each partial
    sum, moves the sum by at most 5/2 unit roundoffs, relatively; and a
    rounded number that is not negative stays so. *)
Lemma rounded_sum_of_three (a b c : Q) :
  0 <= a -> 0 <= b -> 0 <= c ->
  (1 - (5 # 18014398509481984)) * (a + b + c)
  <= Binary64.fl (Binary64.fl (a + b) + c)
  <= (1 + (5 # 18014398509481984)) * (a + b + c).
Proof.
  intros Ha Hb Hc.
  assert (HA : 0 <= a + b) by lra.
  pose proof (fl_error (a + b) HA) as [HA1 HA2].
  set (A := Binary64.fl (a + b)) in *.
  unfold Binary64.unit_roundoff in *.
  assert (HAc : 0 <= A + c) by lra.
  pose proof (fl_error (A + c) HAc) as [HT1 HT2].
  unfold Binary64.unit_roundoff in *.
  set (T := Binary64.fl (A + c)) in *. clearbody T A. lra.
Qed.

Lemma fl_nonneg (x : Q) : 0 <= x -> 0 <= Binary64.fl x.
Proof.
  intros Hx. pose proof (fl_error x Hx) as [H _].
  unfold Binary64.unit_roundoff in H. lra.
Qed.

(** A positive number is below twice the power of 2 of the estimate. *)
Lemma log2_estimate_upper (x : Q) :
  0 < x -> x < 2 ^ (Z.log2 (Qnum x) - Z.log2 (Zpos (Qden x)) + 1).
Proof.
  intros Hx. destruct x as [n d]. cbn [Qnum Qden].
  assert (Hn : (0 < n)%Z) by (unfold Qlt in Hx; cbn in Hx; lia).
  pose proof (Z.log2_nonneg n) as Ha. pose proof (Z.log2_nonneg (Zpos d)) as Hb.
  destruct (Z.log2_spec n Hn) as [_ Hn2].
  destruct (Z.log2_spec (Zpos d) eq_refl) as [Hd1 _].
  set (a := Z.log2 n) in *. set (b := Z.log2 (Zpos d)) in *.
  replace (a - b + 1)%Z with (Z.succ a - b)%Z by lia.
  rewrite Qpower_minus by discriminate.
  rewrite (pow2_of_Z b Hb), (pow2_of_Z (Z.succ a)) by lia.
  assert (Hp : (0 < 2 ^ b)%Z) by (apply Z.pow_pos_nonneg; lia).
  apply Qlt_shift_div_l.
  { change 0 with (inject_Z 0). now rewrite <- Zlt_Qlt. }
  unfold Qlt, Qmult, inject_Z. cbn [Qnum Qden].
  rewrite !Z.mul_1_r.
  assert (H1 : (n * 2 ^ b <= n * Zpos d)%Z) by (apply Z.mul_le_mono_nonneg_l; lia).
  assert (H2 : (n * Zpos d < 2 ^ Z.succ a * Zpos d)%Z) by (apply Z.mul_lt_mono_pos_r; lia).
  lia.
Qed.

(** The rounding of a positive number is a number of binary64's precision: a
    significand of 53 bits (or the next power of 2) times a power of 2. *)
Lemma round_positive_significand (x : Q) :
  0 < x ->
  exists (m e : Z),
    Binary64.round_positive x = inject_Z m * 2 ^ e /\
    m = round_half_even (x / 2 ^ e) /\
    (2 ^ 52 <= m <= 2 ^ 53)%Z.
Proof.
  intros Hx. unfold Binary64.round_positive.
  set (k := (Z.log2 (Qnum x) - Z.log2 (Zpos (Qden x)))%Z).
  set (e := if Qlt_le_dec x (2 ^ k) then (k - 53)%Z else (k - 52)%Z).
  exists (round_half_even (x / 2 ^ e)), e. split; [reflexivity |]. split; [reflexivity |].
  assert (Hlow : 2 ^ 52 * 2 ^ e <= x).
  { rewrite <- Qpower_plus by discriminate. unfold e.
    destruct (Qlt_le_dec x (2 ^ k)) as [_ | Hk].
    - replace (52 + (k - 53))%Z with (k - 1)%Z by lia. now apply log2_estimate_lower.
    - replace (52 + (k - 52))%Z with k by lia. exact Hk. }
  assert (Hhigh : x <= 2 ^ 53 * 2 ^ e).
  { rewrite <- Qpower_plus by discriminate. unfold e.
    destruct (Qlt_le_dec x (2 ^ k)) as [Hk | _].
    - replace (53 + (k - 53))%Z with k by lia. now apply Qlt_le_weak.
    - replace (53 + (k - 52))%Z with (k + 1)%Z by lia.
      apply Qlt_le_weak. now apply log2_estimate_upper. }
  clearbody e. pose proof (pow2_positive e) as He.
  assert (Hy1 : 2 ^ 52 <= x / 2 ^ e) by (apply Qle_shift_div_l; assumption).
  assert (Hy2 : x / 2 ^ e <= 2 ^ 53) by (apply Qle_shift_div_r; assumption).
  apply round_half_even_monotone in Hy1, Hy2.
  change (round_half_even (2 ^ 52)) with (2 ^ 52)%Z in Hy1.
  change (round_half_even (2 ^ 53)) with (2 ^ 53)%Z in Hy2.
  split; assumption.
Qed.

(** On binary64 at 22050 Hz, a silence of one frame, from frame 2 to frame
    3, gets a duration below the time of one frame (0.023219954648526074
    against 0.023219954648526078): the difference of two rounded frame times
    is not the time of a whole number of frames. *)
Lemma frame_time_difference_on_binary64 :
  let time (i : Z) := Binary64.fl (frames_to_time 22050 i) in
  Binary64.fl (time 3%Z - time 2%Z) < time 1%Z /\
  Binary64.fl (time 3%Z - time 2%Z) == 6692696262570358 # 288230376151711744 /\
  time 1%Z == 6692696262570359 # 288230376151711744.
Proof. cbv zeta. split; [| split]; vm_compute; reflexivity. Qed.

(** On binary64 the stability of a laughter segment of intensity 1.0,
    0.3 - 1.0 * 0.1, is 0.19999999999999998, below the binary64 number
    0.2. *)
Lemma laughter_stability_on_binary64 :
  let fl := Binary64.fl in
  fl (fl 0.3 - fl (1 * fl 0.1)) < fl 0.2 /\
  fl (fl 0.3 - fl (1 * fl 0.1)) == 7205759403792793 # 36028797018963968.
Proof. cbv zeta. split; vm_compute; reflexivity. Qed.

(** C8, as the code has it.  The low (0-300 Hz), mid (300-3000 Hz) and high
    (3000-8000 Hz) band ratios, each band energy over the sum of the three,
    add up to 1 up to the rounding of the floats when that sum is positive,
    and are all 0 when it is 0.  In exact arithmetic the three ratios add up
    to exactly 1, and the sum of the three band energies is the energy of
    the bins between 0 Hz and 8000 Hz; bins outside do not count.  On
    binary64, whatever the order in which [np.sum] adds up the bins, for band
    energies that are 0 or between 2^-500 and 2^500 each ratio is the rounded
    quotient, the three add up to 1 within 2^-51, and adding them up on
    binary64 gives 1 within 2^-50. *)
Theorem band_ratios_sum_to_one_up_to_rounding (freqs magnitude : list Q) :
  (let q := _analyze_audio_quality freqs magnitude in
   (0 < total_energy freqs magnitude ->
    low_freq_energy_ratio q == low_energy freqs magnitude / total_energy freqs magnitude /\
    mid_freq_energy_ratio q == mid_energy freqs magnitude / total_energy freqs magnitude /\
    high_freq_energy_ratio q == high_energy freqs magnitude / total_energy freqs magnitude /\
    low_freq_energy_ratio q + mid_freq_energy_ratio q + high_freq_energy_ratio q == 1) /\
   (total_energy freqs magnitude == 0 ->
    low_freq_energy_ratio q = 0 /\
    mid_freq_energy_ratio q = 0 /\
    high_freq_energy_ratio q = 0) /\
   total_energy freqs magnitude
   == masked_sum (fun f => Qle_bool 0 f && Qle_bool f 8000) freqs magnitude) /\
  (forall np_sum64 : list Q -> Q,
   let q := Binary64._analyze_audio_quality np_sum64 freqs magnitude in
   let total := Binary64.total_energy np_sum64 freqs magnitude in
   Binary64.in_range (Binary64.low_energy np_sum64 freqs magnitude) ->
   Binary64.in_range (Binary64.mid_energy np_sum64 freqs magnitude) ->
   Binary64.in_range (Binary64.high_energy np_sum64 freqs magnitude) ->
   (0 < total ->
    low_freq_energy_ratio q
    = Binary64.fl (Binary64.low_energy np_sum64 freqs magnitude / total) /\
    mid_freq_energy_ratio q
    = Binary64.fl (Binary64.mid_energy np_sum64 freqs magnitude / total) /\
    high_freq_energy_ratio q
    = Binary64.fl (Binary64.high_energy np_sum64 freqs magnitude / total) /\
    - (1 # 2251799813685248)
    <= low_freq_energy_ratio q + mid_freq_energy_ratio q + high_freq_energy_ratio q - 1
    <= 1 # 2251799813685248 /\
    - (1 # 1125899906842624)
    <= Binary64.fl (Binary64.fl (low_freq_energy_ratio q + mid_freq_energy_ratio q)
                    + high_freq_energy_ratio q) - 1
    <= 1 # 1125899906842624) /\
   (total == 0 ->
    low_freq_energy_ratio q = 0 /\
    mid_freq_energy_ratio q = 0 /\
    high_freq_energy_ratio q = 0)).
Proof.
  split; [exact (band_ratios_in_exact_arithmetic freqs magnitude) |].
  intros np_sum64 q total Hl Hm Hh.
  apply in_range_nonneg in Hl, Hm, Hh.
  pose proof (rounded_ratios_sum _ _ _ Hl Hm Hh) as Hsum. cbv zeta in Hsum.
  fold (Binary64.total_energy np_sum64 freqs magnitude) in Hsum. fold total in Hsum.
  subst q. unfold Binary64._analyze_audio_quality.
  cbn [low_freq_energy_ratio mid_freq_energy_ratio high_freq_energy_ratio].
  fold total.
  destruct (Qlt_le_dec 0 total) as [Hpos | Hnpos].
  - split; [| intros H0; lra].
    intros _. specialize (Hsum Hpos).
    set (l := Binary64.low_energy np_sum64 freqs magnitude) in *.
    set (m := Binary64.mid_energy np_sum64 freqs magnitude) in *.
    set (h := Binary64.high_energy np_sum64 freqs magnitude) in *.
    assert (Hrl : 0 <= Binary64.fl (l / total))
      by (apply fl_nonneg, Qle_shift_div_l; lra).
    assert (Hrm : 0 <= Binary64.fl (m / total))
      by (apply fl_nonneg, Qle_shift_div_l; lra).
    assert (Hrh : 0 <= Binary64.fl (h / total))
      by (apply fl_nonneg, Qle_shift_div_l; lra).
    pose proof (rounded_sum_of_three _ _ _ Hrl Hrm Hrh) as Hfloat.
    do 3 (split; [reflexivity |]). split; [exact Hsum |].
    set (rl := Binary64.fl (l / total)) in *. set (rm := Binary64.fl (m / total)) in *.
    set (rh := Binary64.fl (h / total)) in *.
    set (F := Binary64.fl (Binary64.fl (rl + rm) + rh)) in *.
    clearbody F rl rm rh. lra.
  - split; [intros Hpos; lra |]. intros _. repeat split.
Qed.

Lemma band_ratios_sum_to_one_up_to_rounding_witness :
  (let q := _analyze_audio_quality [0; 100; 500; 4000; 9000; -100] [1; 2; 3; 4; 5; 6] in
   low_freq_energy_ratio q + mid_freq_energy_ratio q + high_freq_energy_ratio q == 1) /\
  (let q := Binary64._analyze_audio_quality np_sum [100; 1000; 5000] [1; 4; 1] in
   - (1 # 2251799813685248)
   <= low_freq_energy_ratio q + mid_freq_energy_ratio q + high_freq_energy_ratio q - 1
   <= 1 # 2251799813685248).
Proof.
  split.
  - apply (proj1 (proj1 (band_ratios_sum_to_one_up_to_rounding
                           [0; 100; 500; 4000; 9000; -100] [1; 2; 3; 4; 5; 6]))).
    reflexivity.
  - apply (proj2 (band_ratios_sum_to_one_up_to_rounding [100; 1000; 5000] [1; 4; 1]) np_sum).
    + right. vm_compute. split; discriminate.
    + right. vm_compute. split; discriminate.
    + right. vm_compute. split; discriminate.
    + vm_compute. reflexivity.
Defined.

(** The band energies 1, 4 and 1, one bin in each band: the three ratios are
    the binary64 numbers nearest to 1/6, 2/3 and 1/6, which add up to
    1 - 2^-54, and adding them up on binary64 gives 1 - 2^-53, printed as
    0.9999999999999999; not 1. *)
Lemma band_ratios_of_1_4_1_fall_short_of_one :
  let q := Binary64._analyze_audio_quality np_sum [100; 1000; 5000] [1; 4; 1] in
  0 < Binary64.total_energy np_sum [100; 1000; 5000] [1; 4; 1] /\
  low_freq_energy_ratio q == 6004799503160661 # 36028797018963968 /\
  mid_freq_energy_ratio q == 6004799503160661 # 9007199254740992 /\
  high_freq_energy_ratio q == 6004799503160661 # 36028797018963968 /\
  low_freq_energy_ratio q + mid_freq_energy_ratio q + high_freq_energy_ratio q
  == 1 - (1 # 18014398509481984) /\
  Binary64.fl (Binary64.fl (low_freq_energy_ratio q + mid_freq_energy_ratio q)
               + high_freq_energy_ratio q)
  == 1 - (1 # 9007199254740992) /\
  ~ low_freq_energy_ratio q + mid_freq_energy_ratio q + high_freq_energy_ratio q == 1 /\
  ~ Binary64.fl (Binary64.fl (low_freq_energy_ratio q + mid_freq_energy_ratio q)
                 + high_freq_energy_ratio q)
    == 1.
Proof.
  cbv zeta. repeat split; try (vm_compute; reflexivity); vm_compute; discriminate.
Qed.
